(** * Shallow embedding of the iteration control plane of
      freqtrade-lottery-strategy (src/agent/*.py).

    Conventions used throughout:
    - Python floats that only take part in comparisons, additions,
      multiplications and divisions are modelled as exact rationals [Q]
      (Evaluator, WeeklySettlementManager, Orchestrator); the target-gap
      norm, which takes a square root, is modelled over [R].
    - Python dicts keyed by strings are stdpp [gmap string _]; dicts whose
      iteration order is observable are association lists.
    - f-string formatting of numbers ([f"{x:.2f}"], [str(x)]) is a function
      [fmt spec x] of the format spec and the value, kept abstract. *)

From Stdlib Require Import ZArith QArith Qround Qabs Ascii String List Bool.
From Stdlib Require Import Reals Lra.
From Stdlib Require Lqa.
From stdpp Require Import base gmap strings list.

Open Scope string_scope.

(** ** String helpers *)
Module PyStr.

(** [needle in hay] for Python strings. *)
Fixpoint contains (needle hay : string) : bool :=
  String.prefix needle hay ||
  match hay with
  | EmptyString => false
  | String _ hay' => contains needle hay'
  end.

End PyStr.

(** ** Python numerics over [Q] *)
Module PyNum.
Local Open Scope Q_scope.

(** [10 ^ n] as a positive. *)
Definition pow10 (n : nat) : positive := Nat.iter n (Pos.mul 10) 1%positive.

(** Python's [<] on numbers. *)
Definition Qltb (p q : Q) : bool := negb (Qle_bool q p).

(** Round half to even, as Python's [round] does on the exact value. *)
Definition round_half_even (q : Q) : Z :=
  let f := Qfloor q in
  let r := q - inject_Z f in
  if Qltb r (1 # 2) then f
  else if Qltb (1 # 2) r then (f + 1)%Z
  else if Z.even f then f else (f + 1)%Z.

(** [round(x, n)]. *)
Definition py_round (x : Q) (n : nat) : Q :=
  Qmake (round_half_even (x * inject_Z (Zpos (pow10 n)))) (pow10 n).

End PyNum.

(** Python's [sep.join(xs)]. *)
Definition py_join (sep : string) (xs : list string) : string :=
  match xs with
  | [] => ""
  | x :: rest => fold_left (fun acc y => acc ++ sep ++ y) rest x
  end.

(** A metrics dict ([MetricsRecord]): metric name to number. *)
Abbreviation metrics := (gmap string Q).

(** [m.get(k, d)]. *)
Definition mget (m : metrics) (k : string) (d : Q) : Q :=
  match m !! k with Some v => v | None => d end.

(** ** src/agent/evaluator.py *)
Module Evaluator.
Import PyNum.
Local Open Scope Q_scope.

Record PassCriteria := {
  weekly_target_hit_rate_min : Q;
  max_drawdown_pct_max : Q;
  total_trades_min : Q;
  stake_limit_hit_count_max : Q;
  monthly_net_profit_avg_min : Q;
}.

Definition default_criteria : PassCriteria := {|
  weekly_target_hit_rate_min := 25 # 100;
  max_drawdown_pct_max := 95;
  total_trades_min := 50;
  stake_limit_hit_count_max := 0;
  monthly_net_profit_avg_min := 0;
|}.

Record ScoreWeights := {
  monthly_avg_profit_w : Q;
  weekly_target_hit_rate_w : Q;
  max_monthly_loss_w : Q;
  trade_efficiency_w : Q;
}.

Definition default_weights : ScoreWeights := {|
  monthly_avg_profit_w := 4 # 10;
  weekly_target_hit_rate_w := 3 # 10;
  max_monthly_loss_w := 2 # 10;
  trade_efficiency_w := 1 # 10;
|}.

Record EvalResult := {
  passed : bool;
  score : Q;
  gate_failures : list string;
  score_breakdown : list (string * Q);
  metrics_of : metrics;
  is_overfitting : bool;
  recommendation : string;
}.

(** An [Evaluator] instance: its criteria, weights and OOS ratio. *)
Record Evaluator := {
  criteria : PassCriteria;
  weights : ScoreWeights;
  oos_score_ratio_min : Q;
}.

Definition default_evaluator : Evaluator := {|
  criteria := default_criteria;
  weights := default_weights;
  oos_score_ratio_min := 6 # 10;
|}.

Section WithFormat.
(** [fmt spec x] is the text of [f"{x:spec}"] ([spec = ""] for [str]). *)
Variable fmt : string -> Q -> string.

Definition gate_check (self : Evaluator) (m : metrics) : list string :=
  let c := criteria self in
  let wtr := mget m "weekly_target_hit_rate" 0 in
  let f1 := if Qltb wtr (weekly_target_hit_rate_min c)
            then ["weekly_target_hit_rate=" ++ fmt ".2%" wtr ++ " < "
                  ++ fmt ".2%" (weekly_target_hit_rate_min c)] else [] in
  let mdd := mget m "max_drawdown_pct" 0 in
  let f2 := if Qltb (max_drawdown_pct_max c) mdd
            then ["max_drawdown_pct=" ++ fmt ".1f" mdd ++ "% > "
                  ++ fmt "" (max_drawdown_pct_max c) ++ "%"] else [] in
  let trades := mget m "total_trades" 0 in
  let f3 := if Qltb trades (total_trades_min c)
            then ["total_trades=" ++ fmt "" trades ++ " < "
                  ++ fmt "" (total_trades_min c)] else [] in
  let stake_hits := mget m "stake_limit_hit_count" 0 in
  let f4 := if Qltb (stake_limit_hit_count_max c) stake_hits
            then ["stake_limit_hit_count=" ++ fmt "" stake_hits ++ " > "
                  ++ fmt "" (stake_limit_hit_count_max c)] else [] in
  let monthly_avg := mget m "monthly_net_profit_avg" 0 in
  let f5 := if Qle_bool monthly_avg (monthly_net_profit_avg_min c)
            then ["monthly_net_profit_avg=" ++ fmt ".2f" monthly_avg ++ " <= "
                  ++ fmt "" (monthly_net_profit_avg_min c)] else [] in
  (f1 ++ f2 ++ f3 ++ f4 ++ f5)%list.

(** [_calculate_score]: the rounded total and the unrounded breakdown. *)
Definition calculate_score (self : Evaluator) (m : metrics) : Q * list (string * Q) :=
  let w := weights self in
  let monthly_profit := mget m "monthly_net_profit_avg" 0 in
  let wtr := mget m "weekly_target_hit_rate" 0 in
  let max_loss := mget m "max_monthly_loss" 0 in
  let avg_duration0 := mget m "avg_trade_duration_hours" 24 in
  let avg_duration := if Qle_bool avg_duration0 0 then 24 else avg_duration0 in
  let s1 := monthly_profit * monthly_avg_profit_w w in
  let s2 := wtr * 100 * weekly_target_hit_rate_w w in
  let s3 := - max_loss * max_monthly_loss_w w in
  let s4 := (1 / avg_duration) * trade_efficiency_w w * 100 in
  let total := s1 + s2 + s3 + s4 in
  (py_round total 2,
   [("monthly_profit_component", s1);
    ("weekly_hit_rate_component", s2);
    ("max_loss_penalty", s3);
    ("trade_efficiency_component", s4)]).

Definition generate_recommendation (m : metrics) (failures : list string)
    (score : Q) : string :=
  let trades := mget m "total_trades" 0 in
  let wtr := mget m "weekly_target_hit_rate" 0 in
  let avg_profit := mget m "avg_profit_per_trade_pct" 0 in
  let duration := mget m "avg_trade_duration_hours" 0 in
  let r1 := if Qltb trades 50
            then ["交易次数不足(" ++ fmt "" trades ++ "), 建议放宽入场条件或增加交易对"]
            else [] in
  let r2 := if Qltb wtr (10 # 100)
            then ["周达标率过低, 考虑: 1) 降低目标倍数 2) 增加杠杆(风险更高) 3) 优化入场时机"]
            else if Qltb wtr (25 # 100)
            then ["周达标率偏低, 建议优化出场策略(trailing stop 参数)"]
            else [] in
  let r3 := if Qltb avg_profit 0
            then ["平均每笔亏损, 信号质量需要根本性改善"] else [] in
  let r4 := if Qltb 72 duration
            then ["平均持仓" ++ fmt ".0f" duration ++ "小时过长, 考虑缩短时间止损"]
            else if Qltb duration (5 # 10)
            then ["持仓时间过短(<30min), 可能频繁被止损扫出"]
            else [] in
  let recs := (r1 ++ r2 ++ r3 ++ r4)%list in
  let recs := match recs with
              | [] => if Qltb 50 score
                      then ["策略表现良好, 可尝试微调 trailing stop 参数优化"]
                      else ["策略中等, 建议调整入场/出场参数组合"]
              | _ => recs
              end in
  py_join " | " recs.

Definition evaluate (self : Evaluator) (m : metrics) : EvalResult :=
  let gate_failures := gate_check self m in
  let '(score, breakdown) := calculate_score self m in
  let passed := Nat.eqb (length gate_failures) 0 in
  let recommendation := generate_recommendation m gate_failures score in
  {| passed := passed; score := score; gate_failures := gate_failures;
     score_breakdown := breakdown; metrics_of := m;
     is_overfitting := false; recommendation := recommendation |}.

Definition compare_is_oos (self : Evaluator) (is_result oos_result : EvalResult)
    : bool * string :=
  if Qeq_bool (score is_result) 0 then (false, "IS score is 0, cannot evaluate")
  else
    let ratio := if Qltb 0 (score is_result)
                 then score oos_result / score is_result else 0 in
    if Qltb ratio (oos_score_ratio_min self) then
      (false, "OVERFITTING: OOS/IS ratio = " ++ fmt ".2f" ratio
              ++ " < " ++ fmt "" (oos_score_ratio_min self) ++ " threshold. "
              ++ "IS score=" ++ fmt ".2f" (score is_result)
              ++ ", OOS score=" ++ fmt ".2f" (score oos_result))
    else
      (true, "Walk-forward PASSED: OOS/IS ratio = " ++ fmt ".2f" ratio
             ++ " (threshold: " ++ fmt "" (oos_score_ratio_min self) ++ ")").

End WithFormat.

(** An [EvalResult] carrying only a score (as the tests build them). *)
Definition result_with_score (s : Q) : EvalResult :=
  {| passed := true; score := s; gate_failures := []; score_breakdown := [];
     metrics_of := ∅; is_overfitting := false; recommendation := "" |}.

(** The dict built by [EvalResult.to_dict()]: the score rounded to 2
    places, each breakdown component to 4 places, no metrics. *)
Record EvalDict := {
  d_passed : bool;
  d_score : Q;
  d_gate_failures : list string;
  d_score_breakdown : list (string * Q);
  d_is_overfitting : bool;
  d_recommendation : string;
}.

Definition to_dict (r : EvalResult) : EvalDict := {|
  d_passed := passed r;
  d_score := py_round (score r) 2;
  d_gate_failures := gate_failures r;
  d_score_breakdown := map (fun '(k, v) => (k, py_round v 4)) (score_breakdown r);
  d_is_overfitting := is_overfitting r;
  d_recommendation := recommendation r |}.
End Evaluator.

(** Python's [l[i:]] for an int [i] (negative indices count from the end;
    [l[-0:]] is the whole list). *)
Definition py_slice_from {A} (l : list A) (i : Z) : list A :=
  if (0 <=? i)%Z then drop (Z.to_nat i) l
  else drop (Z.to_nat (Z.max 0 (Z.of_nat (length l) + i))) l.

(** ** src/agent/weekly_settlement.py *)
Module WeeklySettlement.
Import PyNum.
Local Open Scope Q_scope.

(** A [WeeklySettlementReport] dict. *)
Record Report := {
  week_id : string;
  status : string;
  weekly_pnl : Q;
  reached_target : bool;
  exhausted_budget : bool;
  action_next_week : string;
  cooldown_triggered : bool;
}.

Record Manager := {
  weekly_budget : Q;
  weekly_target : Q;
  cooldown_threshold : Z;
  report_path : string;
  history : list Report;
}.

Definition new_manager (budget target : Q) (threshold : Z) : Manager := {|
  weekly_budget := budget; weekly_target := target;
  cooldown_threshold := threshold;
  report_path := "results/weekly/weekly_settlement_reports.jsonl";
  history := [] |}.

Definition default_manager : Manager := new_manager 100 1000 3.

Definition with_history (self : Manager) (h : list Report) : Manager := {|
  weekly_budget := weekly_budget self; weekly_target := weekly_target self;
  cooldown_threshold := cooldown_threshold self;
  report_path := report_path self; history := h |}.

Definition check_cooldown (self : Manager) : bool :=
  let n := cooldown_threshold self in
  if (Z.of_nat (length (history self)) <? n)%Z then false
  else
    let tail := py_slice_from (history self) (- n) in
    let all_miss := forallb (fun r => negb (String.eqb (status r) "TARGET_HIT")) tail in
    let all_negative := forallb (fun r => Qltb (weekly_pnl r) 0) tail in
    all_miss && all_negative.

(** [settle_week]: returns the updated manager and the report.  The report
    dict is appended to the history before the cooldown check and then
    mutated in place, so the history holds the mutated dict. *)
Definition settle_week (self : Manager) (wid : string) (pnl : Q) : Manager * Report :=
  let reached := Qle_bool (weekly_target self) pnl in
  let exhausted := Qle_bool pnl (- weekly_budget self) in
  let st := if reached then "TARGET_HIT"
            else if exhausted then "BUDGET_EXHAUSTED"
            else "WEEK_END_SETTLED" in
  let report0 := {| week_id := wid; status := st; weekly_pnl := pnl;
                    reached_target := reached; exhausted_budget := exhausted;
                    action_next_week := "reset_budget_100";
                    cooldown_triggered := false |} in
  let self1 := with_history self (history self ++ [report0])%list in
  let report :=
    if check_cooldown self1 then
      {| week_id := wid; status := st; weekly_pnl := pnl;
         reached_target := reached; exhausted_budget := exhausted;
         action_next_week := "cooldown_dryrun";
         cooldown_triggered := true |}
    else report0 in
  (with_history self (history self ++ [report])%list, report).

(** Settle a sequence of weeks in order, collecting the reports. *)
Fixpoint settle_weeks (self : Manager) (weeks : list (string * Q))
    : Manager * list Report :=
  match weeks with
  | [] => (self, [])
  | (wid, pnl) :: rest =>
      let '(self1, r) := settle_week self wid pnl in
      let '(self2, rs) := settle_weeks self1 rest in
      (self2, r :: rs)
  end.

End WeeklySettlement.

(** ** src/agent/orchestrator.py: the round loop and its termination check *)
Module Orchestrator.
Import PyNum.
Local Open Scope Q_scope.

(** The fields of an [IterationRound] dict that the loop reads or writes. *)
Record RoundRecord := {
  round : nat;
  status : string;
  score : Q;
  next_action : string;
}.

Definition set_status_action (r : RoundRecord) (st act : string) : RoundRecord :=
  {| round := round r; status := st; score := score r; next_action := act |}.

Definition set_next_action (r : RoundRecord) (act : string) : RoundRecord :=
  set_status_action r (status r) act.

Definition is_success (r : RoundRecord) : bool := String.eqb (status r) "success".

(** [all(scores[i] >= scores[i + 1] for i in range(len(scores) - 1))] *)
Fixpoint non_increasing (scores : list Q) : bool :=
  match scores with
  | x :: ((y :: _) as rest) => Qle_bool y x && non_increasing rest
  | _ => true
  end.

(** [rounds[-1]["next_action"] = act] *)
Definition set_last_action (rounds : list RoundRecord) (act : string) : list RoundRecord :=
  match rounds with
  | [] => []
  | _ => (removelast rounds ++ [set_next_action (List.last rounds (Build_RoundRecord 0 "" 0 "")) act])%list
  end.

Section Loop.
(** [fmt spec x] is the text of [f"{x:spec}"]. *)
Variable fmt : string -> Q -> string.
(** [_run_single_round(round_num, rounds)]: the external LLM and backtest
    work of one round, seen through its resulting record. *)
Variable run_single_round : nat -> list RoundRecord -> RoundRecord.
(** [run_walk_forward()] as called after round [round_num]; the rollback
    it triggers on failure only touches the strategy files, which the
    loop does not read back. *)
Variable run_walk_forward : nat -> bool * string.
Variable enable_walk_forward : bool.
Variable stale_rounds_limit : Z.

Definition check_termination (rounds : list RoundRecord) : bool * string :=
  match rounds with
  | [] => (false, "")
  | _ =>
    let successful := List.filter is_success rounds in
    let limit := stale_rounds_limit in
    if (limit <=? Z.of_nat (length successful))%Z then
      let tail := py_slice_from successful (- limit) in
      let scores := map score tail in
      if non_increasing scores then
        (true, "No improvement in last " ++ fmt "" (inject_Z limit)
               ++ " successful rounds (scores: ["
               ++ py_join ", " (map (fmt "") scores) ++ "])")
      else (false, "")
    else (false, "")
  end.

Fixpoint loop (fuel : nat) (round_num : nat) (rounds : list RoundRecord)
    : list RoundRecord :=
  match fuel with
  | O => rounds
  | S fuel' =>
    let record := run_single_round round_num rounds in
    let record :=
      if is_success record && enable_walk_forward then
        let '(wf_ok, wf_msg) := run_walk_forward round_num in
        if wf_ok then record else set_status_action record "overfitting" wf_msg
      else record in
    let rounds := (rounds ++ [record])%list in
    let '(should_stop, reason) := check_termination rounds in
    if should_stop then set_last_action rounds ("STOP: " ++ reason)
    else loop fuel' (S round_num) rounds
  end.

(** [run_iteration_loop(max_rounds)]: the rounds it returns
    ([for round_num in range(1, cap + 1)]). *)
Definition run_iteration_loop (cap : Z) : list RoundRecord :=
  loop (Z.to_nat cap) 1 [].

(** Reference for "no early termination": every round of
    [range(1, cap + 1)] run, with no termination check (and no
    walk-forward rejection). *)
Fixpoint run_every_round (fuel : nat) (round_num : nat) (rounds : list RoundRecord)
    : list RoundRecord :=
  match fuel with
  | O => rounds
  | S fuel' =>
    run_every_round fuel' (S round_num)
      (rounds ++ [run_single_round round_num rounds])%list
  end.

End Loop.

(** A [backtest_runner.run(...)] result: [BacktestRunner.run] always
    returns the keys [success], [error] and [metrics]. *)
Record BacktestResult := {
  bt_success : bool;
  bt_error : string;
  bt_metrics : metrics;
}.

(** [run_walk_forward()]: [timerange_oos] and [timerange_is] are
    [config.get(...)] ([None] when absent); [run tr] is
    [backtest_runner.run(timerange=tr)]. *)
Definition run_walk_forward (fmt : string -> Q -> string) (ev : Evaluator.Evaluator)
    (timerange_oos timerange_is : option string)
    (run : option string -> BacktestResult) : bool * string :=
  match timerange_oos with
  | None | Some EmptyString =>
      (true, "No OOS timerange configured — skipping walk-forward.")
  | Some t =>
      let oos_bt := run (Some t) in
      if negb (bt_success oos_bt) then (false, "OOS backtest failed: " ++ bt_error oos_bt)
      else
        let oos_eval := Evaluator.evaluate fmt ev (bt_metrics oos_bt) in
        let is_bt := run timerange_is in
        if negb (bt_success is_bt) then (false, "IS backtest failed: " ++ bt_error is_bt)
        else
          let is_eval := Evaluator.evaluate fmt ev (bt_metrics is_bt) in
          Evaluator.compare_is_oos fmt ev is_eval oos_eval
  end.
End Orchestrator.

(** ** src/agent/target_optimizer.py (numbers over [R]: [math.sqrt]) *)
Module TargetOptimizer.
Local Open Scope R_scope.

(** Round half to even over [R]; [Int_part] is the floor. *)
Definition round_half_even (x : R) : Z :=
  let f := Int_part x in
  let r := x - IZR f in
  if Rlt_dec r (1 / 2) then f
  else if Rlt_dec (1 / 2) r then (f + 1)%Z
  else if Z.even f then f else (f + 1)%Z.

(** [round(x, n)]. *)
Definition py_round (x : R) (n : nat) : R :=
  IZR (round_half_even (x * 10 ^ n)) / 10 ^ n.

(** A dict with insertion order: [(key, value)] pairs. *)
Definition dict := list (string * R).

Fixpoint dget (d : dict) (k : string) (dflt : R) : R :=
  match d with
  | [] => dflt
  | (k', v) :: rest => if String.eqb k k' then v else dget rest k dflt
  end.

Definition DEFAULT_TARGET_PROFILE : dict :=
  [("weekly_target_hit_rate", 0.25); ("monthly_net_profit_avg", 100);
   ("max_monthly_loss", 200); ("max_drawdown_pct", 50)].

Definition DEFAULT_WEIGHTS : dict :=
  [("weekly_target_hit_rate", 2); ("monthly_net_profit_avg", 1.5);
   ("max_monthly_loss", 1); ("max_drawdown_pct", 1)].

Record Optimizer := {
  target_profile : dict;
  fine_tune_threshold : R;
  log_path : string;
  weights : dict;
}.

(** [x or default] for a dict argument: [None] and [{}] are falsy. *)
Definition dict_or (d : option dict) (dflt : dict) : dict :=
  match d with Some ((_ :: _) as d') => d' | _ => dflt end.

Definition new_optimizer (profile : option dict) (threshold : R)
    (ws : option dict) : Optimizer := {|
  target_profile := dict_or profile DEFAULT_TARGET_PROFILE;
  fine_tune_threshold := threshold;
  log_path := "results/comparisons/target_gap_history.jsonl";
  weights := dict_or ws DEFAULT_WEIGHTS |}.

Definition default_optimizer : Optimizer := new_optimizer None 0.3 None.

(** A [TargetGapVector] dict. *)
Record Gap := {
  gap_round : Z;
  gap_target_profile : string;
  deltas : dict;
  weighted_norm : R;
  mode : string;
}.

Definition lower_is_better (key : string) : bool :=
  String.eqb key "max_monthly_loss" || String.eqb key "max_drawdown_pct".

Definition delta_of (current : gmap string R) (key : string) (target_val : R) : R :=
  let current_val := match current !! key with Some v => v | None => 0 end in
  if lower_is_better key then current_val - target_val
  else target_val - current_val.

(** The [deltas] dict built by the loop over [self.target_profile.items()]. *)
Definition compute_deltas (self : Optimizer) (current : gmap string R) : dict :=
  map (fun '(key, target_val) => (key, delta_of current key target_val))
      (target_profile self).

(** The accumulator of [_weighted_norm] before the square root. *)
Definition norm_acc (self : Optimizer) (ds : dict) : R :=
  fold_left (fun acc '(key, delta) =>
    if Rle_dec delta 0 then acc
    else
      let weight := dget (weights self) key 1 in
      let target_val := dget (target_profile self) key 1 in
      let norm_delta := if Req_EM_T target_val 0 then delta
                        else delta / Rabs target_val in
      acc + weight * norm_delta ^ 2) ds 0.

(** One step of [_weighted_norm]'s loop. *)
Definition norm_term (self : Optimizer) (kd : string * R) : R :=
  let '(key, delta) := kd in
  if Rle_dec delta 0 then 0
  else
    dget (weights self) key 1
    * (let t := dget (target_profile self) key 1 in
       if Req_EM_T t 0 then delta else delta / Rabs t) ^ 2.

(** [_weighted_norm]: [math.sqrt] raises [ValueError] on a negative sum. *)
Definition weighted_norm_of (self : Optimizer) (ds : dict) : option R :=
  let acc := norm_acc self ds in
  if Rlt_dec acc 0 then None else Some (sqrt acc).

Definition compute_gap (self : Optimizer) (current : gmap string R) (round_num : Z)
    : option Gap :=
  let ds := compute_deltas self current in
  match weighted_norm_of self ds with
  | None => None
  | Some wn =>
      let md := if Rlt_dec wn (fine_tune_threshold self) then "fine_tune" else "explore" in
      Some {| gap_round := round_num; gap_target_profile := "default";
              deltas := map (fun '(k, v) => (k, py_round v 6)) ds;
              weighted_norm := py_round wn 6; mode := md |}
  end.

(** Modelled from the spec: the deltas and the norm as the spec words them;
    over the metrics of the profile whose
    delta (positive = needs attention) is strictly positive, the sum of
    [weight * (delta / |target|)^2]; a zero target is not divided by. *)
Definition spec_delta (current : gmap string R) (key : string) (target : R) : R :=
  let cur := match current !! key with Some v => v | None => 0 end in
  if String.eqb key "max_monthly_loss" || String.eqb key "max_drawdown_pct"
  then cur - target else target - cur.

(** Modelled from the spec: one summand of the norm. *)
Definition spec_term (self : Optimizer) (current : gmap string R)
    (kt : string * R) : R :=
  let '(key, target) := kt in
  let d := spec_delta current key target in
  if Rlt_dec 0 d then
    dget (weights self) key 1
    * (if Req_EM_T target 0 then d else d / Rabs target) ^ 2
  else 0.

(** Modelled from the spec: the sum under the square root. *)
Definition spec_norm_sum (self : Optimizer) (current : gmap string R) : R :=
  fold_right Rplus 0 (map (spec_term self current) (target_profile self)).

End TargetOptimizer.

(** ** src/agent/comparator.py: dry-run deviation and robustness *)
Module Comparator.

Module Deviation.
Import PyNum.
Local Open Scope Q_scope.

(** [_pct_diff] inside [compute_dryrun_deviation]. *)
Definition pct_diff (bt_val dr_val : Q) : Q :=
  if Qeq_bool bt_val 0 then (if Qeq_bool dr_val 0 then 0 else 100)
  else Qabs (bt_val - dr_val) / Qabs bt_val * 100.

Record DryrunDeviation := {
  price_slippage_pct : Q;
  signal_gap_pct : Q;
  pnl_gap_pct : Q;
}.

Definition compute_dryrun_deviation (backtest_metrics dryrun_metrics : metrics)
    : DryrunDeviation :=
  let bt_price := mget backtest_metrics "avg_entry_price" 0 in
  let dr_price := mget dryrun_metrics "avg_entry_price" 0 in
  let bt_signals := mget backtest_metrics "total_trades" 0 in
  let dr_signals := mget dryrun_metrics "total_trades" 0 in
  let bt_pnl := mget backtest_metrics "monthly_net_profit_avg" 0 in
  let dr_pnl := mget dryrun_metrics "monthly_net_profit_avg" 0 in
  {| price_slippage_pct := py_round (pct_diff bt_price dr_price) 4;
     signal_gap_pct := py_round (pct_diff bt_signals dr_signals) 4;
     pnl_gap_pct := py_round (pct_diff bt_pnl dr_pnl) 4 |}.

End Deviation.

Module Robustness.
Local Open Scope R_scope.

(** [m.get("score", m.get("monthly_net_profit_avg", 0.0))] *)
Definition window_score (m : gmap string R) : R :=
  match m !! "score" with
  | Some v => v
  | None => match m !! "monthly_net_profit_avg" with Some v => v | None => 0 end
  end.

Definition sum (l : list R) : R := fold_right Rplus 0 l.

(** [statistics.mean] on a non-empty list (exact, as [statistics] computes). *)
Definition mean (l : list R) : R := sum l / INR (length l).

(** [statistics.stdev] on a list of at least two values. *)
Definition stdev (l : list R) : R :=
  let m := mean l in
  sqrt (sum (map (fun x => (x - m) ^ 2) l) / INR (length l - 1)).

(** [_calc_robustness]: the windows in insertion order; an empty metrics
    dict ([not m]) is skipped. *)
Definition calc_robustness (metrics_by_window : list (string * gmap string R)) : R :=
  let scores := map (fun '(_, m) => window_score m)
                  (List.filter (fun '(_, m) => negb (bool_decide (m = ∅)))
                     metrics_by_window) in
  if Nat.ltb (length scores) 2 then 0
  else
    let mn := mean scores in
    if Req_EM_T mn 0 then 0
    else
      let cv := stdev scores / Rabs mn in
      let x := 100 - cv * 100 in
      TargetOptimizer.py_round (if Rlt_dec 0 x then x else 0) 2.

End Robustness.
End Comparator.

(** ** Python text helpers used by the strategy modifier *)
Module PyText.

Definition is_digit (c : Ascii.ascii) : bool :=
  let n := Ascii.nat_of_ascii c in (Nat.leb 48 n) && (Nat.leb n 57).

(** Regex [\s] on ASCII text (Python [str.isspace()]). *)
Definition is_space (c : Ascii.ascii) : bool :=
  let n := Ascii.nat_of_ascii c in
  ((Nat.leb 9 n) && (Nat.leb n 13)) || ((Nat.leb 28 n) && (Nat.leb n 32)).

(** Regex [\w] on ASCII text. *)
Definition is_word (c : Ascii.ascii) : bool :=
  let n := Ascii.nat_of_ascii c in
  is_digit c || ((Nat.leb 65 n) && (Nat.leb n 90)) || ((Nat.leb 97 n) && (Nat.leb n 122))
  || (Nat.eqb n 95).

Definition lower (c : Ascii.ascii) : Ascii.ascii :=
  let n := Ascii.nat_of_ascii c in
  if (Nat.leb 65 n) && (Nat.leb n 90) then Ascii.ascii_of_nat (n + 32) else c.

Fixpoint lower_str (s : string) : string :=
  match s with
  | EmptyString => EmptyString
  | String c s' => String (lower c) (lower_str s')
  end.

Fixpoint skip_space (s : string) : string :=
  match s with
  | String c s' => if is_space c then skip_space s' else s
  | EmptyString => s
  end.

(** Greedy [[class]*]: the matched text and the rest. *)
Fixpoint span (p : Ascii.ascii -> bool) (s : string) : string * string :=
  match s with
  | String c s' =>
      if p c then let '(a, b) := span p s' in (String c a, b) else (EmptyString, s)
  | EmptyString => (EmptyString, EmptyString)
  end.

(** [s] with the prefix [pre] removed, if it is one. *)
Fixpoint strip_prefix (pre s : string) : option string :=
  match pre, s with
  | EmptyString, _ => Some s
  | String c pre', String d s' =>
      if Ascii.eqb c d then strip_prefix pre' s' else None
  | _, _ => None
  end.

Definition ends_with (suf s : string) : bool :=
  let n := String.length s in
  let k := String.length suf in
  (Nat.leb k n) && String.eqb (substring (n - k) k s) suf.

Definition has_char (c : Ascii.ascii) (s : string) : bool :=
  PyStr.contains (String c EmptyString) s.

(** The value of one byte of a UTF-8 encoding. *)
Definition byte_val (c : Ascii.ascii) : Z := Z.of_nat (Ascii.nat_of_ascii c).

(** A UTF-8 continuation byte ([0b10xxxxxx]). *)
Definition is_cont (c : Ascii.ascii) : bool :=
  (128 <=? byte_val c)%Z && (byte_val c <? 192)%Z.

(** The number of bytes of the UTF-8 sequence that a lead byte opens. *)
Definition seq_len (b : Z) : nat :=
  if (b <? 192)%Z then 1 else if (b <? 224)%Z then 2 else if (b <? 240)%Z then 3 else 4.

(** Up to [k] continuation bytes at the front of [s], and the rest. *)
Fixpoint split_cont (k : nat) (s : string) : string * string :=
  match k, s with
  | S k', String c s' =>
      if is_cont c then let '(a, b) := split_cont k' s' in (String c a, b)
      else (EmptyString, s)
  | _, _ => (EmptyString, s)
  end.

(** The code point of a UTF-8 sequence: the payload bits of its lead
    byte followed by six bits of each continuation byte. *)
Definition cp_value (lead : Z) (conts : string) : Z :=
  let n := seq_len lead in
  let lead_bits := if Nat.eqb n 1 then lead else Z.land lead (Z.shiftr 127 (Z.of_nat n)) in
  fold_left (fun acc c => acc * 64 + Z.land (byte_val c) 63)%Z
    (list_ascii_of_string conts) lead_bits.

Fixpoint utf8_chars_aux (fuel : nat) (s : string) : list (Z * string) :=
  match fuel, s with
  | S fuel', String a s' =>
      let '(conts, rest) := split_cont (seq_len (byte_val a) - 1) s' in
      (cp_value (byte_val a) conts, String a conts) :: utf8_chars_aux fuel' rest
  | _, _ => []
  end.

(** The characters of a Python [str] held as its UTF-8 encoding: the
    code point and the bytes of each character, in order. *)
Definition utf8_chars (s : string) : list (Z * string) :=
  utf8_chars_aux (String.length s) s.

(** [int(digits)] for a string of ASCII digits. *)
Definition digits_value (s : string) : Z :=
  let fix go (s : string) (acc : Z) : Z :=
    match s with
    | EmptyString => acc
    | String c s' => go s' (acc * 10 + Z.of_nat (Ascii.nat_of_ascii c - 48))%Z
    end in go s 0%Z.

Fixpoint digits_of_pos_aux (fuel : nat) (n : N) (acc : string) : string :=
  match fuel with
  | O => acc
  | S fuel' =>
      let d := Ascii.ascii_of_N (48 + N.modulo n 10) in
      let q := N.div n 10 in
      if (q =? 0)%N then String d acc else digits_of_pos_aux fuel' q (String d acc)
  end.

(** Decimal digits of a natural number ([str(n)] for [n >= 0]). *)
Definition digits_of_N (n : N) : string := digits_of_pos_aux (S (N.to_nat (N.log2 n))) n "".

Fixpoint zeros (n : nat) : string :=
  match n with O => "" | S n' => String (Ascii.ascii_of_nat 48) (zeros n') end.

Definition zpad (width : nat) (s : string) : string :=
  zeros (width - String.length s) ++ s.

(** [str(z)] *)
Definition z_to_str (z : Z) : string :=
  if (z <? 0)%Z then "-" ++ digits_of_N (Z.to_N (- z)) else digits_of_N (Z.to_N z).

(** [f"{z:03d}"]: the sign counts towards the width. *)
Definition fmt03d (z : Z) : string :=
  if (z <? 0)%Z then "-" ++ zpad 2 (digits_of_N (Z.to_N (- z)))
  else zpad 3 (digits_of_N (Z.to_N z)).

(** [os.path.join(a, b)] (POSIX). *)
Definition path_join (a b : string) : string :=
  if String.prefix "/" b then b
  else if String.eqb a "" then b
  else if ends_with "/" a then a ++ b
  else a ++ "/" ++ b.

End PyText.

(** ** src/agent/strategy_modifier.py *)
Module StrategyModifier.
Import PyText.

(** A Python exception: its class name and [str(e)]. *)
Inductive exn := PyExn (name : string) (msg : string).

Definition exn_str (e : exn) : string := match e with PyExn _ m => m end.

(** The file system: path to file content. *)
Abbreviation fs := (gmap string string).

(** Code that reads and writes files and may raise; state changes made
    before an exception are kept. *)
Definition M (A : Type) := fs -> (exn + A) * fs.

Definition ret {A} (x : A) : M A := fun s => (inr x, s).
Definition raise {A} (e : exn) : M A := fun s => (inl e, s).
Definition bind {A B} (c : M A) (k : A -> M B) : M B :=
  fun s => match c s with
           | (inl e, s') => (inl e, s')
           | (inr x, s') => k x s'
           end.
(** [try: c  except Exception as e: h(e)] *)
Definition try_except {A} (c : M A) (h : exn -> M A) : M A :=
  fun s => match c s with
           | (inl e, s') => h e s'
           | (inr x, s') => (inr x, s')
           end.

Notation "x <- c ;; k" := (bind c (fun x => k))
  (at level 100, c at next level, right associativity).
Notation "c ;;; k" := (bind c (fun _ => k))
  (at level 100, right associativity).

(** Pure code that may raise. *)
Definition lift {A} (r : exn + A) : M A :=
  match r with inl e => raise e | inr x => ret x end.

Definition REQUIRED_PATTERNS : list string :=
  ["WeeklyBudgetController"; "can_open_trade"; "confirm_trade_entry"].

Definition MAX_LEVERAGE : Z := 20.

Record StrategyModifier := {
  strategy_dir : string;
  backup_dir : string;
  strategy_filename : string;
}.

Definition strategy_path (self : StrategyModifier) : string :=
  path_join (strategy_dir self) (strategy_filename self).

(** [StrategyModifier()] with its default arguments. *)
Definition default_modifier : StrategyModifier := {|
  strategy_dir := "strategies";
  backup_dir := "results/strategy_versions";
  strategy_filename := "LotteryMindsetStrategy.py" |}.

Record PatchResult := {
  success : bool;
  backup_path : string;
  errors : list string;
  warnings : list string;
}.

(** [re.findall(r"leverage\s*[=:]\s*(\d+)", code)]: after a match the scan
    resumes at its end; [\s*] is followed by a non-space, so no
    backtracking is needed. *)
Fixpoint findall_leverage (fuel : nat) (s : string) : list string :=
  match fuel, s with
  | O, _ | _, EmptyString => []
  | S fuel', String _ s' =>
    let here :=
      match strip_prefix "leverage" s with
      | Some r =>
        match skip_space r with
        | String c r2 =>
          if Ascii.eqb c "="%char || Ascii.eqb c ":"%char then
            let '(ds, r4) := span is_digit (skip_space r2) in
            if String.eqb ds "" then None else Some (ds, r4)
          else None
        | EmptyString => None
        end
      | None => None
      end in
    match here with
    | Some (ds, r4) => ds :: findall_leverage fuel' r4
    | None => findall_leverage fuel' s'
    end
  end.

Definition is_num_char (c : Ascii.ascii) : bool := is_digit c || Ascii.eqb c "."%char.

(** [re.findall(r"stoploss\s*=\s*(-?[\d.]+)", code)]. *)
Fixpoint findall_stoploss (fuel : nat) (s : string) : list string :=
  match fuel, s with
  | O, _ | _, EmptyString => []
  | S fuel', String _ s' =>
    let here :=
      match strip_prefix "stoploss" s with
      | Some r =>
        match skip_space r with
        | String c r2 =>
          if Ascii.eqb c "="%char then
            let r3 := skip_space r2 in
            let '(sign, r4) :=
              match r3 with
              | String m r4 => if Ascii.eqb m "-"%char then ("-", r4) else ("", r3)
              | EmptyString => ("", r3)
              end in
            let '(num, r5) := span is_num_char r4 in
            if String.eqb num "" then None else Some (sign ++ num, r5)
          else None
        | EmptyString => None
        end
      | None => None
      end in
    match here with
    | Some (v, r5) => v :: findall_stoploss fuel' r5
    | None => findall_stoploss fuel' s'
    end
  end.

(** [re.search(r"stake_amount\s*=\s*.*balance", code, re.IGNORECASE)]:
    [.] stops at a newline, and [balance] has no space in it, so trying
    the greedy [\s*] alone decides the match. *)
Fixpoint search_stake_balance (s : string) : bool :=
  match s with
  | EmptyString => false
  | String _ s' =>
    match strip_prefix "stake_amount" (lower_str s) with
    | Some r =>
      match skip_space r with
      | String c r2 =>
        Ascii.eqb c "="%char
        && PyStr.contains "balance"
             (fst (span (fun d => negb (Ascii.eqb d (Ascii.ascii_of_nat 10)))
                        (skip_space r2)))
      | EmptyString => false
      end
    | None => false
    end || search_stake_balance s'
  end.

Section Modifier.
(** [ast.parse(code)]: [Some msg] is the [SyntaxError] text
    [f"Line {e.lineno}: {e.msg}"], [None] a successful parse. *)
Variable parse_python : string -> option string.
(** [float(sl_str)]: [None] when it raises [ValueError], otherwise
    [(float(sl_str) < MIN_STOPLOSS, str(float(sl_str)))]. *)
Variable stoploss_float : string -> option (bool * string).
(** Whether the OS lets the process create or replace the file at a
    path (its directory exists and is writable). *)
Variable can_write : string -> bool.
(** [chr(cp).isalnum()] for a code point [cp] beyond ASCII: the Unicode
    character database behind the regex class [\w]. *)
Variable unicode_isalnum : Z -> bool.
(** [max(backups, key=lambda p: p.stat().st_mtime)]. *)
Variable select_latest : list string -> string.

Definition validate_syntax (code : string) : bool * string :=
  match parse_python code with
  | None => (true, "")
  | Some msg => (false, msg)
  end.

(** The stop-loss loop of [_safety_check]: the errors it appends, or the
    [ValueError] raised by [float(sl_str)]. *)
Fixpoint check_sls (l : list string) : exn + list string :=
  match l with
  | [] => inr []
  | sl :: rest =>
    match stoploss_float sl with
    | None => inl (PyExn "ValueError"
                     ("could not convert string to float: '" ++ sl ++ "'"))
    | Some (below, shown) =>
      match check_sls rest with
      | inl e => inl e
      | inr es =>
        inr (if below then ("Stoploss " ++ shown ++ " is wider than minimum -0.98") :: es
             else es)
      end
    end
  end.

Definition safety_check (code : string) : exn + (list string * list string) :=
  let errs1 :=
    flat_map (fun p =>
      if PyStr.contains p code then []
      else ["Required pattern missing: " ++ p ++ " — "
            ++ "WeeklyBudgetController integration must be preserved"])
      REQUIRED_PATTERNS in
  let levs := map digits_value (findall_leverage (S (String.length code)) code) in
  let errs2 :=
    flat_map (fun lev =>
      if (MAX_LEVERAGE <? lev)%Z
      then ["Leverage " ++ z_to_str lev ++ "x exceeds maximum "
            ++ z_to_str MAX_LEVERAGE ++ "x"] else []) levs in
  let warns2 :=
    flat_map (fun lev =>
      if (MAX_LEVERAGE <? lev)%Z then []
      else if (10 <? lev)%Z
      then ["Leverage " ++ z_to_str lev ++ "x is within allowed range but > 10x. "
            ++ "OP recommends 3-10x."] else []) levs in
  let sls := findall_stoploss (S (String.length code)) code in
  match check_sls sls with
  | inl e => inl e
  | inr errs3 =>
    let lc := lower_str code in
    let warns3 := (
      (if PyStr.contains "compound" lc
       then ["Possible compounding pattern detected: compound — OP strategy is non-compounding"]
       else []) ++
      (if PyStr.contains "reinvest" lc
       then ["Possible compounding pattern detected: reinvest — OP strategy is non-compounding"]
       else []) ++
      (if search_stake_balance code
       then ["Possible compounding pattern detected: stake_amount\s*=\s*.*balance — OP strategy is non-compounding"]
       else []))%list in
    inr ((errs1 ++ errs2 ++ errs3)%list, (warns2 ++ warns3)%list)
  end.

(** [os.path.exists(p)] *)
Definition path_exists (p : string) : M bool :=
  fun s => (inr (bool_decide (is_Some (s !! p))), s).

(** [shutil.copy2(src, dst)]. The copy either completes or fails before
    [dst] is opened; a failure after that point (a short write, or
    [copystat] refused on a file owned by another user) is not modelled. *)
Definition copy2 (src dst : string) : M unit :=
  fun s =>
    match s !! src with
    | None => (inl (PyExn "FileNotFoundError" src), s)
    | Some c =>
      if String.eqb src dst then (inl (PyExn "SameFileError" src), s)
      else if can_write dst then (inr tt, <[dst := c]> s)
      else (inl (PyExn "OSError" dst), s)
    end.

(** [open(p, "w").write(content)]. The write either completes or fails
    at [open]; a failure after the file was truncated is not modelled. *)
Definition write_file (p content : string) : M unit :=
  fun s => if can_write p then (inr tt, <[p := content]> s)
           else (inl (PyExn "OSError" p), s).

(** [os.replace(src, dst)] *)
Definition replace (src dst : string) : M unit :=
  fun s =>
    match s !! src with
    | None => (inl (PyExn "FileNotFoundError" src), s)
    | Some c =>
      if String.eqb src dst then (inr tt, s)
      else if can_write dst then (inr tt, <[dst := c]> (delete src s))
      else (inl (PyExn "OSError" dst), s)
    end.

Definition atomic_write (path content : string) : M unit :=
  let tmp := path ++ ".tmp" in
  write_file tmp content ;;; replace tmp path.

(** Regex [\w] on one character (a [str] pattern, so Unicode-aware):
    ASCII letters, digits and [_], and beyond ASCII [str.isalnum()]. *)
Definition is_word_char (cp : Z) : bool :=
  if (cp <? 128)%Z then is_word (Ascii.ascii_of_nat (Z.to_nat cp)) else unicode_isalnum cp.

(** [re.sub(r"[^\w]", "_", description)[:50] if description else ""],
    on the UTF-8 encoding of [description]: every character that is not
    a word character becomes [_], and the first 50 characters are kept. *)
Definition safe_desc (description : string) : string :=
  if String.eqb description "" then ""
  else fold_right String.append ""
         (firstn 50 (map (fun ch => if is_word_char (fst ch) then snd ch else "_")
                         (utf8_chars description))).

(** [_backup]; [ts] is [datetime.now().strftime("%Y%m%d_%H%M%S")]. *)
Definition backup_name (round_num : Z) (description ts : string) : string :=
  "round_" ++ fmt03d round_num ++ "_" ++ ts ++ "_" ++ safe_desc description ++ ".py".

Definition backup (self : StrategyModifier) (round_num : Z) (description ts : string)
    : M string :=
  let bp := path_join (backup_dir self) (backup_name round_num description ts) in
  ex <- path_exists (strategy_path self) ;;
  (if ex then copy2 (strategy_path self) bp else ret tt) ;;;
  ret bp.

Definition apply_patch (self : StrategyModifier) (new_code : string) (round_num : Z)
    (changes_description ts : string) : M PatchResult :=
  let '(syntax_ok, syntax_err) := validate_syntax new_code in
  if negb syntax_ok then
    ret {| success := false; backup_path := "";
           errors := ["Syntax error: " ++ syntax_err]; warnings := [] |}
  else
    sw <- lift (safety_check new_code) ;;
    let '(errs, warns) := sw in
    match errs with
    | _ :: _ =>
      ret {| success := false; backup_path := ""; errors := errs; warnings := warns |}
    | [] =>
      bp <- backup self round_num changes_description ts ;;
      try_except
        (atomic_write (strategy_path self) new_code ;;;
         ret {| success := true; backup_path := bp; errors := []; warnings := warns |})
        (fun e =>
           ex <- path_exists bp ;;
           (if negb (String.eqb bp "") && ex
            then copy2 bp (strategy_path self) else ret tt) ;;;
           ret {| success := false; backup_path := bp;
                  errors := ["Write failed: " ++ exn_str e]; warnings := warns |})
    end.

(** [Path(backup_dir).glob(f"round_{round_num:03d}_*.py")] tested on a path. *)
Definition glob_match (bdir : string) (round_num : Z) (p : string) : bool :=
  match strip_prefix (path_join bdir "") p with
  | Some name =>
    negb (has_char "/"%char name)
    && String.prefix ("round_" ++ fmt03d round_num ++ "_") name
    && ends_with ".py" name
  | None => false
  end.

Definition rollback (self : StrategyModifier) (round_num : Z) : M bool :=
  fun s =>
    let backups := List.filter (glob_match (backup_dir self) round_num)
                               (elements (dom s)) in
    match backups with
    | [] => (inr false, s)
    | _ => (copy2 (select_latest backups) (strategy_path self) ;;; ret true) s
    end.

End Modifier.
End StrategyModifier.

(** ** src/agent/strategy_modifier.py: [apply_config_patch] and [_deep_merge] *)
Module StrategyConfig.
Import PyText StrategyModifier.

(** A JSON value as [json.load] returns it; an object is a dict with
    insertion order. *)
#[warnings="-register-all"] Inductive json :=
| JNull
| JBool (b : bool)
| JNum (q : Q)
| JStr (s : string)
| JArr (l : list json)
| JObj (kvs : list (string * json)).

(** [d.get(k)] *)
Fixpoint dict_get (d : list (string * json)) (k : string) : option json :=
  match d with
  | [] => None
  | (k', v) :: rest => if String.eqb k k' then Some v else dict_get rest k
  end.

(** [d[k] = v]: an existing key keeps its position, a new one goes last. *)
Fixpoint dict_set (d : list (string * json)) (k : string) (v : json)
    : list (string * json) :=
  match d with
  | [] => [(k, v)]
  | (k', v') :: rest =>
      if String.eqb k k' then (k', v) :: rest else (k', v') :: dict_set rest k v
  end.

(** [_deep_merge(base, override)] on a dict [base]: the dict it leaves
    in [base]; [override] is a JSON object, anything else is no dict to
    iterate. *)
Fixpoint merge_into (base : list (string * json)) (override : json)
    {struct override} : list (string * json) :=
  match override with
  | JObj items =>
      (fix go (items : list (string * json)) (base : list (string * json))
           : list (string * json) :=
         match items with
         | [] => base
         | (key, value) :: rest =>
             let base' :=
               match dict_get base key, value with
               | Some (JObj b), JObj _ => dict_set base key (JObj (merge_into b value))
               | _, _ => dict_set base key value
               end in
             go rest base'
         end) items base
  | _ => base
  end.

(** The result of [apply_config_patch]. *)
Record ConfigPatchResult := {
  c_success : bool;
  c_backup : string;
  c_errors : list string;
}.

(** [open(p, "r").read()] *)
Definition read_file (p : string) : M string :=
  fun s => match s !! p with
           | Some c => (inr c, s)
           | None => (inl (PyExn "FileNotFoundError"
                             ("[Errno 2] No such file or directory: '" ++ p ++ "'")), s)
           end.

Section Config.
Variable can_write : string -> bool.
(** [json.load]: the value, or the [JSONDecodeError] it raises. *)
Variable json_load : string -> exn + json.
(** [json.dump(config, f, indent=4)]: the text written; a dump that
    raises (a [RecursionError] on deep nesting) is not modelled. *)
Variable json_dump : json -> string.
(** [str(e)] of the [TypeError] raised when [_deep_merge] first touches
    the key [k] of a base value that is not a dict. *)
Variable type_error : json -> string -> string.

(** [_deep_merge(config, config_changes)] at the top level: the merged
    config, or the [TypeError] of a non-dict config. *)
Definition deep_merge (base : json) (override : list (string * json)) : exn + json :=
  match base, override with
  | JObj b, _ => inr (JObj (merge_into b (JObj override)))
  | _, [] => inr base
  | _, (key, _) :: _ => inl (PyExn "TypeError" (type_error base key))
  end.

Definition apply_config_patch (config_path : string)
    (config_changes : list (string * json)) (round_num : Z) : M ConfigPatchResult :=
  try_except
    (text <- read_file config_path ;;
     config <- lift (json_load text) ;;
     let bk := config_path ++ ".bak.r" ++ z_to_str round_num in
     copy2 can_write config_path bk ;;;
     merged <- lift (deep_merge config config_changes) ;;
     write_file can_write config_path (json_dump merged) ;;;
     ret {| c_success := true; c_backup := bk; c_errors := [] |})
    (fun e => ret {| c_success := false; c_backup := ""; c_errors := [exn_str e] |}).

End Config.
End StrategyConfig.

(** ** src/agent/error_recovery.py *)
Module ErrorRecovery.
Import PyText StrategyModifier.

(** [re.search(pattern, text, re.IGNORECASE)] for a literal lower-case
    ASCII [pattern], on ASCII text. *)
Definition search_ci (needle text : string) : bool :=
  PyStr.contains needle (lower_str text).

(** [\bdata\b] on lower-cased ASCII text; [prev_word] tells whether the
    character before [s] is a word character. *)
Fixpoint search_data (prev_word : bool) (s : string) : bool :=
  (negb prev_word &&
   match strip_prefix "data" s with
   | Some EmptyString => true
   | Some (String c _) => negb (is_word c)
   | None => false
   end)
  || match s with
     | EmptyString => false
     | String c s' => search_data (is_word c) s'
     end.

Definition classify_error (error_log : string) : string :=
  if search_ci "syntaxerror" error_log || search_ci "indentationerror" error_log
  then "syntax"
  else if search_ci "keyerror" error_log || search_ci "nameerror" error_log
          || search_ci "attributeerror" error_log || search_ci "typeerror" error_log
          || search_ci "indexerror" error_log
  then "runtime"
  else if search_ci "config" error_log || search_ci "json" error_log
          || search_ci "settings" error_log
  then "config"
  else if search_data false (lower_str error_log) || search_ci "download" error_log
          || search_ci "pairs" error_log || search_ci "timerange" error_log
  then "data"
  else "unknown".

Definition nl : string := String (Ascii.ascii_of_nat 10) EmptyString.
Definition dq : string := String (Ascii.ascii_of_nat 34) EmptyString.

Definition build_fix_prompt (error_type traceback code_snippet changes_summary : string)
    : string :=
  "## Error Type" ++ nl ++ error_type ++ nl ++ nl
  ++ "## Traceback" ++ nl ++ "```" ++ nl ++ traceback ++ nl ++ "```" ++ nl ++ nl
  ++ "## Current Code Snippet" ++ nl ++ "```python" ++ nl ++ code_snippet ++ nl
  ++ "```" ++ nl ++ nl
  ++ "## Recent Changes" ++ nl ++ changes_summary ++ nl ++ nl
  ++ "## Task" ++ nl
  ++ "Fix the error above and return the complete corrected strategy code." ++ nl
  ++ "Return JSON: {{" ++ dq ++ "code_patch" ++ dq ++ ": " ++ dq
  ++ "<full corrected code>" ++ dq ++ ", " ++ dq ++ "fix_summary" ++ dq ++ ": "
  ++ dq ++ "<what you fixed>" ++ dq ++ "}}".

Record ErrorRecoveryManager := {
  strategy_modifier : StrategyModifier;
  max_retries : Z;
}.

(** The dict returned by [attempt_fix]. *)
Record FixResult := {
  fx_success : bool;
  fx_attempts : Z;
  fx_error_type : string;
  fx_fix_summary : string;
  fx_metrics : metrics;
}.

(** The dict returned by [rollback_on_exhausted]. *)
Record RollbackReport := {
  rolled_back : bool;
  rollback_round : Z;
  rb_status : string;
}.

Section Recovery.
Variable parse_python : string -> option string.
Variable stoploss_float : string -> option (bool * string).
Variable can_write : string -> bool.
Variable unicode_isalnum : Z -> bool.
Variable select_latest : list string -> string.
(** [str(se)] of the [SyntaxError] that [ast.parse(code)] raises. *)
Variable syntax_error_str : string -> string.
(** [generate_fix_patch(system_prompt=..., fix_prompt=...)] during attempt
    [n]: the values of [fix_result.get("code_patch", "")] and
    [fix_result.get("fix_summary", "")], or the exception it raises. *)
Variable generate_fix_patch : Z -> string -> string -> exn + (string * string).
(** [backtest_runner.run(...)] on the current files, given the
    [timerange] keyword ([None]: no [timerange] argument). *)
Variable backtest_run : option string -> fs -> Orchestrator.BacktestResult.
(** [datetime.now().strftime("%Y%m%d_%H%M%S")] during attempt [n]. *)
Variable now_ts : Z -> string.

Definition exhausted_result (self : ErrorRecoveryManager) (error_type : string) : FixResult :=
  {| fx_success := false; fx_attempts := max_retries self; fx_error_type := error_type;
     fx_fix_summary := "exhausted"; fx_metrics := ∅ |}.

(** The [for attempt in range(1, self.max_retries + 1)] loop from
    [attempt] on, with [fuel] attempts left. *)
Fixpoint repair_loop (self : ErrorRecoveryManager) (fuel : nat) (attempt round_num : Z)
    (timerange : option string) (error_type last_error current_code : string)
    : M FixResult :=
  match fuel with
  | O => ret (exhausted_result self error_type)
  | S fuel' =>
    let next := repair_loop self fuel' (attempt + 1) round_num timerange error_type in
    let fix_prompt :=
      build_fix_prompt error_type last_error current_code
        ("Round " ++ z_to_str round_num ++ ", repair attempt " ++ z_to_str attempt) in
    match generate_fix_patch attempt "You are a Python debugging expert." fix_prompt with
    | inl _ => next last_error current_code
    | inr (patched_code, summary) =>
      if String.eqb patched_code "" then next last_error current_code
      else
        match parse_python patched_code with
        | Some _ => next (syntax_error_str patched_code) patched_code
        | None =>
          patch_result <- apply_patch parse_python stoploss_float can_write unicode_isalnum
                            (strategy_modifier self) patched_code round_num
                            ("auto-repair attempt " ++ z_to_str attempt ++ ": " ++ summary)
                            (now_ts attempt) ;;
          if negb (success patch_result) then next last_error current_code
          else
            fun s =>
              let bt_result :=
                backtest_run (match timerange with
                              | Some EmptyString => None
                              | t => t
                              end) s in
              if Orchestrator.bt_success bt_result then
                (inr {| fx_success := true; fx_attempts := attempt;
                        fx_error_type := error_type; fx_fix_summary := summary;
                        fx_metrics := Orchestrator.bt_metrics bt_result |}, s)
              else next (Orchestrator.bt_error bt_result) patched_code s
        end
    end
  end.

Definition attempt_fix (self : ErrorRecoveryManager) (error_log current_code : string)
    (round_num : Z) (timerange : option string) : M FixResult :=
  let error_type := classify_error error_log in
  repair_loop self (Z.to_nat (max_retries self)) 1 round_num timerange
    error_type error_log current_code.

Definition rollback_on_exhausted (self : ErrorRecoveryManager) (round_num : Z)
    : M RollbackReport :=
  let target_round := (round_num - 1)%Z in
  if (target_round <? 1)%Z then
    ret {| rolled_back := false; rollback_round := 0; rb_status := "rollback_failed" |}
  else
    ok <- rollback can_write select_latest (strategy_modifier self) target_round ;;
    if ok then
      ret {| rolled_back := true; rollback_round := target_round;
             rb_status := "quarantined" |}
    else
      ret {| rolled_back := false; rollback_round := target_round;
             rb_status := "rollback_failed" |}.

End Recovery.
End ErrorRecovery.

(** ** controllers/weekly_budget_controller.py *)
Module BudgetController.
Local Open Scope Q_scope.

Record WeeklyBudgetController := {
  weekly_budget : Q;
  weekly_target : Q;
  cycle_start_day : Z;
  min_balance_ratio : Q;
  cycle_start_balance : Q;
  current_balance : Q;
  current_cycle_pnl : Q;
  trade_count : Z;
  is_active : bool;
}.

(** [__init__]: the four settings, then the zero state with [is_active]. *)
Definition new_controller (budget target : Q) (start_day : Z) (ratio : Q)
    : WeeklyBudgetController := {|
  weekly_budget := budget; weekly_target := target;
  cycle_start_day := start_day; min_balance_ratio := ratio;
  cycle_start_balance := 0; current_balance := 0; current_cycle_pnl := 0;
  trade_count := 0; is_active := true |}.

Definition default_controller : WeeklyBudgetController :=
  new_controller 100 1000 0 (5 # 100).

(** The same settings with a new state. *)
Definition with_state (self : WeeklyBudgetController) (start bal pnl : Q) (count : Z)
    (active : bool) : WeeklyBudgetController := {|
  weekly_budget := weekly_budget self; weekly_target := weekly_target self;
  cycle_start_day := cycle_start_day self; min_balance_ratio := min_balance_ratio self;
  cycle_start_balance := start; current_balance := bal; current_cycle_pnl := pnl;
  trade_count := count; is_active := active |}.

Definition on_cycle_start (self : WeeklyBudgetController) (bal : Q) : WeeklyBudgetController :=
  with_state self bal bal 0 0 true.

Definition update_balance (self : WeeklyBudgetController) (bal : Q) : WeeklyBudgetController :=
  with_state self (cycle_start_balance self) bal (bal - cycle_start_balance self)
    (trade_count self + 1) (is_active self).

Definition get_stake_amount (self : WeeklyBudgetController) : Q := current_balance self.

Definition can_open_trade (self : WeeklyBudgetController) : bool := is_active self.

(** The [progress] property. *)
Definition progress (self : WeeklyBudgetController) : Q :=
  if Qle_bool (weekly_target self) 0 then 0 else current_balance self / weekly_target self.

Section WithFormat.
(** f-string formatting of a number with a format spec. *)
Variable fmt : string -> Q -> string.

(** [should_stop(current_balance)]; [now] is [datetime.utcnow()] as
    [(now.weekday(), now.hour)]. *)
Definition should_stop (self : WeeklyBudgetController) (bal : Q) (now : Z * Z)
    : WeeklyBudgetController * (bool * string) :=
  let pnl := bal - cycle_start_balance self in
  let self1 := with_state self (cycle_start_balance self) bal pnl
                 (trade_count self) (is_active self) in
  let stop (msg : string) :=
    (with_state self (cycle_start_balance self) bal pnl (trade_count self) false,
     (true, msg)) in
  if Qle_bool (weekly_target self) bal then
    stop ("TARGET_HIT: 余额 " ++ fmt ".2f" bal ++ " ≥ 目标 "
          ++ fmt ".2f" (weekly_target self) ++ ", 共"
          ++ fmt "" (inject_Z (trade_count self)) ++ "笔滚仓")
  else
    let min_threshold := cycle_start_balance self * min_balance_ratio self in
    if Qle_bool bal min_threshold then
      stop ("BUDGET_EXHAUSTED: 余额 " ++ fmt ".2f" bal ++ " ≤ 阈值 "
            ++ fmt ".2f" min_threshold)
    else if (fst now =? 6)%Z && (23 <=? snd now)%Z then
      stop ("WEEK_END_FORCE_CLOSE: 余额=" ++ fmt ".2f" bal ++ ", PnL=" ++ fmt "+.2f" pnl)
    else (self1, (false, "ACTIVE")).

(** The controller's public calls, as the strategy makes them. *)
Inductive Call :=
| OnCycleStart (bal : Q)
| UpdateBalance (bal : Q)
| ShouldStop (bal : Q) (now : Z * Z)
| GetStakeAmount
| CanOpenTrade
| Progress.

Definition step (self : WeeklyBudgetController) (c : Call) : WeeklyBudgetController :=
  match c with
  | OnCycleStart bal => on_cycle_start self bal
  | UpdateBalance bal => update_balance self bal
  | ShouldStop bal now => fst (should_stop self bal now)
  | GetStakeAmount | CanOpenTrade | Progress => self
  end.

(** The controller after a sequence of calls. *)
Definition run (self : WeeklyBudgetController) (calls : list Call) : WeeklyBudgetController :=
  fold_left step calls self.

End WithFormat.
End BudgetController.

(** ** [BacktestRunner._calc_weekly_metrics] (agent/backtest_runner.py) *)
Module WeeklyMetrics.
Import PyNum PyText.
Local Open Scope Q_scope.

(** A trade dict as [_calc_weekly_metrics] reads it: [close_date] is
    [trade.get("close_date", "")] ([""] also for a missing or null
    date); [profit_abs] is [trade.get("profit_abs", 0)], [None] standing
    for a value that is not a number (adding it raises [TypeError]). *)
Record Trade := {
  close_date : string;
  profit_abs : option Q;
}.

Record WeeklyStats := {
  weekly_target_hit_rate : Q;
  total_weeks : Z;
  target_hit_weeks : Z;
  monthly_net_profit_avg : Q;
  max_monthly_loss : Q;
}.

(** [s.replace("Z", "+00:00")] *)
Fixpoint replace_Z (s : string) : string :=
  match s with
  | EmptyString => EmptyString
  | String c rest =>
      if Ascii.eqb c "Z"%char then "+00:00" ++ replace_Z rest
      else String c (replace_Z rest)
  end.

Definition key_eqb (a b : Z * Z) : bool := (fst a =? fst b)%Z && (snd a =? snd b)%Z.

(** A [defaultdict(float)] keyed by pairs, in insertion order. *)
Definition ddict := list ((Z * Z) * Q).

(** [d[k]] on a [defaultdict]: inserts [k] with [0.0] when absent. *)
Definition dd_touch (d : ddict) (k : Z * Z) : ddict :=
  if existsb (fun kv => key_eqb k (fst kv)) d then d else (d ++ [(k, 0)])%list.

Fixpoint dd_add (d : ddict) (k : Z * Z) (q : Q) : ddict :=
  match d with
  | [] => []
  | (k', v) :: rest => if key_eqb k k' then (k', v + q) :: rest else (k', v) :: dd_add rest k q
  end.

Section Parse.
(** [datetime.fromisoformat(s).isocalendar()[:2]] and
    [datetime.strptime(s, "%Y-%m-%d %H:%M:%S").isocalendar()[:2]];
    [None] when the parse raises [ValueError]. *)
Variable iso_week_of_isoformat : string -> option (Z * Z).
Variable iso_week_of_strptime : string -> option (Z * Z).

(** The [(year, week)] key of a trade, [None] when it is skipped. *)
Definition week_key (t : Trade) : option (Z * Z) :=
  let s := close_date t in
  if String.eqb s "" then None
  else if has_char "T"%char s then iso_week_of_isoformat (replace_Z s)
  else iso_week_of_strptime s.

(** One iteration of the [for trade in trades] loop:
    [weekly_pnl[week_key] += profit] creates the key before the
    addition raises. *)
Definition add_trade (weekly_pnl : ddict) (t : Trade) : ddict :=
  match week_key t with
  | None => weekly_pnl
  | Some k =>
      let d := dd_touch weekly_pnl k in
      match profit_abs t with
      | None => d
      | Some p => dd_add d k p
      end
  end.

Definition weekly_target_value : Q := 1000.

Definition sumQ (l : list Q) : Q := fold_left Qplus l 0.

(** Python's [min] on a non-empty list. *)
Definition minQ (l : list Q) : Q :=
  match l with
  | [] => 0
  | x :: rest => fold_left (fun m y => if Qltb y m then y else m) rest x
  end.

Definition month_key (k : Z * Z) : Z * Z := (fst k, (snd k - 1) / 4 + 1)%Z.

Definition calc_weekly_metrics (trades : list Trade) : WeeklyStats :=
  let weekly_pnl := fold_left add_trade trades [] in
  match weekly_pnl with
  | [] => {| weekly_target_hit_rate := 0; total_weeks := 0; target_hit_weeks := 0;
             monthly_net_profit_avg := 0; max_monthly_loss := 0 |}
  | _ =>
      let total := Z.of_nat (length weekly_pnl) in
      let hits := Z.of_nat (length (List.filter
                    (fun kv => Qle_bool weekly_target_value (snd kv)) weekly_pnl)) in
      let rate := if (0 <? total)%Z then inject_Z hits / inject_Z total else 0 in
      let monthly_pnl :=
        fold_left (fun m kv => dd_add (dd_touch m (month_key (fst kv)))
                                      (month_key (fst kv)) (snd kv))
                  weekly_pnl [] in
      let monthly_values := map snd monthly_pnl in
      let monthly_avg :=
        match monthly_values with
        | [] => 0
        | _ => sumQ monthly_values / inject_Z (Z.of_nat (length monthly_values))
        end in
      let max_loss := match monthly_values with [] => 0 | _ => Qabs (minQ monthly_values) end in
      {| weekly_target_hit_rate := py_round rate 4; total_weeks := total;
         target_hit_weeks := hits; monthly_net_profit_avg := py_round monthly_avg 2;
         max_monthly_loss := py_round max_loss 2 |}
  end.

End Parse.
End WeeklyMetrics.

(** ** agent/factor_lab.py *)
Module FactorLab.
Import StrategyConfig.

(** A candidate dict. *)
Definition Candidate := list (string * json).

Section Dedup.
(** [hashlib.md5(raw.encode()).hexdigest()], [f"{family}"] and
    [json.dumps(params, sort_keys=True, ensure_ascii=False)]. *)
Variable md5_hex : string -> string.
Variable py_str : json -> string.
Variable json_dumps_sorted : json -> string.

Definition dedup_key (candidate : Candidate) : string :=
  let family := match dict_get candidate "factor_family" with
                | Some v => v | None => JStr "" end in
  let params := match dict_get candidate "params" with
                | Some v => v | None => JObj [] end in
  let params_str := json_dumps_sorted params in
  let raw := py_str family ++ ":" ++ params_str in
  md5_hex raw.

(** One iteration of the loop over [candidates], on [(seen, result)]. *)
Definition dedup_step (acc : gset string * list Candidate) (c : Candidate)
    : gset string * list Candidate :=
  let '(seen, result) := acc in
  let key := dedup_key c in
  if decide (key ∈ seen) then (seen, result)
  else ({[key]} ∪ seen, (result ++ [c])%list).

Definition deduplicate (candidates : list Candidate) : list Candidate :=
  snd (fold_left dedup_step candidates (∅, [])).

End Dedup.
End FactorLab.

(** * Proofs *)

Module PyStrFacts.
Import PyStr.

Lemma contains_app_r (n a b : string) :
  contains n b = true -> contains n (a ++ b) = true.
Proof.
  induction a as [|c a IH]; simpl; [done|].
  intros H. rewrite (IH H). apply orb_true_r.
Qed.

Lemma prefix_app (n b : string) : String.prefix n (n ++ b) = true.
Proof.
  induction n as [|c n IH]; simpl; [destruct b; reflexivity|].
  destruct (Ascii.ascii_dec c c); [exact IH|congruence].
Qed.

Lemma contains_app_l (n b : string) : contains n (n ++ b) = true.
Proof.
  destruct n as [|c n]; [destruct b; reflexivity|].
  pose proof (prefix_app (String c n) b) as H. simpl in *. rewrite H. reflexivity.
Qed.

Lemma contains_mid (n a b : string) : contains n (a ++ n ++ b) = true.
Proof. apply contains_app_r, contains_app_l. Qed.

Lemma append_empty_r (s : string) : s ++ "" = s.
Proof.
  induction s as [|c s IH]; [reflexivity|].
  change (String c (s ++ "") = String c s). by rewrite IH.
Qed.

Lemma contains_refl (n : string) : contains n n = true.
Proof. rewrite <- (append_empty_r n) at 2. apply contains_app_l. Qed.

Lemma prefix_app_l (n a b : string) :
  String.prefix n a = true -> String.prefix n (a ++ b) = true.
Proof.
  revert n. induction a as [|c a IH]; intros n H.
  - destruct n; [destruct b; reflexivity|discriminate].
  - destruct n as [|d n]; [destruct b; reflexivity|]. simpl in *.
    destruct (Ascii.ascii_dec d c); [by apply IH|discriminate].
Qed.

Lemma contains_prefix (n a b : string) :
  String.prefix n a = true -> contains n (a ++ b) = true.
Proof.
  intros H. pose proof (prefix_app_l _ _ b H) as H'. destruct a as [|c a].
  - destruct n; [|discriminate]. destruct b; reflexivity.
  - simpl in *. rewrite H'. reflexivity.
Qed.

(** Find [needle] among the pieces of a right-nested concatenation. *)
Ltac find_needle :=
  first [ apply contains_app_l
        | apply contains_refl
        | (apply contains_prefix; reflexivity)
        | (apply contains_app_r; find_needle) ].

End PyStrFacts.

Module PyNumFacts.
Import PyNum.
Local Open Scope Q_scope.

Lemma Qltb_iff (p q : Q) : Qltb p q = true <-> p < q.
Proof.
  unfold Qltb. rewrite negb_true_iff. split.
  - intros H. apply Qnot_le_lt. intros H'. apply Qle_bool_iff in H'. congruence.
  - intros H. destruct (Qle_bool q p) eqn:E; [|done].
    apply Qle_bool_iff in E. exfalso. apply (Qlt_not_le _ _ H E).
Qed.

Lemma Qle_bool_comp (p p' q q' : Q) :
  p == p' -> q == q' -> Qle_bool p q = Qle_bool p' q'.
Proof.
  intros Ep Eq. destruct (Qle_bool p q) eqn:E1, (Qle_bool p' q') eqn:E2; try done.
  - apply Qle_bool_iff in E1. rewrite Ep, Eq in E1.
    apply Qle_bool_iff in E1. congruence.
  - apply Qle_bool_iff in E2. rewrite <- Ep, <- Eq in E2.
    apply Qle_bool_iff in E2. congruence.
Qed.

Lemma Qltb_comp (p p' q q' : Q) : p == p' -> q == q' -> Qltb p q = Qltb p' q'.
Proof. intros. unfold Qltb. f_equal. by apply Qle_bool_comp. Qed.

Lemma round_half_even_comp (p q : Q) : p == q -> round_half_even p = round_half_even q.
Proof.
  intros E. unfold round_half_even.
  rewrite (Qfloor_comp p q E).
  assert (Er : p - inject_Z (Qfloor q) == q - inject_Z (Qfloor q)) by (rewrite E; reflexivity).
  rewrite (Qltb_comp _ _ (1#2) (1#2) Er (Qeq_refl _)).
  rewrite (Qltb_comp (1#2) (1#2) _ _ (Qeq_refl _) Er).
  reflexivity.
Qed.

Lemma py_round_comp (p q : Q) (n : nat) : p == q -> py_round p n = py_round q n.
Proof.
  intros E. unfold py_round. f_equal. apply round_half_even_comp.
  rewrite E. reflexivity.
Qed.

End PyNumFacts.

Module EvaluatorFacts.
Import PyNum PyNumFacts Evaluator.
Local Open Scope Q_scope.

Lemma Qltb_false_iff (p q : Q) : Qltb p q = false <-> q <= p.
Proof.
  split.
  - intros H. apply Qnot_lt_le. intros H'. apply Qltb_iff in H'. congruence.
  - intros H. destruct (Qltb p q) eqn:E; [|done].
    apply Qltb_iff in E. exfalso. exact (Qle_not_lt _ _ H E).
Qed.

Lemma Qle_bool_false_iff (p q : Q) : Qle_bool p q = false <-> q < p.
Proof.
  split.
  - intros H. apply Qnot_le_lt. intros H'. apply Qle_bool_iff in H'. congruence.
  - intros H. destruct (Qle_bool p q) eqn:E; [|done].
    apply Qle_bool_iff in E. exfalso. exact (Qlt_not_le _ _ H E).
Qed.

Lemma mget_insert_eq (m : metrics) k v d : mget (<[k := v]> m) k d = v.
Proof. unfold mget. by rewrite lookup_insert_eq. Qed.

Lemma mget_insert_ne (m : metrics) k k' v d :
  k <> k' -> mget (<[k := v]> m) k' d = mget m k' d.
Proof. intros H. unfold mget. by rewrite lookup_insert_ne. Qed.

(** The duration actually divided by: the fallback 24 when [<= 0]. *)
Definition effective_duration (m : metrics) : Q :=
  let d0 := mget m "avg_trade_duration_hours" 24 in
  if Qle_bool d0 0 then 24 else d0.

(** The composite score as the spec writes it, before rounding. *)
Definition spec_score (w : ScoreWeights) (m : metrics) : Q :=
  monthly_avg_profit_w w * mget m "monthly_net_profit_avg" 0
  + weekly_target_hit_rate_w w * (mget m "weekly_target_hit_rate" 0 * 100)
  - max_monthly_loss_w w * mget m "max_monthly_loss" 0
  + trade_efficiency_w w * (100 / effective_duration m).

Lemma evaluate_score_eq fmt self m :
  score (evaluate fmt self m) = py_round (spec_score (weights self) m) 2.
Proof.
  unfold evaluate, calculate_score, spec_score, effective_duration. simpl.
  apply py_round_comp. unfold Qdiv, Qminus. ring.
Qed.

Lemma spec_score_duration_nonpos w (m : metrics) (x : Q) :
  x <= 0 ->
  spec_score w (<[ "avg_trade_duration_hours" := x ]> m)
  = spec_score w (<[ "avg_trade_duration_hours" := 24 ]> m).
Proof.
  intros Hx. unfold spec_score, effective_duration.
  rewrite !mget_insert_eq, !(mget_insert_ne m "avg_trade_duration_hours") by done.
  assert (E1 : Qle_bool x 0 = true) by (by apply Qle_bool_iff).
  rewrite E1. reflexivity.
Qed.

(** C4 *)
(** Claim C4: [evaluate] returns as score [round(w1*monthly_avg_profit +
    w2*(weekly_hit_rate*100) - w3*max_loss + w4*(100/duration), 2)],
    where the duration is replaced by 24 when it is [<= 0]; durations 0
    and -5 give the score of duration 24; the breakdown keeps the four
    unrounded terms, by name. *)
Theorem evaluate_score_formula (fmt : string -> Q -> string) (self : Evaluator) (m : metrics) :
  let w := weights self in
  let d := effective_duration m in
  score (evaluate fmt self m) = py_round (spec_score w m) 2
  /\ (forall m0 : metrics,
        score (evaluate fmt self (<[ "avg_trade_duration_hours" := 0 ]> m0))
        = score (evaluate fmt self (<[ "avg_trade_duration_hours" := 24 ]> m0))
        /\ score (evaluate fmt self (<[ "avg_trade_duration_hours" := -5 ]> m0))
        = score (evaluate fmt self (<[ "avg_trade_duration_hours" := 24 ]> m0)))
  /\ map fst (score_breakdown (evaluate fmt self m))
     = ["monthly_profit_component"; "weekly_hit_rate_component";
        "max_loss_penalty"; "trade_efficiency_component"]
  /\ Forall2 Qeq (map snd (score_breakdown (evaluate fmt self m)))
       [monthly_avg_profit_w w * mget m "monthly_net_profit_avg" 0;
        weekly_target_hit_rate_w w * (mget m "weekly_target_hit_rate" 0 * 100);
        - (max_monthly_loss_w w * mget m "max_monthly_loss" 0);
        trade_efficiency_w w * (100 / d)].
Proof.
  intros w d. split; [apply evaluate_score_eq|]. split; [|split].
  - intros m0. rewrite !evaluate_score_eq.
    rewrite (spec_score_duration_nonpos _ _ 0), (spec_score_duration_nonpos _ _ (-5))
      by (unfold Qle; simpl; lia).
    done.
  - reflexivity.
  - unfold evaluate, calculate_score, d, effective_duration, w. simpl.
    repeat constructor; unfold Qdiv; ring.
Qed.

(** Every threshold of the [PassCriteria] is met; the
    average-monthly-profit gate is strict. *)
Definition meets_all_criteria (c : PassCriteria) (m : metrics) : Prop :=
  weekly_target_hit_rate_min c <= mget m "weekly_target_hit_rate" 0
  /\ mget m "max_drawdown_pct" 0 <= max_drawdown_pct_max c
  /\ total_trades_min c <= mget m "total_trades" 0
  /\ mget m "stake_limit_hit_count" 0 <= stake_limit_hit_count_max c
  /\ monthly_net_profit_avg_min c < mget m "monthly_net_profit_avg" 0.

Lemma cond_list_nil (b : bool) (x : string) : (if b then [x] else []) = [] <-> b = false.
Proof. destruct b; split; done. Qed.

Lemma gate_check_nil_iff fmt self m :
  gate_check fmt self m = [] <-> meets_all_criteria (criteria self) m.
Proof.
  unfold gate_check, meets_all_criteria.
  rewrite !app_nil, !cond_list_nil, !Qltb_false_iff, Qle_bool_false_iff.
  tauto.
Qed.

(** C5 *)
(** Claim C5: [evaluate(m).passed] is true iff [gate_failures] is empty,
    and [gate_failures] is empty iff the metrics meet every threshold
    (the average-monthly-profit gate strict): so metrics meeting every
    threshold pass with no gate failure. *)
Theorem evaluate_passed_iff_no_failures (fmt : string -> Q -> string) (self : Evaluator)
    (m : metrics) :
  (passed (evaluate fmt self m) = true <-> gate_failures (evaluate fmt self m) = [])
  /\ (gate_failures (evaluate fmt self m) = [] <-> meets_all_criteria (criteria self) m).
Proof.
  unfold evaluate. simpl. split.
  - destruct (gate_check fmt self m); simpl; split; done.
  - apply gate_check_nil_iff.
Qed.

Lemma cmp_overfit_msg (fmt : string -> Q -> string) self is_r oos_r ratio :
  let msg := "OVERFITTING: OOS/IS ratio = " ++ fmt ".2f" ratio
                ++ " < " ++ fmt "" (oos_score_ratio_min self) ++ " threshold. "
                ++ "IS score=" ++ fmt ".2f" (score is_r)
                ++ ", OOS score=" ++ fmt ".2f" (score oos_r) in
  PyStr.contains "OVERFITTING" msg && PyStr.contains (fmt ".2f" ratio) msg
  && PyStr.contains (fmt "" (oos_score_ratio_min self)) msg
  && PyStr.contains (fmt ".2f" (score is_r)) msg
  && PyStr.contains (fmt ".2f" (score oos_r)) msg = true.
Proof.
  intros msg. subst msg. rewrite !andb_true_iff. repeat split; PyStrFacts.find_needle.
Qed.

Lemma cmp_passed_msg (fmt : string -> Q -> string) self ratio :
  let msg := "Walk-forward PASSED: OOS/IS ratio = " ++ fmt ".2f" ratio
               ++ " (threshold: " ++ fmt "" (oos_score_ratio_min self) ++ ")" in
  PyStr.contains "PASSED" msg && PyStr.contains (fmt ".2f" ratio) msg
  && PyStr.contains (fmt "" (oos_score_ratio_min self)) msg = true.
Proof.
  intros msg. subst msg. rewrite !andb_true_iff. repeat split; PyStrFacts.find_needle.
Qed.

(** C6 *)
(** Claim C6 (amended): [compare_is_oos] returns
    [(False, "IS score is 0, cannot evaluate")] when the in-sample score
    is 0; otherwise the ratio is [oos.score / is.score] for a positive
    in-sample score and 0 for a negative one, the result is invalid iff
    the ratio is below the threshold, the failure message contains
    "OVERFITTING", the ratio, the threshold and both scores, and the
    success message contains "PASSED", the ratio and the threshold. *)
Theorem compare_is_oos_amended (fmt : string -> Q -> string) (self : Evaluator)
    (is_r oos_r : EvalResult) (valid : bool) (msg : string)
    (H : compare_is_oos fmt self is_r oos_r = (valid, msg)) :
  ((score is_r == 0) /\ valid = false /\ msg = "IS score is 0, cannot evaluate"
   /\ PyStr.contains "0" msg && PyStr.contains "cannot evaluate" msg = true)
  \/ (~ (score is_r == 0) /\
      exists ratio : Q,
        ((0 < score is_r /\ ratio = score oos_r / score is_r)
         \/ (score is_r < 0 /\ ratio = 0))
        /\ (valid = false <-> ratio < oos_score_ratio_min self)
        /\ (if valid then
              PyStr.contains "PASSED" msg && PyStr.contains (fmt ".2f" ratio) msg
              && PyStr.contains (fmt "" (oos_score_ratio_min self)) msg
            else
              PyStr.contains "OVERFITTING" msg && PyStr.contains (fmt ".2f" ratio) msg
              && PyStr.contains (fmt "" (oos_score_ratio_min self)) msg
              && PyStr.contains (fmt ".2f" (score is_r)) msg
              && PyStr.contains (fmt ".2f" (score oos_r)) msg) = true).
Proof.
  unfold compare_is_oos in H.
  destruct (Qeq_bool (score is_r) 0) eqn:E0.
  - left. apply Qeq_bool_iff in E0. injection H as <- <-. auto.
  - right. split.
    { intros E. apply Qeq_bool_iff in E. congruence. }
    set (ratio := if Qltb 0 (score is_r) then score oos_r / score is_r else 0) in H.
    exists ratio. split.
    { subst ratio. destruct (Qltb 0 (score is_r)) eqn:E1.
      - left. split; [by apply Qltb_iff|done].
      - right. split; [|done]. apply Qltb_false_iff in E1.
        apply Qle_lteq in E1 as [E1|E1]; [done|].
        exfalso. rewrite E1 in E0. discriminate. }
    destruct (Qltb ratio (oos_score_ratio_min self)) eqn:E2;
      injection H as <- <-.
    + split; [split; [intros _; by apply Qltb_iff|done]|].
      apply cmp_overfit_msg.
    + split.
      * split; [discriminate|]. intros Hlt. apply Qltb_iff in Hlt. congruence.
      * apply cmp_passed_msg.
Qed.

Lemma compare_is_oos_amended_witness :
  let v := compare_is_oos (fun sp _ => sp) default_evaluator
             (result_with_score 100) (result_with_score 69) in
  v = (true, snd v) /\
  (((score (result_with_score 100) == 0) /\ true = false
    /\ snd v = "IS score is 0, cannot evaluate"
    /\ PyStr.contains "0" (snd v) && PyStr.contains "cannot evaluate" (snd v) = true)
   \/ (~ (score (result_with_score 100) == 0) /\
       exists ratio : Q,
         ((0 < score (result_with_score 100)
           /\ ratio = score (result_with_score 69) / score (result_with_score 100))
          \/ (score (result_with_score 100) < 0 /\ ratio = 0))
         /\ (true = false <-> ratio < oos_score_ratio_min default_evaluator)
         /\ (PyStr.contains "PASSED" (snd v) && PyStr.contains ".2f" (snd v)
             && PyStr.contains "" (snd v)) = true)).
Proof.
  intros v. split; [vm_compute; reflexivity|].
  exact (compare_is_oos_amended (fun sp _ => sp) default_evaluator
           (result_with_score 100) (result_with_score 69) true (snd v)
           ltac:(vm_compute; reflexivity)).
Defined.

(** C6 counterexample: with a negative in-sample score the ratio is not
    [oos.score / is.score]: is = oos = -100 gives ratio 1 >= 0.6, yet
    the comparison fails. *)
Lemma compare_is_oos_negative_is_counterexample :
  fst (compare_is_oos (fun _ _ => "") default_evaluator
         (result_with_score (-100)) (result_with_score (-100))) = false
  /\ ~ (score (result_with_score (-100)) / score (result_with_score (-100))
        < oos_score_ratio_min default_evaluator).
Proof.
  split; [vm_compute; reflexivity|].
  unfold Qlt. simpl. lia.
Qed.

End EvaluatorFacts.

Module WeeklySettlementFacts.
Import PyNum PyNumFacts EvaluatorFacts WeeklySettlement.
Local Open Scope Q_scope.

Lemma settle_week_history self wid pnl :
  history (fst (settle_week self wid pnl)) = (history self ++ [snd (settle_week self wid pnl)])%list.
Proof. reflexivity. Qed.

(** C7 *)
(** Claim C7: the status of a settled week is decided in priority order:
    TARGET_HIT when [pnl >= target], else BUDGET_EXHAUSTED when
    [pnl <= -budget], else WEEK_END_SETTLED; the next-week action is
    "reset_budget_100" whenever no cooldown triggers; and the status does
    not depend on the earlier weeks (no carry-over). *)
Theorem settle_week_status_priority (self : Manager) (wid : string) (pnl : Q) :
  let r := snd (settle_week self wid pnl) in
  ((weekly_target self <= pnl /\ status r = "TARGET_HIT")
   \/ (pnl < weekly_target self /\ pnl <= - weekly_budget self
       /\ status r = "BUDGET_EXHAUSTED")
   \/ (pnl < weekly_target self /\ - weekly_budget self < pnl
       /\ status r = "WEEK_END_SETTLED"))
  /\ action_next_week r
     = (if cooldown_triggered r then "cooldown_dryrun" else "reset_budget_100")
  /\ (forall h : list Report,
        status (snd (settle_week (with_history self h) wid pnl)) = status r).
Proof.
  intros r. subst r. unfold settle_week. simpl.
  split; [|split].
  - destruct (Qle_bool (weekly_target self) pnl) eqn:E1.
    + left. split; [by apply Qle_bool_iff|]. by destruct check_cooldown.
    + apply Qle_bool_false_iff in E1. right.
      destruct (Qle_bool pnl (- weekly_budget self)) eqn:E2.
      * left. apply Qle_bool_iff in E2. by destruct check_cooldown.
      * right. apply Qle_bool_false_iff in E2. by destruct check_cooldown.
  - by destruct check_cooldown.
  - intros h. by do 2 destruct check_cooldown.
Qed.

(** The last [n] entries of a list. *)
Definition lastn {A} (n : nat) (l : list A) : list A := drop (length l - n) l.

Lemma check_cooldown_spec (self : Manager) :
  (1 <= cooldown_threshold self)%Z ->
  check_cooldown self = true <->
  (Z.to_nat (cooldown_threshold self) <= length (history self))%nat
  /\ Forall (fun x => status x <> "TARGET_HIT" /\ weekly_pnl x < 0)
       (lastn (Z.to_nat (cooldown_threshold self)) (history self)).
Proof.
  intros Hn. unfold check_cooldown, lastn, py_slice_from.
  set (n := cooldown_threshold self) in *.
  set (h := history self).
  destruct (Z.of_nat (length h) <? n)%Z eqn:E1.
  - apply Z.ltb_lt in E1. split; [discriminate|]. intros [H _]. lia.
  - apply Z.ltb_ge in E1.
    destruct (0 <=? - n)%Z eqn:E2; [apply Z.leb_le in E2; lia|].
    replace (Z.to_nat (Z.max 0 (Z.of_nat (length h) + - n))) with (length h - Z.to_nat n)%nat
      by lia.
    rewrite andb_true_iff, !forallb_forall, Forall_forall.
    split.
    + intros [H1 H2]. split; [lia|]. intros x Hx. split.
      * apply list_elem_of_In, H1 in Hx. apply negb_true_iff in Hx.
        intros Hs. rewrite Hs in Hx. discriminate.
      * apply Qltb_iff, H2, list_elem_of_In, Hx.
    + intros [_ H]. split; intros x Hx; apply list_elem_of_In in Hx;
        destruct (H x Hx) as [Hs Hp].
      * apply negb_true_iff. destruct (String.eqb_spec (status x) "TARGET_HIT"); done.
      * by apply Qltb_iff.
Qed.

(** C8 *)
(** Claim C8 (amended, for a cooldown threshold N >= 1): settling a week
    triggers the cooldown (and sets the action to "cooldown_dryrun") iff
    the history including that week has at least N entries and its N most
    recent entries all have status other than TARGET_HIT and strictly
    negative PnL. *)
Theorem settle_week_cooldown_iff (self : Manager) (wid : string) (pnl : Q)
    (Hn : (1 <= cooldown_threshold self)%Z) :
  let '(self', r) := settle_week self wid pnl in
  let N := Z.to_nat (cooldown_threshold self) in
  (cooldown_triggered r = true <->
     (N <= length (history self'))%nat
     /\ Forall (fun x => status x <> "TARGET_HIT" /\ weekly_pnl x < 0)
          (lastn N (history self')))
  /\ (cooldown_triggered r = true <-> action_next_week r = "cooldown_dryrun").
Proof.
  unfold settle_week. simpl.
  set (st := if Qle_bool (weekly_target self) pnl then "TARGET_HIT"
             else if Qle_bool pnl (- weekly_budget self) then "BUDGET_EXHAUSTED"
             else "WEEK_END_SETTLED").
  set (r0 := {| week_id := wid; status := st; weekly_pnl := pnl;
                reached_target := Qle_bool (weekly_target self) pnl;
                exhausted_budget := Qle_bool pnl (- weekly_budget self);
                action_next_week := "reset_budget_100";
                cooldown_triggered := false |}).
  pose proof (check_cooldown_spec (with_history self (history self ++ [r0])%list) Hn)
    as Hc.
  simpl in Hc.
  destruct (check_cooldown (with_history self (history self ++ [r0])%list)) eqn:E;
    simpl.
  - split; [|done]. split; [intros _|done].
    destruct Hc as [Hc _]. destruct (Hc eq_refl) as [Hl Hf].
    rewrite length_app in *. simpl in *. split; [done|].
    unfold lastn in *. rewrite length_app in *. simpl in *.
    replace (length (history self) + 1 - Z.to_nat (cooldown_threshold self))%nat
      with (length (history self) - (Z.to_nat (cooldown_threshold self) - 1))%nat in * by lia.
    rewrite !drop_app_le in * by lia.
    apply Forall_app in Hf as [Hf1 Hf2]. apply Forall_app. split; [done|].
    inversion Hf2; subst. constructor; [done|constructor].
  - split; [|split; discriminate]. split; [discriminate|].
    intros [Hl Hf]. assert (false = true); [|discriminate]. apply Hc.
    rewrite length_app in *. simpl in *. split; [done|].
    unfold lastn in *. rewrite length_app in *. simpl in *.
    replace (length (history self) + 1 - Z.to_nat (cooldown_threshold self))%nat
      with (length (history self) - (Z.to_nat (cooldown_threshold self) - 1))%nat in * by lia.
    rewrite !drop_app_le in * by lia.
    apply Forall_app in Hf as [Hf1 Hf2]. apply Forall_app. split; [done|].
    inversion Hf2; subst. constructor; [done|constructor].
Qed.

Lemma settle_week_cooldown_iff_witness :
  (1 <= cooldown_threshold default_manager)%Z /\
  let '(self', r) := settle_week default_manager "2026-W01" (-50) in
  let N := Z.to_nat (cooldown_threshold default_manager) in
  (cooldown_triggered r = true <->
     (N <= length (history self'))%nat
     /\ Forall (fun x => status x <> "TARGET_HIT" /\ weekly_pnl x < 0)
          (lastn N (history self')))
  /\ (cooldown_triggered r = true <-> action_next_week r = "cooldown_dryrun").
Proof.
  split; [vm_compute; discriminate|].
  exact (settle_week_cooldown_iff default_manager "2026-W01" (-50)
           ltac:(vm_compute; discriminate)).
Defined.

(** Three losing weeks in a row trigger the cooldown on the third; a
    profitable week in between resets the streak. *)
Example cooldown_on_third_losing_week :
  map cooldown_triggered
    (snd (settle_weeks default_manager
            [("w1", -10); ("w2", -20); ("w3", -30); ("w4", 5); ("w5", -1)]))
  = [false; false; true; false; false].
Proof. vm_compute. reflexivity. Qed.

(** C8 counterexample: with threshold N = 0 the slice [history[-0:]] is
    the whole history, so a TARGET_HIT week does not trigger although the
    N = 0 most recent weeks vacuously satisfy the condition. *)
Lemma cooldown_threshold_zero_counterexample :
  let '(self', r) := settle_week (new_manager 100 1000 0) "w1" 1200 in
  cooldown_triggered r = false
  /\ (Z.to_nat 0 <= length (history self'))%nat
  /\ Forall (fun x => status x <> "TARGET_HIT" /\ weekly_pnl x < 0)
       (lastn (Z.to_nat 0) (history self')).
Proof.
  vm_compute. split; [reflexivity|]. split; [lia|]. constructor.
Qed.

End WeeklySettlementFacts.

Module OrchestratorFacts.
Import PyNum PyNumFacts EvaluatorFacts Orchestrator.
Local Open Scope Q_scope.

Section Scenario.
Variable fmt : string -> Q -> string.
Variable run_walk_forward : nat -> bool * string.
Variable enable_walk_forward : bool.
(** Walk-forward validation is off or always passes. *)
Hypothesis Hwf : enable_walk_forward = false \/ forall n, fst (run_walk_forward n) = true.
Variable run : nat -> list RoundRecord -> RoundRecord.
Hypothesis Hsucc : forall n prev, status (run n prev) = "success".

Lemma loop_step fuel n rounds :
  loop fmt run run_walk_forward enable_walk_forward 3 (S fuel) n rounds
  = let rounds' := (rounds ++ [run n rounds])%list in
    let '(should_stop, reason) := check_termination fmt 3 rounds' in
    if should_stop then set_last_action rounds' ("STOP: " ++ reason)
    else loop fmt run run_walk_forward enable_walk_forward 3 fuel (S n) rounds'.
Proof.
  simpl. unfold is_success. rewrite Hsucc. simpl.
  destruct enable_walk_forward eqn:E; [|reflexivity].
  destruct Hwf as [H|H]; [discriminate|].
  specialize (H n). destruct (run_walk_forward n) as [ok msg]. simpl in H.
  subst ok. reflexivity.
Qed.

Lemma filter_all_success (rounds : list RoundRecord) :
  Forall (fun r => status r = "success") rounds ->
  List.filter is_success rounds = rounds.
Proof.
  induction 1 as [|r rs Hr _ IH]; [done|]. simpl. unfold is_success at 1.
  rewrite Hr. simpl. by rewrite IH.
Qed.

Lemma all_success_app (rounds : list RoundRecord) n :
  Forall (fun r => status r = "success") rounds ->
  Forall (fun r => status r = "success") (rounds ++ [run n rounds])%list.
Proof. intros H. apply Forall_app. split; [done|]. constructor; [apply Hsucc|done]. Qed.

End Scenario.

(** Strictly increasing scores. *)
Fixpoint strictly_increasing (l : list Q) : Prop :=
  match l with
  | x :: ((y :: _) as rest) => x < y /\ strictly_increasing rest
  | _ => True
  end.

Lemma strictly_increasing_cons x l :
  strictly_increasing (x :: l) -> strictly_increasing l.
Proof. destruct l; simpl; tauto. Qed.

Lemma strictly_increasing_drop k l :
  strictly_increasing l -> strictly_increasing (drop k l).
Proof.
  revert l. induction k as [|k IH]; intros l H; [done|].
  destruct l as [|x l]; [done|]. simpl. apply IH.
  by apply strictly_increasing_cons in H.
Qed.

Lemma non_increasing_strict l :
  strictly_increasing l -> (2 <= length l)%nat -> non_increasing l = false.
Proof.
  destruct l as [|x [|y l]]; simpl; intros H Hl; try lia.
  destruct H as [Hxy _].
  assert (E : Qle_bool y x = false) by (by apply Qle_bool_false_iff).
  by rewrite E.
Qed.

Lemma strictly_increasing_map_seq (f : nat -> Q) a k :
  (forall n, f n < f (S n)) -> strictly_increasing (map f (seq a k)).
Proof.
  intros Hf. revert a. induction k as [|k IH]; intros a; [done|].
  simpl. destruct k as [|k]; [done|]. simpl in *. split; [apply Hf|].
  apply (IH (S a)).
Qed.

Lemma map_drop {A B} (g : A -> B) k (l : list A) : map g (drop k l) = drop k (map g l).
Proof.
  revert l. induction k as [|k IH]; intros l; [done|]. destruct l; simpl; [done|]. apply IH.
Qed.

Lemma check_termination_cons fmt lim r rs :
  check_termination fmt lim (r :: rs)
  = let successful := List.filter is_success (r :: rs) in
    if (lim <=? Z.of_nat (length successful))%Z then
      let tail := py_slice_from successful (- lim) in
      let scores := map score tail in
      if non_increasing scores then
        (true, "No improvement in last " ++ fmt "" (inject_Z lim)
               ++ " successful rounds (scores: ["
               ++ py_join ", " (map (fmt "") scores) ++ "])")
      else (false, "")
    else (false, "").
Proof. reflexivity. Qed.

Lemma check_termination_increasing fmt (rs : list RoundRecord) :
  Forall (fun r => status r = "success") rs ->
  strictly_increasing (map score rs) ->
  check_termination fmt 3 rs = (false, "").
Proof.
  intros Hs Hi. destruct rs as [|r rs']; [reflexivity|].
  rewrite check_termination_cons. cbv zeta. rewrite (filter_all_success _ Hs).
  destruct (3 <=? Z.of_nat (length (r :: rs')))%Z eqn:E; [|reflexivity].
  apply Z.leb_le in E. unfold py_slice_from.
  assert (E0 : (0 <=? - (3))%Z = false) by reflexivity. rewrite E0.
  rewrite map_drop, non_increasing_strict; [reflexivity| |].
  - by apply strictly_increasing_drop.
  - rewrite length_drop, length_map. lia.
Qed.

Lemma loop_increasing fmt wf en (Hwf : en = false \/ forall n, fst (wf n) = true)
    run (Hsucc : forall n prev, status (run n prev) = "success")
    (f : nat -> Q) (Hsc : forall n prev, score (run n prev) = f n)
    (Hf : forall n, f n < f (S n)) :
  forall fuel n rounds,
    Forall (fun r => status r = "success") rounds ->
    map score rounds = map f (seq 1 (n - 1)) ->
    (1 <= n)%nat ->
    loop fmt run wf en 3 fuel n rounds = run_every_round run fuel n rounds.
Proof.
  induction fuel as [|fuel IH]; intros n rounds Hs Hm Hn; [reflexivity|].
  rewrite (loop_step fmt wf en Hwf run Hsucc). cbv zeta.
  assert (Hm' : map score (rounds ++ [run n rounds])%list = map f (seq 1 n)).
  { destruct n as [|n']; [lia|]. rewrite map_app, Hm.
    replace (S n' - 1)%nat with n' by lia. rewrite seq_S, map_app.
    simpl. rewrite Hsc. reflexivity. }
  rewrite (check_termination_increasing fmt).
  - simpl. apply IH; [by apply all_success_app| |lia].
    rewrite Hm'. do 2 f_equal. lia.
  - by apply all_success_app.
  - rewrite Hm'. by apply strictly_increasing_map_seq.
Qed.

Lemma set_last_action_snoc (l : list RoundRecord) x a :
  set_last_action (l ++ [x])%list a = (l ++ [set_next_action x a])%list.
Proof.
  unfold set_last_action. destruct (l ++ [x])%list eqn:E.
  - destruct l; discriminate.
  - rewrite <- E, removelast_last, last_last. reflexivity.
Qed.

Lemma check_termination_short fmt (rs : list RoundRecord) :
  Forall (fun r => status r = "success") rs -> (length rs < 3)%nat ->
  check_termination fmt 3 rs = (false, "").
Proof.
  intros Hs Hl. destruct rs as [|r rs']; [reflexivity|].
  rewrite check_termination_cons. cbv zeta. rewrite (filter_all_success _ Hs).
  destruct (3 <=? Z.of_nat (length (r :: rs')))%Z eqn:E; [|reflexivity].
  apply Z.leb_le in E. lia.
Qed.

Lemma non_increasing_const (c : Q) (l : list Q) :
  Forall (fun x => x = c) l -> non_increasing l = true.
Proof.
  induction 1 as [|x l Hx Hl IH]; [done|]. destruct l as [|y l]; [done|].
  simpl in *. inversion Hl; subst. rewrite IH.
  assert (E : Qle_bool c c = true) by (apply Qle_bool_iff, Qle_refl). by rewrite E.
Qed.

Lemma check_termination_const fmt (c : Q) (rs : list RoundRecord) :
  Forall (fun r => status r = "success" /\ score r = c) rs -> length rs = 3%nat ->
  exists reason, check_termination fmt 3 rs = (true, reason).
Proof.
  intros Hs Hl. destruct rs as [|r rs']; [discriminate|].
  rewrite check_termination_cons. cbv zeta.
  rewrite (filter_all_success (r :: rs')) by (eapply Forall_impl; [exact Hs|]; by intros ? []).
  rewrite Hl. simpl (3 <=? Z.of_nat 3)%Z. cbv iota. unfold py_slice_from.
  assert (E0 : (0 <=? - (3))%Z = false) by reflexivity. rewrite E0.
  rewrite (non_increasing_const c); [eexists; reflexivity|].
  apply Forall_map, Forall_drop. eapply Forall_impl; [exact Hs|]. by intros ? [].
Qed.

Lemma loop_constant fmt wf en (Hwf : en = false \/ forall n, fst (wf n) = true)
    run (c : Q) (Hrun : forall n prev, status (run n prev) = "success" /\ score (run n prev) = c)
    (fuel : nat) :
  let rs := loop fmt run wf en 3 (S (S (S fuel))) 1 [] in
  length rs = 3%nat
  /\ PyStr.contains "STOP" (next_action (List.last rs (Build_RoundRecord 0 "" 0 ""))) = true.
Proof.
  assert (Hsucc : forall n prev, status (run n prev) = "success") by apply Hrun.
  assert (Hall : forall l, Forall (fun r => status r = "success") l ->
                 forall n, Forall (fun r => status r = "success") (l ++ [run n l])%list)
    by (intros; by apply all_success_app).
  intros rs. subst rs.
  rewrite (loop_step fmt wf en Hwf run Hsucc). cbv zeta.
  rewrite (check_termination_short fmt) by (auto; simpl; lia). cbv iota.
  rewrite (loop_step fmt wf en Hwf run Hsucc). cbv zeta.
  rewrite (check_termination_short fmt) by (auto; rewrite length_app; simpl; lia). cbv iota.
  rewrite (loop_step fmt wf en Hwf run Hsucc). cbv zeta.
  match goal with
  | |- context [check_termination fmt 3 ?X] =>
      destruct (check_termination_const fmt c X) as [reason Hr]
  end.
  - repeat (apply Forall_app; split); repeat constructor; apply Hrun.
  - reflexivity.
  - rewrite Hr. rewrite set_last_action_snoc. split.
    + reflexivity.
    + rewrite last_last. simpl. reflexivity.
Qed.

(** C3 *)
(** Claim C3 (amended): with [stale_rounds_limit = 3], when every round
    succeeds (walk-forward off or passing): with a constant score and
    [max_rounds >= 3] the loop stops after exactly 3 rounds and the last
    round's [next_action] contains "STOP"; with strictly increasing scores
    the loop runs every round up to [max_rounds], as without any
    termination check. *)
Theorem run_iteration_loop_stale_limit_3 (fmt : string -> Q -> string)
    (wf : nat -> bool * string) (en : bool)
    (Hwf : en = false \/ forall n, fst (wf n) = true) :
  (forall (run : nat -> list RoundRecord -> RoundRecord) (c : Q) (cap : Z),
     (forall n prev, status (run n prev) = "success" /\ score (run n prev) = c) ->
     (3 <= cap)%Z ->
     let rs := run_iteration_loop fmt run wf en 3 cap in
     length rs = 3%nat
     /\ PyStr.contains "STOP" (next_action (List.last rs (Build_RoundRecord 0 "" 0 ""))) = true)
  /\ (forall (run : nat -> list RoundRecord -> RoundRecord) (f : nat -> Q) (cap : Z),
     (forall n prev, status (run n prev) = "success" /\ score (run n prev) = f n) ->
     (forall n, f n < f (S n)) ->
     let rs := run_iteration_loop fmt run wf en 3 cap in
     rs = run_every_round run (Z.to_nat cap) 1 []
     /\ length rs = Z.to_nat cap).
Proof.
  split.
  - intros run c cap Hrun Hcap. unfold run_iteration_loop.
    replace (Z.to_nat cap) with (S (S (S (Z.to_nat cap - 3)))) by lia.
    exact (loop_constant fmt wf en Hwf run c Hrun (Z.to_nat cap - 3)).
  - intros run f cap Hrun Hf. unfold run_iteration_loop.
    assert (E : loop fmt run wf en 3 (Z.to_nat cap) 1 [] = run_every_round run (Z.to_nat cap) 1 []).
    { apply (loop_increasing fmt wf en Hwf run (fun n p => proj1 (Hrun n p)) f
               (fun n p => proj2 (Hrun n p)) Hf); [constructor|reflexivity|lia]. }
    rewrite E. split; [reflexivity|].
    assert (Hlen : forall fuel n rounds,
               length (run_every_round run fuel n rounds) = (length rounds + fuel)%nat).
    { induction fuel as [|fuel IH]; intros n rounds; simpl; [lia|].
      rewrite IH, length_app. simpl. lia. }
    rewrite Hlen. reflexivity.
Qed.

Lemma run_iteration_loop_stale_limit_3_witness :
  (false = false \/ forall n, fst ((fun _ : nat => (true, "")) n) = true) /\
  ((forall (run : nat -> list RoundRecord -> RoundRecord) (c : Q) (cap : Z),
     (forall n prev, status (run n prev) = "success" /\ score (run n prev) = c) ->
     (3 <= cap)%Z ->
     let rs := run_iteration_loop (fun sp _ => sp) run (fun _ => (true, "")) false 3 cap in
     length rs = 3%nat
     /\ PyStr.contains "STOP" (next_action (List.last rs (Build_RoundRecord 0 "" 0 ""))) = true)
  /\ (forall (run : nat -> list RoundRecord -> RoundRecord) (f : nat -> Q) (cap : Z),
     (forall n prev, status (run n prev) = "success" /\ score (run n prev) = f n) ->
     (forall n, f n < f (S n)) ->
     let rs := run_iteration_loop (fun sp _ => sp) run (fun _ => (true, "")) false 3 cap in
     rs = run_every_round run (Z.to_nat cap) 1 []
     /\ length rs = Z.to_nat cap)).
Proof.
  split; [left; reflexivity|].
  exact (run_iteration_loop_stale_limit_3 (fun sp _ => sp) (fun _ => (true, "")) false
           (or_introl eq_refl)).
Defined.

(** Both scenarios on concrete rounds, 10 rounds allowed. *)
Example constant_scores_stop_at_3 :
  map next_action (run_iteration_loop (fun _ _ => "")
    (fun n _ => Build_RoundRecord n "success" 5 "continue") (fun _ => (true, "")) false 3 10)
  = ["continue"; "continue"; "STOP: No improvement in last  successful rounds (scores: [, , ])"].
Proof. vm_compute. reflexivity. Qed.

Example increasing_scores_run_10 :
  length (run_iteration_loop (fun _ _ => "")
    (fun n _ => Build_RoundRecord n "success" (inject_Z (Z.of_nat n)) "continue")
    (fun _ => (true, "")) false 3 10) = 10%nat.
Proof. vm_compute. reflexivity. Qed.

(** C3 counterexample: with [max_rounds = 2] and constant scores the loop
    runs 2 rounds and never writes "STOP". *)
Lemma constant_scores_cap_2_counterexample :
  let rs := run_iteration_loop (fun sp _ => sp)
              (fun n _ => Build_RoundRecord n "success" 5 "continue")
              (fun _ => (true, "")) false 3 2 in
  length rs = 2%nat
  /\ PyStr.contains "STOP" (next_action (List.last rs (Build_RoundRecord 0 "" 0 ""))) = false.
Proof. vm_compute. split; reflexivity. Qed.

End OrchestratorFacts.

Module TargetOptimizerFacts.
Import TargetOptimizer.
Local Open Scope R_scope.

Lemma Int_part_spec (x : R) (z : Z) : IZR z <= x < IZR z + 1 -> Int_part x = z.
Proof.
  intros [H1 H2]. unfold Int_part.
  assert (E : (z + 1)%Z = up x).
  { apply tech_up; rewrite plus_IZR; simpl; lra. }
  lia.
Qed.

Lemma Int_part_nonneg (x : R) : 0 <= x -> (0 <= Int_part x)%Z.
Proof.
  intros Hx. unfold Int_part. destruct (archimed x) as [H1 _].
  assert (0 < up x)%Z by (apply lt_IZR; simpl; lra). lia.
Qed.

Lemma round_half_even_nonneg (x : R) : 0 <= x -> (0 <= round_half_even x)%Z.
Proof.
  intros Hx. pose proof (Int_part_nonneg x Hx). unfold round_half_even; cbv zeta.
  repeat destruct Rlt_dec; destruct (Z.even (Int_part x)); lia.
Qed.

Lemma pow10_pos (n : nat) : 0 < 10 ^ n.
Proof. apply pow_lt. lra. Qed.

Lemma py_round_nonneg (x : R) (n : nat) : 0 <= x -> 0 <= py_round x n.
Proof.
  intros Hx. unfold py_round. pose proof (pow10_pos n).
  apply Rmult_le_pos; [|left; apply Rinv_0_lt_compat; lra].
  apply IZR_le, round_half_even_nonneg, Rmult_le_pos; lra.
Qed.

Lemma py_round_0 (n : nat) : py_round 0 n = 0.
Proof.
  unfold py_round, round_half_even. rewrite Rmult_0_l.
  rewrite (Int_part_spec 0 0) by (simpl; lra). cbv zeta.
  destruct Rlt_dec as [_|C]; [|exfalso; apply C; simpl; lra].
  unfold Rdiv. simpl. lra.
Qed.

Lemma dget_nodup (d : dict) k t dflt :
  NoDup d.*1 -> In (k, t) d -> dget d k dflt = t.
Proof.
  induction d as [|[k' v] d IH]; simpl; [done|]. intros Hnd Hin.
  apply NoDup_cons in Hnd as [Hk Hnd].
  destruct Hin as [E|Hin].
  - injection E as -> ->. by rewrite String.eqb_refl.
  - destruct (String.eqb_spec k k') as [->|]; [|by apply IH].
    exfalso. apply Hk. apply list_elem_of_fmap. exists (k', t). split; [done|].
    by apply list_elem_of_In.
Qed.

Lemma dget_nonneg (d : dict) k dflt :
  (forall k' w, In (k', w) d -> 0 <= w) -> 0 <= dflt -> 0 <= dget d k dflt.
Proof.
  induction d as [|[k' v] d IH]; simpl; intros Hd Hdf; [done|].
  destruct String.eqb; [by apply (Hd k'); left|].
  apply IH; [|done]. intros; eapply Hd; right; eauto.
Qed.

Lemma norm_acc_fold (self : Optimizer) (ds : dict) (a : R) :
  fold_left (fun acc '(key, delta) =>
    if Rle_dec delta 0 then acc
    else
      let weight := dget (weights self) key 1 in
      let target_val := dget (target_profile self) key 1 in
      let norm_delta := if Req_EM_T target_val 0 then delta
                        else delta / Rabs target_val in
      acc + weight * norm_delta ^ 2) ds a
  = a + fold_right Rplus 0 (map (norm_term self) ds).
Proof.
  revert a. induction ds as [|[k d] ds IH]; intros a; simpl; [lra|].
  rewrite IH. destruct (Rle_dec d 0); simpl; lra.
Qed.

Lemma norm_terms_spec (self : Optimizer) (current : gmap string R) (l : dict) :
  (forall kt, In kt l -> dget (target_profile self) kt.1 1 = kt.2) ->
  map (norm_term self)
    (map (fun '(key, target_val) => (key, delta_of current key target_val)) l)
  = map (spec_term self current) l.
Proof.
  induction l as [|[k t] l IH]; intros Hin; simpl; [done|]. f_equal.
  - pose proof (Hin (k, t) (or_introl eq_refl)) as Ht. simpl in Ht.
    unfold norm_term. rewrite Ht.
    unfold spec_term, spec_delta, delta_of, lower_is_better.
    destruct (Rle_dec _ 0), (Rlt_dec 0 _); try lra; reflexivity.
  - apply IH. intros kt H. apply Hin. by right.
Qed.

Lemma norm_acc_spec (self : Optimizer) (current : gmap string R) :
  NoDup (target_profile self).*1 ->
  norm_acc self (compute_deltas self current) = spec_norm_sum self current.
Proof.
  intros Hnd. unfold norm_acc, spec_norm_sum, compute_deltas.
  rewrite norm_acc_fold, Rplus_0_l, norm_terms_spec; [done|].
  intros [k t] H. by apply dget_nodup.
Qed.

Lemma spec_norm_sum_nonneg (self : Optimizer) (current : gmap string R) :
  (forall k w, In (k, w) (weights self) -> 0 <= w) ->
  0 <= spec_norm_sum self current.
Proof.
  intros Hw. unfold spec_norm_sum.
  induction (target_profile self) as [|[k t] l IH]; simpl; [lra|].
  apply Rplus_le_le_0_compat; [|done].
  unfold spec_term. destruct Rlt_dec; [|lra].
  apply Rmult_le_pos; [apply dget_nonneg; [done|lra]|].
  apply pow2_ge_0.
Qed.

Lemma spec_norm_sum_at_target (self : Optimizer) (current : gmap string R) :
  (forall k t, In (k, t) (target_profile self) -> current !! k = Some t) ->
  spec_norm_sum self current = 0.
Proof.
  unfold spec_norm_sum.
  induction (target_profile self) as [|[k t] l IH]; simpl; intros Hc; [done|].
  rewrite IH by (intros; apply Hc; by right).
  unfold spec_term, spec_delta. rewrite (Hc k t) by (by left).
  destruct orb; (destruct Rlt_dec; [lra|]); lra.
Qed.

(** Claim C9 (amended): for a target profile without duplicate keys,
    [compute_gap] returns each delta ([current - target] for
    [max_monthly_loss] and [max_drawdown_pct], [target - current] for the
    others) rounded to 6 decimals, and [weighted_norm] equal to
    [round(sqrt S, 6)] where [S] sums, over the metrics with strictly
    positive delta only, [weight * (delta / |target|)^2], taking the delta
    itself when the target is 0; so [weighted_norm >= 0]. The mode is
    "fine_tune" exactly when the unrounded [sqrt S] is below the
    threshold. With non-negative weights the call always returns; with
    metrics exactly at target the norm is 0, every delta is 0 and the mode
    is "fine_tune" iff the threshold is positive. *)
Theorem compute_gap_amended (self : Optimizer)
    (Hnd : NoDup (target_profile self).*1) :
  (forall (current : gmap string R) (round_num : Z) (gap : Gap),
     compute_gap self current round_num = Some gap ->
     deltas gap = map (fun '(k, t) => (k, py_round (spec_delta current k t) 6))
                      (target_profile self)
     /\ 0 <= spec_norm_sum self current
     /\ weighted_norm gap = py_round (sqrt (spec_norm_sum self current)) 6
     /\ 0 <= weighted_norm gap
     /\ mode gap = (if Rlt_dec (sqrt (spec_norm_sum self current))
                             (fine_tune_threshold self)
                    then "fine_tune" else "explore"))
  /\ ((forall k w, In (k, w) (weights self) -> 0 <= w) ->
      forall (current : gmap string R) (round_num : Z),
      exists gap, compute_gap self current round_num = Some gap)
  /\ (forall (current : gmap string R) (round_num : Z),
      (forall k t, In (k, t) (target_profile self) -> current !! k = Some t) ->
      exists gap, compute_gap self current round_num = Some gap
        /\ weighted_norm gap = 0
        /\ Forall (fun kv => kv.2 = 0) (deltas gap)
        /\ mode gap = (if Rlt_dec 0 (fine_tune_threshold self)
                       then "fine_tune" else "explore")).
Proof.
  split; [|split].
  - intros current round_num gap H.
    unfold compute_gap, weighted_norm_of in H. rewrite norm_acc_spec in H by done.
    destruct Rlt_dec as [|Hge]; [discriminate|].
    injection H as <-. simpl. split; [|split; [lra|split; [done|split]]].
    + unfold compute_deltas. rewrite map_map. apply map_ext. by intros [k t].
    + apply py_round_nonneg, sqrt_pos.
    + done.
  - intros Hw current round_num.
    unfold compute_gap, weighted_norm_of. rewrite norm_acc_spec by done.
    pose proof (spec_norm_sum_nonneg self current Hw).
    destruct Rlt_dec; [lra|]. eauto.
  - intros current round_num Hc.
    unfold compute_gap, weighted_norm_of. rewrite norm_acc_spec by done.
    rewrite spec_norm_sum_at_target by done.
    destruct Rlt_dec; [lra|]. eexists. split; [reflexivity|]. simpl.
    rewrite sqrt_0, py_round_0. split; [done|split; [|done]].
    unfold compute_deltas. rewrite map_map. apply Forall_forall.
    intros kv Hkv. apply list_elem_of_In, in_map_iff in Hkv as [[k t] [<- Hin]].
    simpl. unfold delta_of. rewrite (Hc k t Hin).
    replace (if lower_is_better k then t - t else t - t) with 0
      by (destruct lower_is_better; lra).
    apply py_round_0.
Qed.

Lemma compute_gap_amended_witness :
  NoDup (target_profile default_optimizer).*1 /\
  ((forall (current : gmap string R) (round_num : Z) (gap : Gap),
     compute_gap default_optimizer current round_num = Some gap ->
     deltas gap = map (fun '(k, t) => (k, py_round (spec_delta current k t) 6))
                      (target_profile default_optimizer)
     /\ 0 <= spec_norm_sum default_optimizer current
     /\ weighted_norm gap = py_round (sqrt (spec_norm_sum default_optimizer current)) 6
     /\ 0 <= weighted_norm gap
     /\ mode gap = (if Rlt_dec (sqrt (spec_norm_sum default_optimizer current))
                             (fine_tune_threshold default_optimizer)
                    then "fine_tune" else "explore"))
  /\ ((forall k w, In (k, w) (weights default_optimizer) -> 0 <= w) ->
      forall (current : gmap string R) (round_num : Z),
      exists gap, compute_gap default_optimizer current round_num = Some gap)
  /\ (forall (current : gmap string R) (round_num : Z),
      (forall k t, In (k, t) (target_profile default_optimizer) -> current !! k = Some t) ->
      exists gap, compute_gap default_optimizer current round_num = Some gap
        /\ weighted_norm gap = 0
        /\ Forall (fun kv => kv.2 = 0) (deltas gap)
        /\ mode gap = (if Rlt_dec 0 (fine_tune_threshold default_optimizer)
                       then "fine_tune" else "explore"))).
Proof.
  assert (Hnd : NoDup (target_profile default_optimizer).*1)
    by (apply (bool_decide_unpack _); vm_compute; reflexivity).
  split; [exact Hnd|].
  exact (compute_gap_amended default_optimizer Hnd).
Defined.

(** C9 counterexample: one metric, target 3, weight 1, current 2. The
    norm of the spec is [sqrt (1 * (1/3)^2) = 1/3], but the returned
    [weighted_norm] is [round(1/3, 6) = 0.333333]. *)
Lemma compute_gap_rounding_counterexample :
  let self := {| target_profile := [("monthly_net_profit_avg", 3)];
                 fine_tune_threshold := 0.3; log_path := "";
                 weights := [("monthly_net_profit_avg", 1)] |} in
  let current : gmap string R := <["monthly_net_profit_avg" := 2]> ∅ in
  exists gap, compute_gap self current 1 = Some gap
    /\ weighted_norm gap = 333333 / 1000000
    /\ weighted_norm gap <> sqrt (1 * ((3 - 2) / Rabs 3) ^ 2).
Proof.
  intros self current.
  assert (Hd : delta_of current "monthly_net_profit_avg" 3 = 1).
  { unfold delta_of, current. rewrite lookup_insert_eq. simpl. lra. }
  assert (Hr : Rabs 3 = 3) by (apply Rabs_right; lra).
  assert (Hs : sqrt (1 / 3 * (1 / 3 * 1)) = 1 / 3).
  { replace (1 / 3 * (1 / 3 * 1)) with (1 / 3 * (1 / 3)) by lra.
    apply sqrt_square; lra. }
  assert (Hp : py_round (1 / 3) 6 = 333333 / 1000000).
  { unfold py_round, round_half_even. simpl.
    replace (1 / 3 * (10 * (10 * (10 * (10 * (10 * (10 * 1)))))))
      with (1000000 / 3) by lra.
    rewrite (Int_part_spec _ 333333) by lra. cbv zeta.
    destruct Rlt_dec as [_|C]; [lra|exfalso; apply C; lra]. }
  unfold compute_gap, weighted_norm_of, norm_acc, compute_deltas. simpl.
  rewrite Hd, Hr. destruct (Rle_dec 1 0); [lra|].
  destruct (Req_dec_T 3 0); [lra|].
  replace (0 + 1 * (1 / 3 * (1 / 3 * 1))) with (1 / 3 * (1 / 3 * 1)) by lra.
  destruct Rlt_dec; [lra|]. rewrite Hs.
  eexists. split; [reflexivity|]. simpl. rewrite Hp. split; [done|].
  match goal with
  | |- _ <> sqrt ?X => replace X with (1 / 3 * (1 / 3 * 1)) by (simpl; rewrite ?Hr; lra)
  end.
  rewrite Hs. lra.
Qed.

End TargetOptimizerFacts.

Module StrategyModifierFacts.
Import PyText StrategyModifier.

Lemma str_app_nil (b : string) : "" ++ b = b.
Proof. reflexivity. Qed.

Lemma str_app_cons x (a b : string) : String x a ++ b = String x (a ++ b).
Proof. reflexivity. Qed.

Lemma str_app_assoc (a b c : string) : (a ++ b) ++ c = a ++ (b ++ c).
Proof. induction a as [|x a IH]; [reflexivity|]. exact (f_equal (String x) IH). Qed.

(** [s] ends with the character [c]. *)
Definition ends_in (c : Ascii.ascii) (s : string) : Prop :=
  exists y, s = y ++ String c EmptyString.

Lemma ends_in_app c a b : ends_in c b -> ends_in c (a ++ b).
Proof. intros [y ->]. exists (a ++ y). by rewrite str_app_assoc. Qed.

Lemma ends_in_unique c d s : ends_in c s -> ends_in d s -> c = d.
Proof.
  intros [y ->] [z E]. revert z E.
  induction y as [|x y IH]; intros [|w z] E;
    rewrite ?str_app_nil, ?str_app_cons in E.
  - congruence.
  - injection E as _ E. destruct z; discriminate.
  - injection E as _ E. destruct y; discriminate.
  - injection E as _ E. exact (IH z E).
Qed.

Lemma ends_in_nonempty c s : ends_in c s -> s <> "".
Proof. intros [[|x y] ->]; discriminate. Qed.

Lemma backup_path_ends_y (unicode_isalnum : Z -> bool) self r d ts :
  ends_in "y"%char (path_join (backup_dir self) (backup_name unicode_isalnum r d ts)).
Proof.
  assert (Hn : ends_in "y"%char (backup_name unicode_isalnum r d ts)).
  { unfold backup_name. cbv zeta.
    repeat apply ends_in_app. exists ".p". reflexivity. }
  unfold path_join. destruct String.prefix; [done|].
  destruct String.eqb; [done|].
  destruct ends_with; [apply ends_in_app; exact Hn|do 2 apply ends_in_app; exact Hn].
Qed.

Lemma tmp_ends_p p : ends_in "p"%char (p ++ ".tmp").
Proof. apply ends_in_app. exists ".tm". reflexivity. Qed.

(** The backup path ends in ".py", so it is never the temporary file. *)
Lemma backup_path_not_tmp (unicode_isalnum : Z -> bool) self r d ts p :
  path_join (backup_dir self) (backup_name unicode_isalnum r d ts) <> p ++ ".tmp".
Proof.
  intros E. pose proof (backup_path_ends_y unicode_isalnum self r d ts) as Hy. rewrite E in Hy.
  pose proof (ends_in_unique _ _ _ Hy (tmp_ends_p p)). discriminate.
Qed.

Lemma backup_path_nonempty (unicode_isalnum : Z -> bool) self r d ts :
  path_join (backup_dir self) (backup_name unicode_isalnum r d ts) <> "".
Proof. exact (ends_in_nonempty _ _ (backup_path_ends_y unicode_isalnum self r d ts)). Qed.

Lemma tmp_neq p : p ++ ".tmp" <> p.
Proof.
  induction p as [|x p IH]; [discriminate|].
  rewrite str_app_cons. intros E. injection E. exact IH.
Qed.

(** Every outcome of the [except] branch of [apply_patch] reports failure. *)
Ltac crush_branches H :=
  repeat match type of H with
    | context [match ?x with _ => _ end] => destruct x
    end;
  cbv beta iota in H;
  first [discriminate | injection H as <- _; discriminate].

Section Modifier.
Variable parse_python : string -> option string.
Variable stoploss_float : string -> option (bool * string).
Variable can_write : string -> bool.
Variable unicode_isalnum : Z -> bool.
Variable select_latest : list string -> string.

(** A successful [apply_patch] went through the syntax check, the safety
    check without errors, [_backup] and then [_atomic_write]. *)
Lemma apply_patch_success_inv self code r d ts s res s' :
  apply_patch parse_python stoploss_float can_write unicode_isalnum self code r d ts s = (inr res, s') ->
  success res = true ->
  parse_python code = None
  /\ exists ws s1,
       safety_check stoploss_float code = inr ([], ws)
       /\ backup can_write unicode_isalnum self r d ts s = (inr (backup_path res), s1)
       /\ atomic_write can_write (strategy_path self) code s1 = (inr tt, s')
       /\ res = {| success := true; backup_path := backup_path res;
                   errors := []; warnings := ws |}.
Proof.
  intros H Hok.
  unfold apply_patch, validate_syntax in H.
  destruct (parse_python code) as [msg|]; [injection H as <- _; discriminate|].
  split; [done|].
  unfold bind at 1, lift in H.
  destruct (safety_check stoploss_float code) as [e|[errs ws]]; [discriminate|].
  destruct errs as [|err errs]; [|injection H as <- _; discriminate].
  cbn [negb] in H. unfold bind at 1, ret at 1 in H. cbv beta iota in H.
  destruct (backup can_write unicode_isalnum self r d ts s) as [[e|bp] s1]; [discriminate|].
  unfold try_except, bind in H.
  destruct (atomic_write can_write (strategy_path self) code s1) as [[e|[]] s2] eqn:Ha.
  - crush_branches H.
  - unfold ret in H. injection H as <- <-. exists ws, s1. simpl. done.
Qed.

Lemma backup_inv self r d ts s x s1 :
  backup can_write unicode_isalnum self r d ts s = (inr x, s1) ->
  x = path_join (backup_dir self) (backup_name unicode_isalnum r d ts)
  /\ (s !! strategy_path self = None -> s1 = s)
  /\ (forall old, s !! strategy_path self = Some old ->
        x <> strategy_path self /\ s1 = <[x := old]> s).
Proof.
  unfold backup, path_exists, bind, ret, copy2. intros H.
  set (bp := path_join (backup_dir self) (backup_name unicode_isalnum r d ts)) in *.
  destruct (s !! strategy_path self) as [old|] eqn:Hs.
  - rewrite bool_decide_true in H by eauto. cbv beta iota in H. rewrite Hs in H.
    destruct (String.eqb_spec (strategy_path self) bp); [discriminate|].
    destruct (can_write bp); [|discriminate].
    injection H as <- <-. split; [done|]. split; [discriminate|].
    intros old' E. injection E as <-. split; [congruence|done].
  - rewrite bool_decide_false in H by (intros [? ?]; discriminate).
    cbv beta iota in H. injection H as <- <-. split; [done|]. split; [done|].
    discriminate.
Qed.

Lemma atomic_write_inv p c s1 s' :
  atomic_write can_write p c s1 = (inr tt, s') ->
  s' = <[p := c]> (delete (p ++ ".tmp") (<[p ++ ".tmp" := c]> s1)).
Proof.
  unfold atomic_write, write_file, replace, bind.
  destruct (can_write (p ++ ".tmp")); [|discriminate]. cbv beta iota.
  rewrite lookup_insert_eq.
  destruct (String.eqb_spec (p ++ ".tmp") p) as [E|_]; [exfalso; exact (tmp_neq _ E)|].
  destruct (can_write p); [|discriminate]. intros H. by injection H as <-.
Qed.

Lemma atomic_write_ok p c s1 :
  can_write (p ++ ".tmp") = true -> can_write p = true ->
  atomic_write can_write p c s1
  = (inr tt, <[p := c]> (delete (p ++ ".tmp") (<[p ++ ".tmp" := c]> s1))).
Proof.
  intros H1 H2. unfold atomic_write, write_file, replace, bind.
  rewrite H1. cbv beta iota. rewrite lookup_insert_eq.
  destruct (String.eqb_spec (p ++ ".tmp") p) as [E|_]; [exfalso; exact (tmp_neq _ E)|].
  by rewrite H2.
Qed.

Lemma check_sls_below l sl shown es :
  In sl l -> stoploss_float sl = Some (true, shown) ->
  check_sls stoploss_float l = inr es -> es <> [].
Proof.
  revert es. induction l as [|sl' l IH]; intros es Hin Hsl H; [done|]. simpl in H.
  destruct (stoploss_float sl') as [[below shown']|] eqn:E; [|discriminate].
  destruct (check_sls stoploss_float l) as [e|es'] eqn:Hr; [discriminate|].
  injection H as <-. destruct Hin as [<-|Hin].
  - rewrite Hsl in E. injection E as <- <-. discriminate.
  - destruct below; [discriminate|]. exact (IH es' Hin Hsl eq_refl).
Qed.

(** The errors of [_safety_check]: required patterns, then leverage, then
    stop-loss. *)
Lemma safety_check_errors code errs ws :
  safety_check stoploss_float code = inr (errs, ws) ->
  exists errs3,
    check_sls stoploss_float (findall_stoploss (S (String.length code)) code) = inr errs3
    /\ errs = app (flat_map (fun p =>
                 if PyStr.contains p code then []
                 else ["Required pattern missing: " ++ p ++ " — "
                       ++ "WeeklyBudgetController integration must be preserved"])
                 REQUIRED_PATTERNS)
               (app (flat_map (fun lev =>
                    if (MAX_LEVERAGE <? lev)%Z
                    then ["Leverage " ++ z_to_str lev ++ "x exceeds maximum "
                          ++ z_to_str MAX_LEVERAGE ++ "x"] else [])
                    (map digits_value (findall_leverage (S (String.length code)) code)))
               errs3).
Proof.
  unfold safety_check. cbv zeta.
  destruct (check_sls stoploss_float _) as [e|errs3]; [discriminate|].
  intros H. injection H as <- _. eauto.
Qed.

Lemma filter_all_false {A} (f : A -> bool) (l : list A) :
  (forall x, In x l -> f x = false) -> List.filter f l = [].
Proof.
  induction l as [|x l IH]; intros H; simpl; [done|].
  rewrite (H x (or_introl eq_refl)). apply IH. intros y Hy. apply H. by right.
Qed.

(** With no file matching [round_{n:03d}_*.py], [rollback] returns
    [False] and touches nothing. *)
Lemma rollback_none self r s :
  (forall p, is_Some (s !! p) -> glob_match (backup_dir self) r p = false) ->
  rollback can_write select_latest self r s = (inr false, s).
Proof.
  intros Hg. unfold rollback.
  rewrite filter_all_false; [reflexivity|].
  intros p Hp. apply Hg. apply elem_of_dom.
  apply elem_of_elements. by apply list_elem_of_In.
Qed.

Lemma backup_missing self r d ts s :
  s !! strategy_path self = None ->
  backup can_write unicode_isalnum self r d ts s
  = (inr (path_join (backup_dir self) (backup_name unicode_isalnum r d ts)), s).
Proof.
  intros Hs. unfold backup, path_exists, bind, ret.
  rewrite Hs, bool_decide_false by (intros [? ?]; discriminate). reflexivity.
Qed.

Lemma in_nonempty {A} (x : A) (l : list A) : In x l -> l <> [].
Proof. by destruct l. Qed.

(** Claim C1 (amended): when the live strategy file exists before the
    call, a successful [apply_patch] returns the non-empty backup path
    [backup_dir/round_NNN_ts_desc.py]; afterwards that file holds the
    pre-patch content and the strategy file the new code. The backup is
    written first: [_backup] leads to a state in which the backup holds
    the old content and the strategy file is still unchanged, and
    [_atomic_write] then leads from that state to the final one. *)
Theorem apply_patch_write_ahead_backup self code r d ts s old res s' :
  s !! strategy_path self = Some old ->
  apply_patch parse_python stoploss_float can_write unicode_isalnum self code r d ts s = (inr res, s') ->
  success res = true ->
  backup_path res = path_join (backup_dir self) (backup_name unicode_isalnum r d ts)
  /\ backup_path res <> ""
  /\ s' !! backup_path res = Some old
  /\ s' !! strategy_path self = Some code
  /\ exists s1,
       backup can_write unicode_isalnum self r d ts s = (inr (backup_path res), s1)
       /\ s1 !! backup_path res = Some old
       /\ s1 !! strategy_path self = Some old
       /\ atomic_write can_write (strategy_path self) code s1 = (inr tt, s').
Proof.
  intros Hs H Hok.
  destruct (apply_patch_success_inv self code r d ts s res s' H Hok)
    as [_ [ws [s1 [_ [Hb [Ha _]]]]]].
  destruct (backup_inv self r d ts s _ s1 Hb) as [Ebp [_ Hold]].
  destruct (Hold old Hs) as [Hne E1]. subst s1.
  pose proof (atomic_write_inv _ _ _ _ Ha) as Es'.
  assert (Htmp : backup_path res <> strategy_path self ++ ".tmp")
    by (rewrite Ebp; apply backup_path_not_tmp).
  split; [done|]. split; [rewrite Ebp; apply backup_path_nonempty|].
  split.
  { rewrite Es', lookup_insert_ne by congruence.
    rewrite lookup_delete_ne by congruence.
    rewrite lookup_insert_ne by congruence. by rewrite lookup_insert_eq. }
  split; [rewrite Es'; by rewrite lookup_insert_eq|].
  exists (<[backup_path res := old]> s).
  split; [done|]. split; [by rewrite lookup_insert_eq|].
  split; [rewrite lookup_insert_ne by congruence; done|]. exact Ha.
Qed.

(** Claim C2: a candidate rejected by the syntax check, or by a safety
    check that reports errors, gives [success = false] with an empty
    backup path and leaves every file as it was (no backup, no write).
    A missing required pattern, a leverage above [MAX_LEVERAGE] or a
    stop-loss below the floor each make the safety errors non-empty. *)
Theorem apply_patch_rejection_no_write self code r d ts s :
  (forall msg, parse_python code = Some msg ->
     apply_patch parse_python stoploss_float can_write unicode_isalnum self code r d ts s
     = (inr {| success := false; backup_path := "";
               errors := ["Syntax error: " ++ msg]; warnings := [] |}, s))
  /\ (forall errs ws, parse_python code = None ->
        safety_check stoploss_float code = inr (errs, ws) -> errs <> [] ->
        apply_patch parse_python stoploss_float can_write unicode_isalnum self code r d ts s
        = (inr {| success := false; backup_path := "";
                  errors := errs; warnings := ws |}, s))
  /\ (forall errs ws, safety_check stoploss_float code = inr (errs, ws) ->
        (exists p, In p REQUIRED_PATTERNS /\ PyStr.contains p code = false)
        \/ (exists lev, In lev (findall_leverage (S (String.length code)) code)
                        /\ (MAX_LEVERAGE < digits_value lev)%Z)
        \/ (exists sl shown, In sl (findall_stoploss (S (String.length code)) code)
                             /\ stoploss_float sl = Some (true, shown)) ->
        errs <> []).
Proof.
  split; [|split].
  - intros msg Hp. unfold apply_patch, validate_syntax. by rewrite Hp.
  - intros errs ws Hp Hs Hne. unfold apply_patch, validate_syntax.
    rewrite Hp. cbn [negb]. unfold bind at 1, lift. rewrite Hs.
    destruct errs as [|e errs]; [done|]. reflexivity.
  - intros errs ws Hs Hwhy.
    destruct (safety_check_errors code errs ws Hs) as [errs3 [H3 ->]].
    destruct Hwhy as [[p [Hin Hc]] | [[lev [Hin Hl]] | [sl [shown [Hin Hsl]]]]].
    + eapply in_nonempty. apply in_or_app. left.
      apply in_flat_map. exists p. split; [done|]. rewrite Hc. by left.
    + eapply in_nonempty. apply in_or_app. right. apply in_or_app. left.
      apply in_flat_map. exists (digits_value lev). split; [by apply in_map|].
      apply Z.ltb_lt in Hl. rewrite Hl. by left.
    + pose proof (check_sls_below _ sl shown errs3 Hin Hsl H3) as Hne.
      destruct errs3 as [|x errs3]; [done|].
      eapply in_nonempty. apply in_or_app. right. apply in_or_app. right. by left.
Qed.

(** Claim C10: when the live strategy file is missing (its directory
    writable) and the code passes the syntax and safety checks,
    [apply_patch] still succeeds with the non-empty backup path, but no
    file is created there; with no earlier file matching the round's
    backup pattern, a later [rollback] of that round returns [False]. *)
Theorem apply_patch_missing_artifact self code r d ts s ws :
  s !! strategy_path self = None ->
  parse_python code = None ->
  safety_check stoploss_float code = inr ([], ws) ->
  can_write (strategy_path self ++ ".tmp") = true ->
  can_write (strategy_path self) = true ->
  path_join (backup_dir self) (backup_name unicode_isalnum r d ts) <> strategy_path self ->
  exists res s',
    apply_patch parse_python stoploss_float can_write unicode_isalnum self code r d ts s = (inr res, s')
    /\ success res = true
    /\ backup_path res = path_join (backup_dir self) (backup_name unicode_isalnum r d ts)
    /\ backup_path res <> ""
    /\ s' !! backup_path res = s !! backup_path res
    /\ ((forall p, is_Some (s !! p) -> glob_match (backup_dir self) r p = false) ->
        glob_match (backup_dir self) r (strategy_path self) = false ->
        rollback can_write select_latest self r s' = (inr false, s')).
Proof.
  intros Hs Hp Hsafe Ht Hw Hne.
  set (bp := path_join (backup_dir self) (backup_name unicode_isalnum r d ts)) in *.
  set (tmp := strategy_path self ++ ".tmp") in *.
  set (s' := <[strategy_path self := code]> (delete tmp (<[tmp := code]> s))).
  exists {| success := true; backup_path := bp; errors := []; warnings := ws |}, s'.
  split.
  { unfold apply_patch, validate_syntax. rewrite Hp. cbn [negb].
    unfold bind at 1, lift. rewrite Hsafe. unfold ret at 1. cbv beta iota.
    unfold bind at 1. rewrite (backup_missing self r d ts s Hs). cbv beta iota.
    unfold try_except, bind at 1. rewrite atomic_write_ok by done. reflexivity. }
  assert (Htmp : bp <> tmp) by apply backup_path_not_tmp.
  simpl. split; [done|]. split; [done|]. split; [apply backup_path_nonempty|].
  split.
  { unfold s'. rewrite lookup_insert_ne by congruence.
    rewrite lookup_delete_ne by congruence. by rewrite lookup_insert_ne by congruence. }
  intros Hg Hgp. apply rollback_none. intros p Hsome.
  destruct (String.eqb_spec p (strategy_path self)) as [->|Hp1]; [done|].
  apply Hg. unfold s' in Hsome. rewrite lookup_insert_ne in Hsome by congruence.
  destruct (String.eqb_spec p tmp) as [->|Hp2].
  - rewrite lookup_delete_eq in Hsome. by destruct Hsome.
  - rewrite lookup_delete_ne, lookup_insert_ne in Hsome by congruence. done.
Qed.

End Modifier.

(** A concrete run with a Chinese change description (its CJK letters
    are kept in the backup name): [ast.parse] accepts, every [float] is above the floor,
    every path is writable, the code keeps the required patterns. *)
Lemma apply_patch_write_ahead_backup_witness :
  let pp := fun _ : string => @None string in
  let sf := fun _ : string => Some (false, "-0.5") in
  let cw := fun _ : string => true in
  let uw := fun cp : Z => (19968 <=? cp)%Z && (cp <=? 40959)%Z in
  let d := "调整止损 (v2)" in
  let self := default_modifier in
  let code := "WeeklyBudgetController can_open_trade confirm_trade_entry" in
  let s : fs := {[ "strategies/LotteryMindsetStrategy.py" := "old" ]} in
  let bp := "results/strategy_versions/round_001_20260101_000000_调整止损__v2_.py" in
  let tmp := "strategies/LotteryMindsetStrategy.py.tmp" in
  let res := {| success := true; backup_path := bp; errors := []; warnings := [] |} in
  let s' := <["strategies/LotteryMindsetStrategy.py" := code]>
              (delete tmp (<[tmp := code]> (<[bp := "old"]> s))) in
  (s !! strategy_path self = Some "old"
   /\ apply_patch pp sf cw uw self code 1 d "20260101_000000" s = (inr res, s')
   /\ success res = true)
  /\ (backup_path res = path_join (backup_dir self) (backup_name uw 1 d "20260101_000000")
      /\ backup_path res <> ""
      /\ s' !! backup_path res = Some "old"
      /\ s' !! strategy_path self = Some code
      /\ exists s1,
           backup cw uw self 1 d "20260101_000000" s = (inr (backup_path res), s1)
           /\ s1 !! backup_path res = Some "old"
           /\ s1 !! strategy_path self = Some "old"
           /\ atomic_write cw (strategy_path self) code s1 = (inr tt, s')).
Proof.
  intros pp sf cw uw d self code s bp tmp res s'.
  assert (H1 : s !! strategy_path self = Some "old") by (vm_compute; reflexivity).
  assert (H2 : apply_patch pp sf cw uw self code 1 d "20260101_000000" s = (inr res, s'))
    by (vm_compute; reflexivity).
  assert (H3 : success res = true) by reflexivity.
  split; [split; [exact H1|split; [exact H2|exact H3]]|].
  exact (apply_patch_write_ahead_backup pp sf cw uw self code 1 d "20260101_000000"
           s "old" res s' H1 H2 H3).
Defined.

(** C1 counterexample: with no strategy file, the same call succeeds and
    returns a backup path, but no file exists at that path afterwards. *)
Lemma apply_patch_no_artifact_counterexample :
  let pp := fun _ : string => @None string in
  let sf := fun _ : string => Some (false, "-0.5") in
  let cw := fun _ : string => true in
  let uw := fun _ : Z => false in
  let self := default_modifier in
  let code := "WeeklyBudgetController can_open_trade confirm_trade_entry" in
  let s : fs := ∅ in
  let bp := "results/strategy_versions/round_001_20260101_000000_.py" in
  let tmp := "strategies/LotteryMindsetStrategy.py.tmp" in
  let res := {| success := true; backup_path := bp; errors := []; warnings := [] |} in
  let s' := <["strategies/LotteryMindsetStrategy.py" := code]>
              (delete tmp (<[tmp := code]> s)) in
  apply_patch pp sf cw uw self code 1 "" "20260101_000000" s = (inr res, s')
  /\ success res = true /\ backup_path res <> ""
  /\ s' !! backup_path res = None.
Proof. vm_compute. split; [reflexivity|]. split; [reflexivity|]. split; [discriminate|reflexivity]. Qed.

Lemma apply_patch_rejection_no_write_witness :
  Some "Line 1: invalid syntax" = Some "Line 1: invalid syntax"
  /\ apply_patch (fun _ => Some "Line 1: invalid syntax") (fun _ => Some (false, ""))
       (fun _ => true) (fun _ => false) default_modifier "def (" 1 "" "20260101_000000"
       {[ "strategies/LotteryMindsetStrategy.py" := "old" ]}
     = (inr {| success := false; backup_path := "";
               errors := ["Syntax error: " ++ "Line 1: invalid syntax"]; warnings := [] |},
        {[ "strategies/LotteryMindsetStrategy.py" := "old" ]}).
Proof.
  split; [reflexivity|].
  exact (proj1 (apply_patch_rejection_no_write (fun _ => Some "Line 1: invalid syntax")
           (fun _ => Some (false, "")) (fun _ => true) (fun _ => false) default_modifier "def (" 1 ""
           "20260101_000000" {[ "strategies/LotteryMindsetStrategy.py" := "old" ]})
           "Line 1: invalid syntax" eq_refl).
Defined.

Lemma apply_patch_missing_artifact_witness :
  let pp := fun _ : string => @None string in
  let sf := fun _ : string => Some (false, "-0.5") in
  let cw := fun _ : string => true in
  let uw := fun _ : Z => false in
  let sl := fun l : list string => List.hd "" l in
  let self := default_modifier in
  let code := "WeeklyBudgetController can_open_trade confirm_trade_entry" in
  let s : fs := ∅ in
  (s !! strategy_path self = None
   /\ pp code = None
   /\ safety_check sf code = inr ([], [])
   /\ cw (strategy_path self ++ ".tmp") = true
   /\ cw (strategy_path self) = true
   /\ path_join (backup_dir self) (backup_name uw 1 "" "20260101_000000") <> strategy_path self)
  /\ exists res s',
      apply_patch pp sf cw uw self code 1 "" "20260101_000000" s = (inr res, s')
      /\ success res = true
      /\ backup_path res = path_join (backup_dir self) (backup_name uw 1 "" "20260101_000000")
      /\ backup_path res <> ""
      /\ s' !! backup_path res = s !! backup_path res
      /\ ((forall p, is_Some (s !! p) -> glob_match (backup_dir self) 1 p = false) ->
          glob_match (backup_dir self) 1 (strategy_path self) = false ->
          rollback cw sl self 1 s' = (inr false, s')).
Proof.
  intros pp sf cw uw sl self code s.
  assert (H1 : s !! strategy_path self = None) by reflexivity.
  assert (H2 : pp code = None) by reflexivity.
  assert (H3 : safety_check sf code = inr ([], [])) by (vm_compute; reflexivity).
  assert (H4 : cw (strategy_path self ++ ".tmp") = true) by reflexivity.
  assert (H5 : cw (strategy_path self) = true) by reflexivity.
  assert (H6 : path_join (backup_dir self) (backup_name uw 1 "" "20260101_000000")
               <> strategy_path self) by (vm_compute; discriminate).
  split; [tauto|].
  exact (apply_patch_missing_artifact pp sf cw uw sl self code 1 "" "20260101_000000" s []
           H1 H2 H3 H4 H5 H6).
Defined.
End StrategyModifierFacts.

Module StrategyModifierExtra.
Import PyText StrategyModifier StrategyModifierFacts.

Section Modifier.
Variable parse_python : string -> option string.
Variable stoploss_float : string -> option (bool * string).
Variable can_write : string -> bool.
Variable unicode_isalnum : Z -> bool.
Variable select_latest : list string -> string.

Lemma atomic_write_cases p c s :
  atomic_write can_write p c s =
  if can_write (p ++ ".tmp") then
    if can_write p then (inr tt, <[p := c]> (delete (p ++ ".tmp") (<[p ++ ".tmp" := c]> s)))
    else (inl (PyExn "OSError" p), <[p ++ ".tmp" := c]> s)
  else (inl (PyExn "OSError" (p ++ ".tmp")), s).
Proof.
  unfold atomic_write, write_file, replace, bind.
  destruct (can_write (p ++ ".tmp")); [|reflexivity]. cbv beta iota.
  rewrite lookup_insert_eq.
  destruct (String.eqb_spec (p ++ ".tmp") p) as [E|_]; [exfalso; exact (tmp_neq _ E)|].
  by destruct (can_write p).
Qed.

(** [_atomic_write] changes no file other than [path] and [path.tmp];
    on success [path] holds the content and no [.tmp] file is left; on
    failure [path] is unchanged, and the [.tmp] file holding the content
    is left behind when it could be written. *)
Theorem atomic_write_effects p c s o s' :
  atomic_write can_write p c s = (o, s') ->
  (forall q, q <> p -> q <> p ++ ".tmp" -> s' !! q = s !! q)
  /\ (o = inr tt -> s' !! p = Some c /\ s' !! (p ++ ".tmp") = None)
  /\ (forall e, o = inl e ->
        s' !! p = s !! p
        /\ (can_write (p ++ ".tmp") = true -> s' !! (p ++ ".tmp") = Some c)).
Proof.
  rewrite atomic_write_cases. pose proof (tmp_neq p) as Hne.
  destruct (can_write (p ++ ".tmp")) eqn:Ht; [destruct (can_write p) eqn:Hp|];
    intros H; injection H as <- <-.
  - split; [|split].
    + intros q Hq1 Hq2. rewrite lookup_insert_ne by congruence.
      rewrite lookup_delete_ne by congruence. by rewrite lookup_insert_ne by congruence.
    + intros _. rewrite lookup_insert_eq. split; [done|].
      rewrite lookup_insert_ne by congruence. by rewrite lookup_delete_eq.
    + discriminate.
  - split; [|split].
    + intros q Hq1 Hq2. by rewrite lookup_insert_ne by congruence.
    + discriminate.
    + intros e _. rewrite lookup_insert_ne by congruence. split; [done|].
      intros _. by rewrite lookup_insert_eq.
  - split; [done|]. split; [discriminate|]. intros e _. split; [done|]. discriminate.
Qed.

Lemma atomic_write_frame p c s o s' :
  atomic_write can_write p c s = (o, s') ->
  forall q, q <> p -> q <> p ++ ".tmp" -> s' !! q = s !! q.
Proof.
  rewrite atomic_write_cases. pose proof (tmp_neq p) as Hne.
  destruct (can_write (p ++ ".tmp")); [destruct (can_write p)|];
    intros H; injection H as <- <-; intros q Hq1 Hq2.
  - rewrite lookup_insert_ne by congruence.
    rewrite lookup_delete_ne by congruence. by rewrite lookup_insert_ne by congruence.
  - by rewrite lookup_insert_ne by congruence.
  - done.
Qed.

Lemma atomic_write_fail_keeps p c s e s' :
  atomic_write can_write p c s = (inl e, s') -> s' !! p = s !! p.
Proof.
  rewrite atomic_write_cases. pose proof (tmp_neq p) as Hne.
  destruct (can_write (p ++ ".tmp")); [destruct (can_write p)|];
    intros H; [discriminate|injection H as <- <-..].
  - by rewrite lookup_insert_ne by congruence.
  - done.
Qed.

Lemma atomic_write_ok_writable p c s s' :
  atomic_write can_write p c s = (inr tt, s') -> can_write p = true.
Proof.
  rewrite atomic_write_cases.
  destruct (can_write (p ++ ".tmp")); [destruct (can_write p)|]; intros H; by inversion H.
Qed.

(** [_backup] never changes the strategy file; when the strategy file
    exists and the copy succeeds, the backup holds its content. *)
Lemma backup_keeps_strategy self r d ts s o s1 :
  backup can_write unicode_isalnum self r d ts s = (o, s1) -> s1 !! strategy_path self = s !! strategy_path self.
Proof.
  unfold backup, path_exists, bind, ret, copy2.
  set (bp := path_join (backup_dir self) (backup_name unicode_isalnum r d ts)).
  destruct (s !! strategy_path self) as [old|] eqn:Hs.
  - rewrite bool_decide_true by eauto. cbv beta iota. rewrite Hs.
    destruct (String.eqb_spec (strategy_path self) bp) as [E|Hne];
      [intros H; by injection H as _ <-|].
    destruct (can_write bp); intros H; injection H as _ <-; [|done].
    by rewrite lookup_insert_ne by congruence.
  - rewrite bool_decide_false by (intros [? ?]; discriminate).
    cbv beta iota. intros H. by injection H as _ <-.
Qed.

(** When the strategy file exists, [apply_patch] either succeeds and
    leaves the new code in it, or (failure result or exception) leaves
    the strategy file with its content from before the call. *)
Theorem apply_patch_failure_keeps_strategy self code r d ts s old o s' :
  s !! strategy_path self = Some old ->
  apply_patch parse_python stoploss_float can_write unicode_isalnum self code r d ts s = (o, s') ->
  (exists res, o = inr res /\ success res = true /\ s' !! strategy_path self = Some code)
  \/ s' !! strategy_path self = Some old.
Proof.
  intros Hs H. unfold apply_patch, validate_syntax in H.
  destruct (parse_python code) as [msg|]; [injection H as _ <-; by right|].
  cbn [negb] in H. unfold bind at 1, lift in H.
  destruct (safety_check stoploss_float code) as [e|[errs ws]];
    [unfold raise in H; injection H as _ <-; by right|].
  unfold ret at 1 in H. cbv beta iota in H.
  destruct errs as [|err errs]; [|injection H as _ <-; by right].
  unfold bind at 1 in H.
  destruct (backup can_write unicode_isalnum self r d ts s) as [[e|bp] s1] eqn:Hb.
  - injection H as _ <-. right. rewrite (backup_keeps_strategy _ _ _ _ _ _ _ Hb). done.
  - destruct (backup_inv can_write unicode_isalnum self r d ts s bp s1 Hb) as [Ebp [_ Hold]].
    destruct (Hold old Hs) as [Hne ->].
    assert (Htmp : bp <> strategy_path self ++ ".tmp")
      by (rewrite Ebp; apply backup_path_not_tmp).
    unfold try_except, bind at 1 in H.
    destruct (atomic_write can_write (strategy_path self) code (<[bp:=old]> s))
      as [[e|[]] s2] eqn:Ha.
    + pose proof (atomic_write_fail_keeps _ _ _ _ _ Ha) as Hk.
      rewrite lookup_insert_ne in Hk by congruence. rewrite Hs in Hk.
      pose proof (atomic_write_frame _ _ _ _ _ Ha bp Hne Htmp) as Hbp.
      rewrite lookup_insert_eq in Hbp.
      unfold bind, path_exists in H. cbv beta iota in H.
      destruct (negb (String.eqb bp "") && bool_decide (is_Some (s2 !! bp))).
      * unfold copy2 in H. rewrite Hbp in H.
        destruct (String.eqb_spec bp (strategy_path self)); [congruence|].
        destruct (can_write (strategy_path self)).
        -- unfold ret in H. injection H as _ <-. right. by rewrite lookup_insert_eq.
        -- injection H as _ <-. by right.
      * unfold ret in H. injection H as _ <-. by right.
    + unfold ret in H. injection H as <- <-. left.
      eexists. split; [reflexivity|]. split; [reflexivity|].
      rewrite (atomic_write_inv can_write _ _ _ _ Ha).
      by rewrite lookup_insert_eq.
Qed.

End Modifier.
End StrategyModifierExtra.

Module GlobFacts.
Import PyStrFacts PyText StrategyModifier StrategyModifierFacts.

Lemma strip_prefix_app (a b : string) : strip_prefix a (a ++ b) = Some b.
Proof.
  induction a as [|c a IH]; [destruct b; reflexivity|].
  rewrite str_app_cons. simpl. by rewrite Ascii.eqb_refl.
Qed.

Lemma prefix1_any c x t : String.prefix (String c EmptyString) (String x t) = Ascii.eqb c x.
Proof.
  simpl. destruct (Ascii.ascii_dec c x) as [->|Hne].
  - rewrite Ascii.eqb_refl. by destruct t.
  - symmetry. by apply Ascii.eqb_neq.
Qed.

Lemma contains_cons n x (t : string) :
  PyStr.contains n (String x t) = String.prefix n (String x t) || PyStr.contains n t.
Proof. reflexivity. Qed.

Lemma has_char_app c (a b : string) : has_char c (a ++ b) = has_char c a || has_char c b.
Proof.
  unfold has_char. induction a as [|x a IH]; [reflexivity|].
  rewrite str_app_cons, !contains_cons, !prefix1_any, IH.
  by rewrite orb_assoc.
Qed.

Lemma has_char_cons c x (t : string) :
  has_char c (String x t) = Ascii.eqb c x || has_char c t.
Proof. unfold has_char. by rewrite contains_cons, prefix1_any. Qed.

Lemma digit_not_slash (m : N) : (m < 10)%N -> Ascii.ascii_of_N (48 + m) <> "/"%char.
Proof.
  intros Hm.
  assert (H : (m = 0 \/ m = 1 \/ m = 2 \/ m = 3 \/ m = 4 \/ m = 5 \/ m = 6 \/ m = 7
               \/ m = 8 \/ m = 9)%N) by lia.
  repeat destruct H as [->|H]; try (subst; vm_compute; discriminate).
Qed.

Lemma digits_of_pos_aux_no_slash fuel n acc :
  has_char "/"%char acc = false -> has_char "/"%char (digits_of_pos_aux fuel n acc) = false.
Proof.
  revert n acc. induction fuel as [|fuel IH]; intros n acc H; [done|]. simpl.
  assert (Hd : has_char "/"%char (String (Ascii.ascii_of_N (48 + n mod 10)) acc) = false).
  { rewrite has_char_cons, H, orb_false_r. apply Ascii.eqb_neq.
    intros E. apply (digit_not_slash (n mod 10)); [apply N.mod_lt; lia|done]. }
  destruct (n / 10 =? 0)%N; [done|]. by apply IH.
Qed.

Lemma zeros_no_slash k : has_char "/"%char (zeros k) = false.
Proof. induction k as [|k IH]; [reflexivity|]. simpl zeros. by rewrite has_char_cons, IH. Qed.

Lemma fmt03d_no_slash r : has_char "/"%char (fmt03d r) = false.
Proof.
  unfold fmt03d, zpad, digits_of_N.
  destruct (r <? 0)%Z; rewrite ?has_char_app, zeros_no_slash;
    rewrite digits_of_pos_aux_no_slash; reflexivity.
Qed.

Lemma split_cont_no_slash k s a b :
  split_cont k s = (a, b) -> has_char "/"%char a = false.
Proof.
  revert s a b. induction k as [|k IH]; intros [|c s] a b H; simpl in H;
    try (injection H as <- _; reflexivity).
  destruct (is_cont c) eqn:Ec; [|injection H as <- _; reflexivity].
  destruct (split_cont k s) as [a' b'] eqn:Es. injection H as <- _.
  rewrite has_char_cons, (IH _ _ _ Es), orb_false_r. apply Ascii.eqb_neq.
  intros <-. discriminate.
Qed.

Lemma utf8_chars_aux_slash fuel s cp bytes :
  In (cp, bytes) (utf8_chars_aux fuel s) -> has_char "/"%char bytes = true -> cp = 47%Z.
Proof.
  revert s. induction fuel as [|fuel IH]; intros [|a s] Hin Hb; simpl in Hin; try done.
  destruct (split_cont (seq_len (byte_val a) - 1) s) as [conts rest] eqn:Es.
  destruct Hin as [E|Hin]; [|exact (IH _ Hin Hb)].
  injection E as <- <-.
  rewrite has_char_cons, (split_cont_no_slash _ _ _ _ Es), orb_false_r in Hb.
  apply Ascii.eqb_eq in Hb. subst a.
  cbn in Es. injection Es as <- _. reflexivity.
Qed.

Lemma fold_app_no_slash (l : list string) :
  Forall (fun x => has_char "/"%char x = false) l ->
  has_char "/"%char (fold_right String.append "" l) = false.
Proof.
  induction 1 as [|x l Hx _ IH]; [reflexivity|]. simpl.
  by rewrite has_char_app, Hx, IH.
Qed.

Lemma safe_desc_no_slash w d : has_char "/"%char (safe_desc w d) = false.
Proof.
  unfold safe_desc. destruct String.eqb; [reflexivity|].
  apply fold_app_no_slash.
  apply (Forall_take _ 50).
  apply List.Forall_forall. intros x Hx.
  apply in_map_iff in Hx as [[cp bytes] [<- Hin]]. simpl.
  destruct (is_word_char w cp) eqn:Ew; [|reflexivity].
  destruct (has_char "/"%char bytes) eqn:Eb; [|reflexivity].
  pose proof (utf8_chars_aux_slash _ _ _ _ Hin Eb) as ->. discriminate.
Qed.

Lemma str_length_app (a b : string) : String.length (a ++ b) = String.length a + String.length b.
Proof. induction a as [|x a IH]; [reflexivity|]. rewrite str_app_cons. simpl. by rewrite IH. Qed.

Lemma split_cont_app k s a b : split_cont k s = (a, b) -> a ++ b = s.
Proof.
  revert s a b. induction k as [|k IH]; intros [|c s] a b H; simpl in H;
    try (injection H as <- <-; reflexivity).
  destruct (is_cont c); [|injection H as <- <-; reflexivity].
  destruct (split_cont k s) as [a' b'] eqn:Es. injection H as <- <-.
  rewrite str_app_cons. f_equal. exact (IH _ _ _ Es).
Qed.

Lemma utf8_chars_aux_concat fuel s :
  String.length s <= fuel ->
  fold_right String.append "" (map snd (utf8_chars_aux fuel s)) = s.
Proof.
  revert s. induction fuel as [|fuel IH]; intros [|a s] Hl; simpl in *; try (reflexivity || lia).
  destruct (split_cont (seq_len (byte_val a) - 1) s) as [conts rest] eqn:Es. simpl.
  pose proof (split_cont_app _ _ _ _ Es) as Ea.
  rewrite IH; [by rewrite <- Ea|].
  rewrite <- Ea, str_length_app in Hl. lia.
Qed.

(** Splitting into characters loses no byte. *)
Lemma utf8_chars_concat s : fold_right String.append "" (map snd (utf8_chars s)) = s.
Proof. apply utf8_chars_aux_concat. lia. Qed.

Lemma substring_app_r (a b : string) m :
  substring (String.length a) m (a ++ b) = substring 0 m b.
Proof. induction a as [|x a IH]; [reflexivity|]. rewrite str_app_cons. exact IH. Qed.

Lemma substring_full (s : string) : substring 0 (String.length s) s = s.
Proof. induction s as [|x s IH]; [reflexivity|]. simpl. by rewrite IH. Qed.

Lemma ends_with_app (suf a : string) : ends_with suf (a ++ suf) = true.
Proof.
  unfold ends_with. rewrite str_length_app.
  replace (String.length a + String.length suf - String.length suf)%nat
    with (String.length a) by lia.
  rewrite substring_app_r, substring_full, String.eqb_refl, andb_true_r.
  apply Nat.leb_le. lia.
Qed.

Lemma strip_path_join (bdir name : string) :
  String.prefix "/" name = false ->
  strip_prefix (path_join bdir "") (path_join bdir name) = Some name.
Proof.
  intros Hn. unfold path_join. rewrite Hn. change (String.prefix "/" "") with false.
  cbv iota. destruct (String.eqb bdir "") eqn:Eb; [destruct name; reflexivity|].
  destruct (ends_with "/" bdir).
  - rewrite append_empty_r. apply strip_prefix_app.
  - change ("/" ++ "") with "/". rewrite <- str_app_assoc. apply strip_prefix_app.
Qed.

(** Every backup path [_backup] builds is found by [rollback]'s glob for
    the same round, provided the timestamp has no [/]. *)
Lemma glob_match_backup (unicode_isalnum : Z -> bool) self r d ts :
  has_char "/"%char ts = false ->
  glob_match (backup_dir self) r (path_join (backup_dir self) (backup_name unicode_isalnum r d ts)) = true.
Proof.
  intros Hts. unfold glob_match.
  rewrite strip_path_join by reflexivity.
  unfold backup_name.
  set (safe := safe_desc unicode_isalnum d).
  assert (Hsafe : has_char "/"%char safe = false) by apply safe_desc_no_slash.
  rewrite !has_char_app, fmt03d_no_slash, Hts, Hsafe. simpl negb.
  rewrite andb_true_l. apply andb_true_intro. split.
  - assert (E : "round_" ++ fmt03d r ++ "_" ++ ts ++ "_" ++ safe ++ ".py"
                 = ("round_" ++ fmt03d r ++ "_") ++ (ts ++ "_" ++ safe ++ ".py"))
      by (rewrite !str_app_assoc; reflexivity).
    rewrite E. apply prefix_app.
  - assert (E : "round_" ++ fmt03d r ++ "_" ++ ts ++ "_" ++ safe ++ ".py"
                 = ("round_" ++ fmt03d r ++ "_" ++ ts ++ "_" ++ safe) ++ ".py")
      by (rewrite !str_app_assoc; reflexivity).
    rewrite E. apply ends_with_app.
Qed.

End GlobFacts.

Module RollbackExtra.
Import PyText StrategyModifier StrategyModifierFacts StrategyModifierExtra GlobFacts.

Section Modifier.
Variable parse_python : string -> option string.
Variable stoploss_float : string -> option (bool * string).
Variable can_write : string -> bool.
Variable unicode_isalnum : Z -> bool.
Variable select_latest : list string -> string.

Lemma in_dom_elements (s : fs) p : is_Some (s !! p) <-> In p (elements (dom s)).
Proof.
  rewrite <- list_elem_of_In, elem_of_elements, elem_of_dom. done.
Qed.

Lemma rollback_cases self r s o s' :
  (forall l, l <> [] -> In (select_latest l) l) ->
  rollback can_write select_latest self r s = (o, s') ->
  (o = inr false /\ s' = s
   /\ forall p, is_Some (s !! p) -> glob_match (backup_dir self) r p = false)
  \/ (o = inr true
      /\ exists b c, glob_match (backup_dir self) r b = true /\ s !! b = Some c
                     /\ b <> strategy_path self
                     /\ s' = <[strategy_path self := c]> s)
  \/ (exists e, o = inl e /\ s' = s
      /\ exists b, glob_match (backup_dir self) r b = true /\ is_Some (s !! b)).
Proof.
  intros Hsel. unfold rollback. cbv zeta.
  destruct (List.filter (glob_match (backup_dir self) r) (elements (dom s)))
    as [|b0 l0] eqn:Eb.
  - intros H. injection H as <- <-. left. split; [done|]. split; [done|].
    intros p Hp. destruct (glob_match (backup_dir self) r p) eqn:Eg; [|done].
    assert (Hin : In p (List.filter (glob_match (backup_dir self) r) (elements (dom s))))
      by (apply filter_In; split; [by apply in_dom_elements|done]).
    by rewrite Eb in Hin.
  - assert (Hin : In (select_latest (b0 :: l0))
                     (List.filter (glob_match (backup_dir self) r) (elements (dom s))))
      by (rewrite Eb; apply Hsel; discriminate).
    apply filter_In in Hin as [Hdom Hg]. apply in_dom_elements in Hdom.
    set (b := select_latest (b0 :: l0)) in *.
    destruct (s !! b) as [c|] eqn:Ec; [|by destruct Hdom].
    unfold bind, copy2. rewrite Ec.
    destruct (String.eqb_spec b (strategy_path self)) as [E|Hne].
    + intros H. injection H as <- <-. right. right. eexists. split; [reflexivity|].
      split; [done|]. exists b. by rewrite Ec.
    + destruct (can_write (strategy_path self)).
      * unfold ret. intros H. injection H as <- <-. right. left. split; [done|].
        exists b, c. done.
      * intros H. injection H as <- <-. right. right. eexists. split; [reflexivity|].
        split; [done|]. exists b. by rewrite Ec.
Qed.

(** [rollback(round_num)] returns [False], touching nothing, exactly
    when no file matches [round_{round_num:03d}_*.py]; when it returns
    [True] the strategy file holds the content of one matching backup
    and nothing else changed; when it raises, no file other than the
    strategy file changed. *)
Theorem rollback_outcome self r s o s' :
  (forall l, l <> [] -> In (select_latest l) l) ->
  rollback can_write select_latest self r s = (o, s') ->
  (o = inr false <-> forall p, is_Some (s !! p) -> glob_match (backup_dir self) r p = false)
  /\ (o = inr false -> s' = s)
  /\ (o = inr true ->
        exists b c, glob_match (backup_dir self) r b = true /\ s !! b = Some c
                    /\ s' = <[strategy_path self := c]> s)
  /\ (forall e, o = inl e -> forall p, p <> strategy_path self -> s' !! p = s !! p).
Proof.
  intros Hsel H.
  destruct (rollback_cases self r s o s' Hsel H)
    as [[-> [-> Hn]] | [[-> [b [c [Hg [Hc [_ ->]]]]]] | [e [-> [-> [b [Hg Hb]]]]]]].
  - split; [done|]. split; [done|]. split; [discriminate|]. discriminate.
  - split.
    + split; [discriminate|]. intros Hn. rewrite Hn in Hg; [discriminate|]. by rewrite Hc.
    + split; [discriminate|]. split; [|discriminate]. intros _. by exists b, c.
  - split.
    + split; [discriminate|]. intros Hn. rewrite Hn in Hg; [discriminate|done].
    + split; [discriminate|]. split; [discriminate|]. by intros ? _ ? _.
Qed.

(** Round trip: after a successful [apply_patch] of round [r] on an
    existing strategy file, with no file matching the round's backup
    pattern before the call, [rollback(r)] returns [True] and puts the
    pre-patch content back into the strategy file. *)
Theorem apply_patch_then_rollback self code r d ts s old res s' :
  (forall l, l <> [] -> In (select_latest l) l) ->
  has_char "/"%char ts = false ->
  (forall p, is_Some (s !! p) -> glob_match (backup_dir self) r p = false) ->
  s !! strategy_path self = Some old ->
  apply_patch parse_python stoploss_float can_write unicode_isalnum self code r d ts s = (inr res, s') ->
  success res = true ->
  rollback can_write select_latest self r s'
  = (inr true, <[strategy_path self := old]> s').
Proof.
  intros Hsel Hts Hnone Hs H Hok.
  destruct (apply_patch_success_inv parse_python stoploss_float can_write unicode_isalnum
              self code r d ts s res s' H Hok) as [_ [ws [s1 [_ [Hb [Ha _]]]]]].
  destruct (backup_inv can_write unicode_isalnum self r d ts s _ s1 Hb) as [Ebp [_ Hold]].
  destruct (Hold old Hs) as [Hne ->].
  set (bp := backup_path res) in *.
  set (sp := strategy_path self) in *.
  pose proof (atomic_write_inv can_write _ _ _ _ Ha) as Es'.
  pose proof (atomic_write_ok_writable can_write _ _ _ _ Ha) as Hcw.
  assert (Hglob : glob_match (backup_dir self) r bp = true)
    by (rewrite Ebp; by apply glob_match_backup).
  assert (Htmp : bp <> sp ++ ".tmp") by (rewrite Ebp; apply backup_path_not_tmp).
  pose proof (tmp_neq sp) as Htn.
  assert (Hbp : s' !! bp = Some old).
  { rewrite Es', lookup_insert_ne by congruence.
    rewrite lookup_delete_ne by congruence.
    rewrite lookup_insert_ne by congruence. by rewrite lookup_insert_eq. }
  assert (Honly : forall q, is_Some (s' !! q) ->
                    glob_match (backup_dir self) r q = true -> q = bp).
  { intros q Hq Hg. destruct (String.eqb_spec q bp) as [|Hqb]; [done|].
    destruct (String.eqb_spec q sp) as [->|Hqs].
    { rewrite Hnone in Hg; [discriminate|]. by rewrite Hs. }
    destruct (String.eqb_spec q (sp ++ ".tmp")) as [->|Hqt].
    { rewrite Es', lookup_insert_ne, lookup_delete_eq in Hq by congruence.
      by destruct Hq. }
    rewrite Es', lookup_insert_ne, lookup_delete_ne, lookup_insert_ne,
      lookup_insert_ne in Hq by congruence.
    rewrite Hnone in Hg; [discriminate|done]. }
  unfold rollback. cbv zeta.
  assert (Hin : In bp (List.filter (glob_match (backup_dir self) r) (elements (dom s'))))
    by (apply filter_In; split; [apply in_dom_elements; by rewrite Hbp|done]).
  destruct (List.filter (glob_match (backup_dir self) r) (elements (dom s')))
    as [|b0 l0] eqn:Eb; [done|].
  assert (Hsl : In (select_latest (b0 :: l0))
                  (List.filter (glob_match (backup_dir self) r) (elements (dom s'))))
    by (rewrite Eb; apply Hsel; discriminate).
  apply filter_In in Hsl as [Hdom Hg]. apply in_dom_elements in Hdom.
  rewrite (Honly _ Hdom Hg).
  unfold bind, copy2. rewrite Hbp. unfold sp in *. rewrite Hcw.
  destruct (String.eqb_spec bp (strategy_path self)); [congruence|]. reflexivity.
Qed.

End Modifier.
End RollbackExtra.

Module StrategyConfigExtra.
Import PyText StrategyModifier StrategyModifierFacts StrategyConfig.

(** The value [_deep_merge] leaves under a key of [override] whose
    previous value in [base] was [old]. *)
Definition merged_value (old : option json) (value : json) : json :=
  match old, value with
  | Some (JObj b), JObj _ => JObj (merge_into b value)
  | _, _ => value
  end.

Definition has_key (d : list (string * json)) (k : string) : bool :=
  existsb (String.eqb k) (map fst d).

Lemma merge_into_cons b k v rest :
  merge_into b (JObj ((k, v) :: rest))
  = merge_into (dict_set b k (merged_value (dict_get b k) v)) (JObj rest).
Proof.
  simpl. f_equal. unfold merged_value.
  destruct (dict_get b k) as [[]|], v; reflexivity.
Qed.

Lemma merge_into_nil b : merge_into b (JObj []) = b.
Proof. reflexivity. Qed.

Lemma dict_get_set_eq d k v : dict_get (dict_set d k v) k = Some v.
Proof.
  induction d as [|[k' v'] d IH]; simpl.
  - by rewrite String.eqb_refl.
  - destruct (String.eqb k k') eqn:E; simpl; rewrite ?E; [done|exact IH].
Qed.

Lemma dict_get_set_ne d k k' v :
  k' <> k -> dict_get (dict_set d k v) k' = dict_get d k'.
Proof.
  intros Hne. induction d as [|[k0 v0] d IH]; simpl.
  - apply String.eqb_neq in Hne. by rewrite Hne.
  - destruct (String.eqb_spec k k0) as [->|]; simpl.
    + apply String.eqb_neq in Hne. by rewrite Hne.
    + destruct (String.eqb k' k0); [done|exact IH].
Qed.

Lemma dict_set_keys d k v :
  map fst (dict_set d k v)
  = if has_key d k then map fst d else app (map fst d) [k].
Proof.
  unfold has_key. induction d as [|[k' v'] d IH]; simpl; [done|].
  destruct (String.eqb_spec k k') as [->|]; simpl; [done|].
  rewrite IH. by destruct (existsb _ _).
Qed.

Lemma has_key_app_single d k k' :
  k' <> k -> existsb (String.eqb k') (app (map fst d) [k]) = has_key d k'.
Proof.
  intros Hne. unfold has_key. rewrite existsb_app. simpl.
  apply String.eqb_neq in Hne. rewrite Hne. by rewrite orb_false_r.
Qed.


Lemma has_key_set d k v k' :
  has_key (dict_set d k v) k' = has_key d k' || String.eqb k' k.
Proof.
  unfold has_key at 1. rewrite dict_set_keys. fold (has_key d k').
  destruct (has_key d k) eqn:Hk.
  - destruct (String.eqb_spec k' k) as [->|]; [by rewrite Hk|by rewrite orb_false_r].
  - unfold has_key. rewrite existsb_app. simpl. by rewrite orb_false_r.
Qed.

Lemma merge_into_get_other b o k :
  ~ In k (map fst o) -> dict_get (merge_into b (JObj o)) k = dict_get b k.
Proof.
  revert b. induction o as [|[k' v] o IH]; intros b Hn; [done|].
  rewrite merge_into_cons. simpl in Hn.
  rewrite IH by tauto. apply dict_get_set_ne. intros ->. tauto.
Qed.


(** [_deep_merge(base, override)] on dicts (an [override] without
    repeated keys, as every Python dict): a key absent from [override]
    keeps its value; a key of [override] gets the override value, except
    that a dict over a dict is merged recursively; the keys of [base]
    keep their order and the new keys follow in [override]'s order. *)
Theorem deep_merge_spec b o :
  NoDup (map fst o) ->
  (forall k, ~ In k (map fst o) -> dict_get (merge_into b (JObj o)) k = dict_get b k)
  /\ (forall k v, In (k, v) o ->
        dict_get (merge_into b (JObj o)) k = Some (merged_value (dict_get b k) v))
  /\ map fst (merge_into b (JObj o))
     = app (map fst b) (List.filter (fun k => negb (has_key b k)) (map fst o)).
Proof.
  intros Hnd. split; [intros k; apply merge_into_get_other|]. split.
  - revert b Hnd. induction o as [|[k' v'] o IH]; intros b Hnd k v Hin; [done|].
    rewrite merge_into_cons. simpl in Hnd. apply NoDup_cons in Hnd as [Hk' Hnd]. rewrite list_elem_of_In in Hk'.
    destruct Hin as [Heq|Hin].
    + injection Heq as <- <-. rewrite merge_into_get_other by exact Hk'.
      apply dict_get_set_eq.
    + rewrite (IH _ Hnd _ _ Hin). f_equal. f_equal. apply dict_get_set_ne.
      intros ->. apply Hk'. apply (in_map fst _ (k', v) Hin).
  - revert b Hnd. induction o as [|[k v] o IH]; intros b Hnd.
    { simpl. by rewrite app_nil_r. }
    rewrite merge_into_cons. simpl in Hnd. apply NoDup_cons in Hnd as [Hk Hnd]. rewrite list_elem_of_In in Hk.
    rewrite (IH _ Hnd).
    rewrite (filter_ext_in _ (fun k0 => negb (has_key b k0))).
    2: { intros k0 Hin. rewrite has_key_set.
         destruct (String.eqb_spec k0 k) as [->|]; [done|by rewrite orb_false_r]. }
    rewrite dict_set_keys. simpl.
    destruct (has_key b k); simpl; [done|]. by rewrite <- app_assoc.
Qed.

Section Config.
Variable can_write : string -> bool.
Variable json_load : string -> exn + json.
Variable json_dump : json -> string.
Variable type_error : json -> string -> string.

Lemma app_neq_self (p q : string) : q <> "" -> p ++ q <> p.
Proof.
  intros Hq. induction p as [|x p IH]; [exact Hq|].
  rewrite str_app_cons. intros E. injection E. exact IH.
Qed.

Lemma backup_path_neq cp r : cp ++ ".bak.r" ++ z_to_str r <> cp.
Proof. apply app_neq_self. discriminate. Qed.

Lemma apply_config_patch_cases cp ch r s o s' :
  apply_config_patch can_write json_load json_dump type_error cp ch r s = (o, s') ->
  (exists text cfg merged,
      s !! cp = Some text /\ json_load text = inr cfg
      /\ deep_merge type_error cfg ch = inr merged
      /\ can_write (cp ++ ".bak.r" ++ z_to_str r) = true /\ can_write cp = true
      /\ o = inr {| c_success := true; c_backup := cp ++ ".bak.r" ++ z_to_str r;
                    c_errors := [] |}
      /\ s' = <[cp := json_dump merged]> (<[cp ++ ".bak.r" ++ z_to_str r := text]> s))
  \/ (exists e, o = inr {| c_success := false; c_backup := ""; c_errors := [exn_str e] |}
      /\ (s' = s \/ exists text, s !! cp = Some text
                                 /\ s' = <[cp ++ ".bak.r" ++ z_to_str r := text]> s)
      /\ (forall text cfg merged,
            s !! cp = Some text -> json_load text = inr cfg ->
            deep_merge type_error cfg ch = inr merged ->
            can_write (cp ++ ".bak.r" ++ z_to_str r) = false \/ can_write cp = false)).
Proof.
  pose proof (backup_path_neq cp r) as Hbk.
  set (bk := cp ++ ".bak.r" ++ z_to_str r) in *.
  unfold apply_config_patch, try_except, bind, read_file. fold bk.
  destruct (s !! cp) as [text|] eqn:Hcp.
  2: { intros H. unfold ret in H. injection H as <- <-. right. eexists (PyExn "FileNotFoundError" _).
       split; [reflexivity|]. split; [by left|]. intros ? ? ? Hx. congruence. }
  destruct (json_load text) as [e|cfg] eqn:Hj; simpl.
  { intros H. injection H as <- <-. right. exists e.
    split; [reflexivity|]. split; [by left|]. intros ? ? ? Hx Hy. congruence. }
  unfold copy2. rewrite Hcp.
  destruct (String.eqb_spec cp bk) as [E|_]; [exfalso; by apply Hbk|].
  destruct (can_write bk) eqn:Hwb.
  2: { intros H. injection H as <- <-. right. exists (PyExn "OSError" bk).
       split; [reflexivity|]. split; [by left|]. intros. by left. }
  destruct (deep_merge type_error cfg ch) as [e|merged] eqn:Hd; simpl.
  { intros H. injection H as <- <-. right. exists e.
    split; [reflexivity|]. split; [right; by exists text|].
    intros ? ? ? Hx Hy Hz. congruence. }
  unfold write_file. destruct (can_write cp) eqn:Hwc.
  - intros H. injection H as <- <-. left. by exists text, cfg, merged.
  - intros H. injection H as <- <-. right. exists (PyExn "OSError" cp).
    split; [reflexivity|]. split; [right; by exists text|]. intros. by right.
Qed.


(** [apply_config_patch] never raises. On success it reports the backup
    [config_path + ".bak.r{round_num}"] and no error; the config file
    then holds the dump of the merged config, the backup the old text,
    and no other file changed. On failure it reports an empty backup
    and one error, and no file other than the config file and the backup
    path changed. *)
Theorem apply_config_patch_outcome cp ch r s o s' :
  apply_config_patch can_write json_load json_dump type_error cp ch r s = (o, s') ->
  exists res, o = inr res
  /\ (c_success res = true ->
        c_backup res = cp ++ ".bak.r" ++ z_to_str r /\ c_errors res = []
        /\ exists text cfg merged,
             s !! cp = Some text /\ json_load text = inr cfg
             /\ deep_merge type_error cfg ch = inr merged
             /\ s' !! cp = Some (json_dump merged)
             /\ s' !! (cp ++ ".bak.r" ++ z_to_str r) = Some text
             /\ forall p, p <> cp -> p <> cp ++ ".bak.r" ++ z_to_str r -> s' !! p = s !! p)
  /\ (c_success res = false ->
        c_backup res = "" /\ length (c_errors res) = 1
        /\ forall p, p <> cp -> p <> cp ++ ".bak.r" ++ z_to_str r -> s' !! p = s !! p).
Proof.
  intros H. pose proof (backup_path_neq cp r) as Hbk.
  destruct (apply_config_patch_cases _ _ _ _ _ _ H)
    as [[text [cfg [merged [Hcp [Hj [Hd [_ [_ [-> ->]]]]]]]]]
       |[e [-> [Hs _]]]].
  - eexists. split; [reflexivity|]. split; [|discriminate]. intros _.
    split; [done|]. split; [done|]. exists text, cfg, merged.
    do 3 (split; [done|]). split; [by rewrite lookup_insert_eq|].
    split.
    + rewrite lookup_insert_ne by congruence. by rewrite lookup_insert_eq.
    + intros p Hp1 Hp2. rewrite !lookup_insert_ne by congruence. done.
  - eexists. split; [reflexivity|]. split; [discriminate|]. intros _.
    split; [done|]. split; [done|].
    destruct Hs as [->|[text [Hcp ->]]]; [done|].
    intros p _ Hp. rewrite lookup_insert_ne by congruence. done.
Qed.

(** [apply_config_patch] succeeds only when the config file exists,
    parses as JSON, and is a JSON object or the patch is empty (merging
    into any other value raises [TypeError]). *)
Theorem apply_config_patch_success_requires cp ch r s res s' :
  apply_config_patch can_write json_load json_dump type_error cp ch r s = (inr res, s') ->
  c_success res = true ->
  exists text cfg, s !! cp = Some text /\ json_load text = inr cfg
                   /\ ((exists b, cfg = JObj b) \/ ch = []).
Proof.
  intros H.
  destruct (apply_config_patch_cases _ _ _ _ _ _ H)
    as [[text [cfg [merged [Hcp [Hj [Hd [_ [_ [Ho _]]]]]]]]]
       |[e [Ho [_ Hno]]]]; injection Ho as ->; simpl.
  - intros _. exists text, cfg. split; [done|]. split; [done|].
    unfold deep_merge in Hd. destruct cfg; try (left; by eexists);
      destruct ch as [|[]]; first [by right | discriminate].
  - discriminate.
Qed.

End Config.
End StrategyConfigExtra.

Module ErrorRecoveryExtra.
Import PyText StrategyModifier StrategyModifierFacts ErrorRecovery RollbackExtra.




Section Recovery.
Variable parse_python : string -> option string.
Variable stoploss_float : string -> option (bool * string).
Variable can_write : string -> bool.
Variable unicode_isalnum : Z -> bool.
Variable select_latest : list string -> string.
Variable syntax_error_str : string -> string.
Variable generate_fix_patch : Z -> string -> string -> exn + (string * string).
Variable backtest_run : option string -> fs -> Orchestrator.BacktestResult.
Variable now_ts : Z -> string.

(** [rollback_on_exhausted(round_num)]: below round 2 it reports
    [rollback_failed] for round 0 and touches nothing; otherwise it
    reports [quarantined] for round [round_num - 1] exactly when a backup
    of that round exists, the strategy file then holding that backup's
    content, and [rollback_failed] with no file changed when none exists;
    when the copy raises, no file other than the strategy file changed. *)
Theorem rollback_on_exhausted_outcome self r s o s' :
  (forall l, l <> [] -> In (select_latest l) l) ->
  rollback_on_exhausted can_write select_latest self r s = (o, s') ->
  ((r <= 1)%Z ->
     o = inr {| rolled_back := false; rollback_round := 0;
                rb_status := "rollback_failed" |} /\ s' = s)
  /\ ((1 < r)%Z ->
       (o = inr {| rolled_back := false; rollback_round := r - 1;
                   rb_status := "rollback_failed" |}
        /\ s' = s
        /\ forall p, is_Some (s !! p) ->
             glob_match (backup_dir (strategy_modifier self)) (r - 1) p = false)
       \/ (o = inr {| rolled_back := true; rollback_round := r - 1;
                      rb_status := "quarantined" |}
           /\ exists b c, glob_match (backup_dir (strategy_modifier self)) (r - 1) b = true
                          /\ s !! b = Some c
                          /\ s' = <[strategy_path (strategy_modifier self) := c]> s)
       \/ (exists e, o = inl e
                     /\ forall p, p <> strategy_path (strategy_modifier self) ->
                                 s' !! p = s !! p)).
Proof.
  intros Hsel. unfold rollback_on_exhausted. cbv zeta.
  destruct (r - 1 <? 1)%Z eqn:E.
  - intros H. injection H as <- <-. split; [done|]. apply Z.ltb_lt in E. lia.
  - apply Z.ltb_ge in E. intros H. split; [lia|]. intros _.
    unfold bind in H.
    destruct (rollback can_write select_latest (strategy_modifier self) (r - 1) s)
      as [o1 s1] eqn:Hr.
    destruct (rollback_cases can_write select_latest _ _ _ _ _ Hsel Hr)
      as [[-> [-> Hn]] | [[-> [b [c [Hg [Hc [_ ->]]]]]] | [e [-> [-> _]]]]].
    + unfold ret in H. injection H as <- <-. by left.
    + unfold ret in H. injection H as <- <-. right. left. split; [done|]. by exists b, c.
    + injection H as <- <-. right. right. by exists e.
Qed.

Lemma repair_loop_outcome self fuel attempt round_num timerange error_type
    last_error current_code s res s' :
  repair_loop parse_python stoploss_float can_write unicode_isalnum syntax_error_str generate_fix_patch
    backtest_run now_ts self fuel attempt round_num timerange error_type
    last_error current_code s = (inr res, s') ->
  fx_error_type res = error_type
  /\ (fx_success res = false -> res = exhausted_result self error_type)
  /\ (fx_success res = true ->
        (attempt <= fx_attempts res < attempt + Z.of_nat fuel)%Z
        /\ exists code ws,
             parse_python code = None
             /\ safety_check stoploss_float code = inr ([], ws)
             /\ s' !! strategy_path (strategy_modifier self) = Some code
             /\ Orchestrator.bt_success
                  (backtest_run (match timerange with
                                 | Some EmptyString => None | t => t end) s') = true
             /\ fx_metrics res
                = Orchestrator.bt_metrics
                    (backtest_run (match timerange with
                                   | Some EmptyString => None | t => t end) s')).
Proof.
  revert attempt last_error current_code s.
  induction fuel as [|fuel IH]; intros attempt last_error current_code s H.
  - simpl in H. unfold ret in H. injection H as <- <-.
    split; [done|]. split; [done|]. discriminate.
  - simpl in H.
    assert (Hnext : forall a le cc s0,
               repair_loop parse_python stoploss_float can_write unicode_isalnum syntax_error_str
                 generate_fix_patch backtest_run now_ts self fuel a round_num timerange
                 error_type le cc s0 = (inr res, s') ->
               a = (attempt + 1)%Z ->
               fx_error_type res = error_type
               /\ (fx_success res = false -> res = exhausted_result self error_type)
               /\ (fx_success res = true ->
                     (attempt <= fx_attempts res < attempt + Z.of_nat (S fuel))%Z
                     /\ exists code ws,
                          parse_python code = None
                          /\ safety_check stoploss_float code = inr ([], ws)
                          /\ s' !! strategy_path (strategy_modifier self) = Some code
                          /\ Orchestrator.bt_success
                               (backtest_run (match timerange with
                                              | Some EmptyString => None | t => t end) s')
                             = true
                          /\ fx_metrics res
                             = Orchestrator.bt_metrics
                                 (backtest_run (match timerange with
                                                | Some EmptyString => None | t => t end) s'))).
    { intros a le cc s0 Hl ->. destruct (IH _ _ _ _ Hl) as [Ht [Hf Hs]].
      split; [done|]. split; [done|]. intros Hok. destruct (Hs Hok) as [Hb Hc].
      split; [lia|done]. }
    destruct (generate_fix_patch _ _ _) as [e|[patched summary]].
    { exact (Hnext _ _ _ _ H eq_refl). }
    destruct (String.eqb patched "").
    { exact (Hnext _ _ _ _ H eq_refl). }
    destruct (parse_python patched) as [msg|] eqn:Hp.
    { exact (Hnext _ _ _ _ H eq_refl). }
    unfold bind in H.
    destruct (apply_patch parse_python stoploss_float can_write unicode_isalnum (strategy_modifier self)
                patched round_num _ (now_ts attempt) s) as [[e|pr] s1] eqn:Hap;
      [discriminate|].
    destruct (success pr) eqn:Hok; cbn [negb] in H.
    2: { exact (Hnext _ _ _ _ H eq_refl). }
    cbv zeta in H.
    destruct (Orchestrator.bt_success
                (backtest_run (match timerange with
                               | Some EmptyString => None | t => t end) s1)) eqn:Hbt.
    2: { exact (Hnext _ _ _ _ H eq_refl). }
    injection H as <- <-. simpl.
    split; [done|]. split; [discriminate|]. intros _. split; [lia|].
    destruct (apply_patch_success_inv parse_python stoploss_float can_write unicode_isalnum
                _ _ _ _ _ _ _ _ Hap Hok) as [_ [ws [s2 [Hsafe [_ [Ha _]]]]]].
    exists patched, ws. split; [done|]. split; [done|].
    split; [|split; [exact Hbt|reflexivity]].
    rewrite (atomic_write_inv can_write _ _ _ _ Ha). by rewrite lookup_insert_eq.
Qed.

(** [attempt_fix] with [max_retries <= 0] calls neither the LLM nor the
    backtest and touches no file: it reports failure with
    [attempts = max_retries] and [fix_summary = "exhausted"]. *)
Theorem attempt_fix_no_retries self error_log current_code round_num timerange s :
  (max_retries self <= 0)%Z ->
  attempt_fix parse_python stoploss_float can_write unicode_isalnum syntax_error_str generate_fix_patch
    backtest_run now_ts self error_log current_code round_num timerange s
  = (inr {| fx_success := false; fx_attempts := max_retries self;
            fx_error_type := classify_error error_log; fx_fix_summary := "exhausted";
            fx_metrics := ∅ |}, s).
Proof.
  intros H. unfold attempt_fix. replace (Z.to_nat (max_retries self)) with O by lia.
  reflexivity.
Qed.

(** The result of [attempt_fix]: its [error_type] is the classification
    of the original log; a failure reports [attempts = max_retries],
    [fix_summary = "exhausted"] and no metrics; a success reports an
    attempt number in [1..max_retries], and then the strategy file holds
    a candidate that passed the syntax and safety checks, the backtest
    succeeded on exactly those files, and the returned metrics are that
    backtest's metrics. *)
Theorem attempt_fix_outcome self error_log current_code round_num timerange s res s' :
  attempt_fix parse_python stoploss_float can_write unicode_isalnum syntax_error_str generate_fix_patch
    backtest_run now_ts self error_log current_code round_num timerange s = (inr res, s') ->
  fx_error_type res = classify_error error_log
  /\ (fx_success res = false ->
        fx_attempts res = max_retries self /\ fx_fix_summary res = "exhausted"
        /\ fx_metrics res = ∅)
  /\ (fx_success res = true ->
        (1 <= fx_attempts res <= max_retries self)%Z
        /\ exists code ws,
             parse_python code = None
             /\ safety_check stoploss_float code = inr ([], ws)
             /\ s' !! strategy_path (strategy_modifier self) = Some code
             /\ Orchestrator.bt_success
                  (backtest_run (match timerange with
                                 | Some EmptyString => None | t => t end) s') = true
             /\ fx_metrics res
                = Orchestrator.bt_metrics
                    (backtest_run (match timerange with
                                   | Some EmptyString => None | t => t end) s')).
Proof.
  unfold attempt_fix. intros H.
  destruct (repair_loop_outcome _ _ _ _ _ _ _ _ _ _ _ H) as [Ht [Hf Hs]].
  split; [done|]. split.
  - intros Hok. rewrite (Hf Hok). done.
  - intros Hok. destruct (Hs Hok) as [Hb Hc]. split; [|done].
    destruct (Z_le_gt_dec 0 (max_retries self)); [rewrite Z2Nat.id in Hb by done; lia|].
    rewrite Z2Nat.nonpos in Hb by lia. lia.
Qed.

End Recovery.
End ErrorRecoveryExtra.

Module EvaluatorExtra.
Import PyNum PyNumFacts Evaluator EvaluatorFacts.
Import Lqa.
Local Open Scope Q_scope.

Lemma mget_empty k d : mget ∅ k d = d.
Proof. unfold mget. by rewrite lookup_empty. Qed.

Lemma round_half_even_Z (z : Z) : round_half_even (inject_Z z) = z.
Proof.
  unfold round_half_even. rewrite Qfloor_Z.
  assert (E : Qltb (inject_Z z - inject_Z z) (1 # 2) = true).
  { apply Qltb_iff. unfold Qminus. rewrite Qplus_opp_r. reflexivity. }
  by rewrite E.
Qed.

Lemma py_round_idem (x : Q) (n : nat) : py_round (py_round x n) n = py_round x n.
Proof.
  unfold py_round. f_equal.
  set (z := round_half_even (x * inject_Z (Z.pos (pow10 n)))).
  transitivity (round_half_even (inject_Z z)); [|apply round_half_even_Z].
  apply round_half_even_comp.
  unfold Qmult, inject_Z, Qeq. simpl. lia.
Qed.

Lemma fold_join_prefix (sep : string) rest (acc : string) :
  exists t, fold_left (fun acc y => acc ++ sep ++ y) rest acc = acc ++ t.
Proof.
  revert acc. induction rest as [|y rest IH]; intros acc; simpl.
  - exists "". symmetry. apply PyStrFacts.append_empty_r.
  - destruct (IH (acc ++ sep ++ y)) as [t ->]. exists ((sep ++ y) ++ t).
    apply StrategyModifierFacts.str_app_assoc.
Qed.

Lemma py_join_nonempty sep x rest : x <> "" -> py_join sep (x :: rest) <> "".
Proof.
  intros Hx. simpl. destruct (fold_join_prefix sep rest x) as [t ->].
  destruct x; [done|discriminate].
Qed.

Definition GOOD_REC : string := "策略表现良好, 可尝试微调 trailing stop 参数优化".
Definition MID_REC : string := "策略中等, 建议调整入场/出场参数组合".

(** None of the diagnostic rules of [_generate_recommendation] fires. *)
Definition no_rule_fires (m : metrics) : Prop :=
  50 <= mget m "total_trades" 0
  /\ 25 # 100 <= mget m "weekly_target_hit_rate" 0
  /\ 0 <= mget m "avg_profit_per_trade_pct" 0
  /\ 5 # 10 <= mget m "avg_trade_duration_hours" 0 <= 72.

Lemma cond_app_nil {A} (b : bool) (x : list A) (y : list A) :
  b = false -> ((if b then x else []) ++ y)%list = y.
Proof. by intros ->. Qed.


(** [EvalResult.to_dict()] reports the same score as [evaluate]: the
    score is already rounded to 2 places, and rounding it again changes
    nothing. *)
Theorem to_dict_score fmt self m :
  d_score (to_dict (evaluate fmt self m)) = score (evaluate fmt self m).
Proof.
  change (py_round (score (evaluate fmt self m)) 2 = score (evaluate fmt self m)).
  rewrite evaluate_score_eq. apply py_round_idem.
Qed.

Ltac rec_contra :=
  match goal with
  | E : Qltb _ _ = true |- _ => apply Qltb_iff in E; lra
  end.

(** [_generate_recommendation] never returns an empty string and never
    looks at the gate failures. When no diagnostic rule fires (at least
    50 trades, weekly hit rate at least 25%, no average loss, duration
    between 0.5 and 72 hours) it returns one of two fixed messages,
    chosen by [score > 50]; when a rule fires the score does not matter. *)
Theorem generate_recommendation_shape fmt m failures sc :
  generate_recommendation fmt m failures sc <> ""
  /\ (forall failures', generate_recommendation fmt m failures' sc
                        = generate_recommendation fmt m failures sc)
  /\ (no_rule_fires m ->
        (50 < sc -> generate_recommendation fmt m failures sc = GOOD_REC)
        /\ (sc <= 50 -> generate_recommendation fmt m failures sc = MID_REC))
  /\ (~ no_rule_fires m ->
        forall sc', generate_recommendation fmt m failures sc'
                    = generate_recommendation fmt m failures sc).
Proof.
  unfold generate_recommendation, no_rule_fires.
  destruct (Qltb (mget m "total_trades" 0) 50) eqn:E1;
  destruct (Qltb (mget m "weekly_target_hit_rate" 0) (10 # 100)) eqn:E2;
  destruct (Qltb (mget m "weekly_target_hit_rate" 0) (25 # 100)) eqn:E3;
  destruct (Qltb (mget m "avg_profit_per_trade_pct" 0) 0) eqn:E4;
  destruct (Qltb 72 (mget m "avg_trade_duration_hours" 0)) eqn:E5;
  destruct (Qltb (mget m "avg_trade_duration_hours" 0) (5 # 10)) eqn:E6;
  cbn [app];
  (split; [|split; [reflexivity|split]]);
  first
    [ (apply py_join_nonempty; rewrite ?StrategyModifierFacts.str_app_cons; discriminate)
    | (destruct (Qltb 50 sc); discriminate)
    | (intros [H1 [H2 [H3 [H4 H5]]]]; exfalso; rec_contra)
    | (intros _; reflexivity)
    | (intros Hn; exfalso; apply Hn;
       apply Qltb_false_iff in E1, E3, E4, E5, E6; repeat split; assumption)
    | (intros _; split; intros Hs;
       [ apply Qltb_iff in Hs; by rewrite Hs
       | apply Qltb_false_iff in Hs; by rewrite Hs ]) ].
Qed.

(** [evaluate] on an empty metrics dict, under criteria with positive
    hit-rate and trade minimums and non-negative other limits: it fails
    exactly the hit-rate, trade-count and monthly-profit gates (every
    missing metric counts as 0); the score is the trade-efficiency term
    alone, with the missing duration taken as 24 hours; the
    recommendation reads the missing duration as 0 hours and reports too
    few trades, a very low hit rate and too short holding times. *)
Theorem evaluate_empty_metrics fmt self :
  let c := criteria self in
  0 < weekly_target_hit_rate_min c -> 0 <= max_drawdown_pct_max c ->
  0 < total_trades_min c -> 0 <= stake_limit_hit_count_max c ->
  0 <= monthly_net_profit_avg_min c ->
  passed (evaluate fmt self ∅) = false
  /\ gate_failures (evaluate fmt self ∅)
     = ["weekly_target_hit_rate=" ++ fmt ".2%" 0 ++ " < "
          ++ fmt ".2%" (weekly_target_hit_rate_min c);
        "total_trades=" ++ fmt "" 0 ++ " < " ++ fmt "" (total_trades_min c);
        "monthly_net_profit_avg=" ++ fmt ".2f" 0 ++ " <= "
          ++ fmt "" (monthly_net_profit_avg_min c)]
  /\ score (evaluate fmt self ∅) = py_round (trade_efficiency_w (weights self) * 100 / 24) 2
  /\ recommendation (evaluate fmt self ∅)
     = py_join " | "
         ["交易次数不足(" ++ fmt "" 0 ++ "), 建议放宽入场条件或增加交易对";
          "周达标率过低, 考虑: 1) 降低目标倍数 2) 增加杠杆(风险更高) 3) 优化入场时机";
          "持仓时间过短(<30min), 可能频繁被止损扫出"].
Proof.
  intros c H1 H2 H3 H4 H5.
  assert (G : gate_check fmt self ∅
              = ["weekly_target_hit_rate=" ++ fmt ".2%" 0 ++ " < "
                   ++ fmt ".2%" (weekly_target_hit_rate_min c);
                 "total_trades=" ++ fmt "" 0 ++ " < " ++ fmt "" (total_trades_min c);
                 "monthly_net_profit_avg=" ++ fmt ".2f" 0 ++ " <= "
                   ++ fmt "" (monthly_net_profit_avg_min c)]).
  { unfold gate_check. rewrite !mget_empty. fold c.
    apply Qltb_iff in H1, H3. rewrite H1, H3.
    apply Qltb_false_iff in H2, H4. rewrite H2, H4.
    apply Qle_bool_iff in H5. by rewrite H5. }
  unfold evaluate. rewrite G. simpl. split; [done|]. split; [done|]. split.
  - apply py_round_comp. rewrite !mget_empty. simpl. field.
  - unfold generate_recommendation. rewrite !mget_empty. reflexivity.
Qed.

End EvaluatorExtra.

Module OrchestratorExtra.
Import PyNum PyNumFacts Evaluator EvaluatorFacts Orchestrator OrchestratorFacts.
Import Lqa.
Local Open Scope Q_scope.

Lemma Qle_div_iff (a b c : Q) : 0 < c -> (a <= b / c <-> a * c <= b).
Proof.
  intros Hc. split.
  - intros H. apply (Qmult_le_compat_r _ _ c) in H; [|lra].
    assert (E : b / c * c == b).
    { field. intros E. rewrite E in Hc. discriminate. }
    rewrite E in H. exact H.
  - apply Qle_shift_div_l. exact Hc.
Qed.

Lemma compare_is_oos_pass_iff fmt ev is_r oos_r :
  0 < oos_score_ratio_min ev ->
  fst (compare_is_oos fmt ev is_r oos_r) = true
  <-> 0 < Evaluator.score is_r /\ oos_score_ratio_min ev * Evaluator.score is_r <= Evaluator.score oos_r.
Proof.
  intros Hmin. unfold compare_is_oos.
  destruct (Qeq_bool (Evaluator.score is_r) 0) eqn:E0.
  { apply Qeq_bool_iff in E0. simpl. split; [discriminate|]. intros [H _].
    rewrite E0 in H. discriminate. }
  destruct (Qltb 0 (Evaluator.score is_r)) eqn:E1.
  - apply Qltb_iff in E1.
    destruct (Qltb (Evaluator.score oos_r / Evaluator.score is_r) (oos_score_ratio_min ev)) eqn:E2; simpl.
    + apply Qltb_iff in E2. split; [discriminate|]. intros [_ H].
      apply Qle_div_iff in H; [lra|exact E1].
    + apply Qltb_false_iff in E2. split; [intros _|done].
      split; [exact E1|]. exact (proj1 (Qle_div_iff _ _ _ E1) E2).
  - apply Qltb_false_iff in E1.
    assert (E2 : Qltb 0 (oos_score_ratio_min ev) = true) by (by apply Qltb_iff).
    rewrite E2. simpl. split; [discriminate|]. intros [H _]. lra.
Qed.

(** [run_walk_forward()] (with a positive OOS/IS ratio threshold)
    passes exactly when no OOS timerange is configured (absent or
    empty), or when both the OOS and the IS backtests succeed, the IS
    score is positive and the OOS score is at least the threshold times
    the IS score. *)
Theorem run_walk_forward_pass_iff fmt ev too tis run :
  0 < oos_score_ratio_min ev ->
  fst (run_walk_forward fmt ev too tis run) = true
  <-> (too = None \/ too = Some "")
      \/ (exists t, too = Some t /\ t <> ""
          /\ bt_success (run (Some t)) = true /\ bt_success (run tis) = true
          /\ 0 < Evaluator.score (evaluate fmt ev (bt_metrics (run tis)))
          /\ oos_score_ratio_min ev * Evaluator.score (evaluate fmt ev (bt_metrics (run tis)))
             <= Evaluator.score (evaluate fmt ev (bt_metrics (run (Some t))))).
Proof.
  intros Hmin. unfold run_walk_forward.
  destruct too as [[|c t]|].
  - split; [intros _; left; by right|done].
  - remember (String c t) as t' eqn:Et.
    destruct (bt_success (run (Some t'))) eqn:Eo; simpl.
    2: { split; [discriminate|]. intros [[H|H]|[t0 [H [_ [H1 _]]]]]; subst; congruence. }
    destruct (bt_success (run tis)) eqn:Ei; simpl.
    2: { split; [discriminate|]. intros [[H|H]|[t0 [H [_ [_ [H1 _]]]]]]; subst; congruence. }
    rewrite (compare_is_oos_pass_iff _ _ _ _ Hmin). split.
    + intros H. right. exists t'. split; [done|]. split; [subst; discriminate|]. tauto.
    + intros [[H|H]|[t0 [H [_ [_ [_ H1]]]]]];
        [subst; discriminate|subst; discriminate|injection H as <-; exact H1].
  - split; [intros _; by left; left|done].
Qed.

Lemma loop_shape fmt rsr wf en lim fuel n rounds :
  let res := loop fmt rsr wf en lim fuel n rounds in
  (length rounds <= length res <= length rounds + fuel)%nat
  /\ ((length res < length rounds + fuel)%nat ->
      exists reason r, last res = Some r /\ next_action r = "STOP: " ++ reason).
Proof.
  revert n rounds. induction fuel as [|fuel IH]; intros n rounds res.
  - subst res. simpl. split; [lia|lia].
  - subst res. cbn [loop].
    match goal with |- context [ (rounds ++ [?r])%list ] => set (rr := r) end.
    destruct (check_termination fmt lim (rounds ++ [rr])) as [[] reason].
    + rewrite set_last_action_snoc, length_app. simpl. split; [lia|].
      intros _. exists reason, (set_next_action rr ("STOP: " ++ reason)).
      split; [apply last_snoc|reflexivity].
    + destruct (IH (S n) (rounds ++ [rr])%list) as [[H1 H2] H3].
      rewrite length_app in H1, H2, H3. simpl in H1, H2, H3.
      split; [lia|]. intros Hl. apply H3. lia.
Qed.

(** [run_iteration_loop(max_rounds)] returns at most [max_rounds]
    rounds (none for [max_rounds <= 0]); when it returns fewer, it
    stopped early and the last round's [next_action] is
    ["STOP: " + reason]. *)
Theorem run_iteration_loop_bounded fmt rsr wf en lim cap :
  let rounds := run_iteration_loop fmt rsr wf en lim cap in
  (length rounds <= Z.to_nat cap)%nat
  /\ ((length rounds < Z.to_nat cap)%nat ->
      exists reason r, last rounds = Some r /\ next_action r = "STOP: " ++ reason).
Proof.
  intros rounds. destruct (loop_shape fmt rsr wf en lim (Z.to_nat cap) 1 []) as [[_ H1] H2].
  simpl in H1, H2. split; [exact H1|exact H2].
Qed.

Lemma filter_idem {A} (f : A -> bool) (l : list A) :
  List.filter f (List.filter f l) = List.filter f l.
Proof.
  induction l as [|x l IH]; simpl; [done|].
  destruct (f x) eqn:E; simpl; [rewrite E|]; by rewrite IH.
Qed.

(** With a positive [stale_rounds_limit], [_check_termination] only
    looks at the successful rounds: dropping the failed (or
    overfitting) rounds does not change its answer. *)
Theorem check_termination_ignores_failed fmt lim rounds :
  (0 < lim)%Z ->
  check_termination fmt lim rounds = check_termination fmt lim (List.filter is_success rounds).
Proof.
  intros Hlim. destruct rounds as [|r rs]; [done|].
  unfold check_termination at 1. cbv zeta.
  destruct (List.filter is_success (r :: rs)) as [|x xs] eqn:F.
  - simpl. destruct (lim <=? Z.of_nat 0)%Z eqn:E; [apply Z.leb_le in E; lia|done].
  - unfold check_termination. rewrite <- F, filter_idem, F. reflexivity.
Qed.

(** With [stale_rounds_limit <= 0] and [max_rounds >= 1], the loop
    stops after its first round, whatever that round's outcome: it
    returns one round whose [next_action] is ["STOP: " + reason]. *)
Theorem run_iteration_loop_nonpositive_limit fmt rsr wf en lim cap :
  (lim <= 0)%Z -> (1 <= cap)%Z ->
  exists r reason, run_iteration_loop fmt rsr wf en lim cap = [r]
                   /\ next_action r = "STOP: " ++ reason.
Proof.
  intros Hlim Hcap. unfold run_iteration_loop.
  destruct (Z.to_nat cap) as [|k] eqn:Ek; [lia|]. cbn [loop].
  match goal with |- context [ ([] ++ [?r])%list ] => set (rr := r) end.
  simpl app.
  assert (Hs : exists reason, check_termination fmt lim [rr] = (true, reason)).
  { unfold check_termination. cbv zeta.
    assert (E1 : (lim <=? Z.of_nat (length (List.filter is_success [rr])))%Z = true)
      by (apply Z.leb_le; lia).
    rewrite E1. unfold py_slice_from.
    assert (E2 : (0 <=? - lim)%Z = true) by (apply Z.leb_le; lia). rewrite E2.
    simpl List.filter. destruct (is_success rr); destruct (Z.to_nat (- lim)) as [|n'];
      simpl; rewrite ?drop_nil; simpl; eexists; reflexivity. }
  destruct Hs as [reason ->].
  exists (set_next_action rr ("STOP: " ++ reason)), reason. split; [|reflexivity].
  exact (set_last_action_snoc [] rr _).
Qed.

End OrchestratorExtra.

Module TargetOptimizerExtra.
Import TargetOptimizer TargetOptimizerFacts.
Local Open Scope R_scope.

Lemma Int_part_mono (x y : R) : x <= y -> (Int_part x <= Int_part y)%Z.
Proof.
  intros Hxy. destruct (base_Int_part x) as [Hx1 Hx2].
  destruct (base_Int_part y) as [Hy1 Hy2].
  destruct (Z_le_gt_dec (Int_part x) (Int_part y)) as [|Hgt]; [done|].
  exfalso. assert (E : (Int_part y + 1 <= Int_part x)%Z) by lia.
  apply IZR_le in E. rewrite plus_IZR in E. simpl in E. lra.
Qed.

Lemma round_half_even_mono (x y : R) : x <= y -> (round_half_even x <= round_half_even y)%Z.
Proof.
  intros Hxy. pose proof (Int_part_mono x y Hxy) as Hm.
  unfold round_half_even. cbv zeta.
  destruct (Z.eq_dec (Int_part x) (Int_part y)) as [E|Hne].
  - rewrite E. destruct (Z.even (Int_part y));
      repeat destruct Rlt_dec; try lia; lra.
  - destruct (Z.even (Int_part x)), (Z.even (Int_part y));
      repeat destruct Rlt_dec; lia.
Qed.

Lemma py_round_mono (x y : R) (n : nat) : x <= y -> py_round x n <= py_round y n.
Proof.
  intros Hxy. unfold py_round. pose proof (pow10_pos n) as Hp.
  apply Rmult_le_compat_r; [left; apply Rinv_0_lt_compat; lra|].
  apply IZR_le, round_half_even_mono. apply Rmult_le_compat_r; lra.
Qed.

Lemma norm_term_mono (self : Optimizer) key d d' :
  0 <= dget (weights self) key 1 -> d' <= d ->
  norm_term self (key, d') <= norm_term self (key, d).
Proof.
  intros Hw Hd. unfold norm_term.
  set (t := dget (target_profile self) key 1).
  destruct (Rle_dec d' 0), (Rle_dec d 0); try lra.
  - apply Rmult_le_pos; [done|apply pow2_ge_0].
  - apply Rmult_le_compat_l; [done|].
    destruct (Req_EM_T t 0).
    + apply pow_incr. lra.
    + assert (Ht : 0 < Rabs t) by (apply Rabs_pos_lt; done).
      apply pow_incr. split.
      * apply Rmult_le_pos; [lra|left; apply Rinv_0_lt_compat; lra].
      * apply Rmult_le_compat_r; [left; apply Rinv_0_lt_compat; lra|lra].
Qed.

Lemma sum_terms_mono (self : Optimizer) (cur cur' : gmap string R) (l : dict) :
  (forall k w, In (k, w) (weights self) -> 0 <= w) ->
  (forall key t, In (key, t) l -> delta_of cur' key t <= delta_of cur key t) ->
  fold_right Rplus 0 (map (norm_term self)
    (map (fun '(key, target_val) => (key, delta_of cur' key target_val)) l))
  <= fold_right Rplus 0 (map (norm_term self)
    (map (fun '(key, target_val) => (key, delta_of cur key target_val)) l)).
Proof.
  intros Hw. induction l as [|[k t] l IH]; intros Hd; simpl; [lra|].
  apply Rplus_le_compat.
  - apply norm_term_mono; [apply dget_nonneg; [done|lra]|]. apply Hd. by left.
  - apply IH. intros. apply Hd. by right.
Qed.

(** [compute_gap] depends only on the metrics named in the target
    profile: changing or adding any other metric gives the same gap. *)
Theorem compute_gap_ignores_other_metrics self cur round_num k v :
  ~ In k (map fst (target_profile self)) ->
  compute_gap self (<[k := v]> cur) round_num = compute_gap self cur round_num.
Proof.
  intros Hk. unfold compute_gap.
  assert (E : compute_deltas self (<[k := v]> cur) = compute_deltas self cur).
  { unfold compute_deltas. apply map_ext_in. intros [key t] Hin.
    unfold delta_of. rewrite lookup_insert_ne; [done|].
    intros ->. apply Hk. exact (in_map fst _ (key, t) Hin). }
  by rewrite E.
Qed.

(** With non-negative weights, when no metric of the target profile
    moves further from its target (its delta does not grow), the
    weighted norm of the gap does not grow, and a gap in "fine_tune"
    mode stays in "fine_tune" mode. *)
Theorem compute_gap_improvement self cur cur' :
  (forall k w, In (k, w) (weights self) -> 0 <= w) ->
  (forall key t, In (key, t) (target_profile self) ->
                 delta_of cur' key t <= delta_of cur key t) ->
  forall r r' g g',
  compute_gap self cur r = Some g -> compute_gap self cur' r' = Some g' ->
  weighted_norm g' <= weighted_norm g
  /\ (mode g = "fine_tune" -> mode g' = "fine_tune").
Proof.
  intros Hw Hd r r' g g'. unfold compute_gap, weighted_norm_of.
  assert (Hacc : norm_acc self (compute_deltas self cur')
                 <= norm_acc self (compute_deltas self cur)).
  { unfold norm_acc, compute_deltas. rewrite !norm_acc_fold.
    apply Rplus_le_compat_l. by apply sum_terms_mono. }
  destruct (Rlt_dec (norm_acc self (compute_deltas self cur)) 0); [discriminate|].
  destruct (Rlt_dec (norm_acc self (compute_deltas self cur')) 0); [discriminate|].
  intros H H'. injection H as <-. injection H' as <-. simpl.
  pose proof (sqrt_le_1_alt _ _ Hacc) as Hs.
  split; [by apply py_round_mono|].
  destruct (Rlt_dec (sqrt (norm_acc self (compute_deltas self cur)))
                    (fine_tune_threshold self)) as [Hlt|]; [|discriminate].
  intros _. destruct Rlt_dec; [done|lra].
Qed.

End TargetOptimizerExtra.

Module DeviationExtra.
Import PyNum PyNumFacts Comparator.Deviation.
Local Open Scope Q_scope.

Lemma round_half_even_Q_nonneg (x : Q) : 0 <= x -> (0 <= round_half_even x)%Z.
Proof.
  intros Hx. assert (Hf : (0 <= Qfloor x)%Z).
  { change 0%Z with (Qfloor 0). apply Qfloor_resp_le. exact Hx. }
  unfold round_half_even. cbv zeta.
  destruct (Qltb _ (1 # 2)); [lia|]. destruct (Qltb (1 # 2) _); [lia|].
  destruct (Z.even _); lia.
Qed.

Lemma py_round_Q_nonneg (x : Q) (n : nat) : 0 <= x -> 0 <= py_round x n.
Proof.
  intros Hx. unfold py_round.
  assert (H : 0 <= x * inject_Z (Z.pos (pow10 n))).
  { apply Qmult_le_0_compat; [exact Hx|]. unfold Qle; simpl; lia. }
  pose proof (round_half_even_Q_nonneg _ H). unfold Qle; simpl. lia.
Qed.

Lemma pct_diff_nonneg (a b : Q) : 0 <= pct_diff a b.
Proof.
  unfold pct_diff. destruct (Qeq_bool a 0); [destruct (Qeq_bool b 0); discriminate|].
  apply Qmult_le_0_compat; [|discriminate].
  apply Qmult_le_0_compat; [apply Qabs_nonneg|].
  apply Qinv_le_0_compat, Qabs_nonneg.
Qed.

Lemma pct_diff_self (a : Q) : pct_diff a a == 0.
Proof.
  unfold pct_diff. destruct (Qeq_bool a 0) eqn:E; [reflexivity|].
  assert (Z0 : a - a == 0) by (unfold Qminus; apply Qplus_opp_r).
  rewrite Z0. reflexivity.
Qed.

(** [compute_dryrun_deviation] reports non-negative percentages, and
    comparing a metrics dict with itself reports no deviation at all. *)
Theorem dryrun_deviation_nonneg_self bm dm :
  0 <= price_slippage_pct (compute_dryrun_deviation bm dm)
  /\ 0 <= signal_gap_pct (compute_dryrun_deviation bm dm)
  /\ 0 <= pnl_gap_pct (compute_dryrun_deviation bm dm)
  /\ price_slippage_pct (compute_dryrun_deviation bm bm) == 0
  /\ signal_gap_pct (compute_dryrun_deviation bm bm) == 0
  /\ pnl_gap_pct (compute_dryrun_deviation bm bm) == 0.
Proof.
  unfold compute_dryrun_deviation; simpl.
  split; [apply py_round_Q_nonneg, pct_diff_nonneg|].
  split; [apply py_round_Q_nonneg, pct_diff_nonneg|].
  split; [apply py_round_Q_nonneg, pct_diff_nonneg|].
  repeat split; rewrite (py_round_comp _ 0) by apply pct_diff_self; reflexivity.
Qed.

End DeviationExtra.

Module RobustnessExtra.
Import TargetOptimizer TargetOptimizerFacts TargetOptimizerExtra Comparator.Robustness.
Local Open Scope R_scope.

Lemma py_round_100 : py_round 100 2 = 100.
Proof.
  unfold py_round, round_half_even.
  replace (100 * 10 ^ 2) with (IZR 10000) by (simpl; lra).
  rewrite (Int_part_spec (IZR 10000) 10000) by lra. cbv zeta.
  destruct Rlt_dec as [_|H]; [simpl; lra|]. exfalso. apply H. lra.
Qed.

(** [_calc_robustness] always returns a score between 0 and 100. *)
Theorem calc_robustness_range mbw : 0 <= calc_robustness mbw <= 100.
Proof.
  unfold calc_robustness. cbv zeta.
  set (scores := map _ _).
  destruct (Nat.ltb (length scores) 2); [lra|].
  destruct (Req_EM_T (mean scores) 0) as [|Hm]; [lra|].
  assert (Hcv : 0 <= stdev scores / Rabs (mean scores)).
  { apply Rmult_le_pos; [apply sqrt_pos|].
    left. apply Rinv_0_lt_compat, Rabs_pos_lt, Hm. }
  set (x := 100 - _ * 100).
  assert (Hy : 0 <= (if Rlt_dec 0 x then x else 0) <= 100).
  { subst x. destruct Rlt_dec; lra. }
  split.
  - apply py_round_nonneg. lra.
  - rewrite <- py_round_100. apply py_round_mono. lra.
Qed.

Lemma sum_cons (x : R) (l : list R) : sum (x :: l) = x + sum l.
Proof. reflexivity. Qed.

Lemma sum_const (c : R) (l : list R) :
  Forall (fun x => x = c) l -> sum l = INR (length l) * c.
Proof.
  induction 1 as [|x l -> _ IH]; [unfold sum; simpl; lra|].
  rewrite sum_cons, IH. simpl length. rewrite S_INR. lra.
Qed.

Lemma sum_sq_dev_const (c : R) (l : list R) :
  Forall (fun x => x = c) l -> sum (map (fun x => (x - c) ^ 2) l) = 0.
Proof.
  induction 1 as [|x l -> _ IH]; [unfold sum; simpl; lra|].
  rewrite map_cons, sum_cons, IH. lra.
Qed.

(** When at least two windows have metrics and all of them score the
    same non-zero value, [_calc_robustness] returns the maximum, 100. *)
Theorem calc_robustness_constant mbw c :
  c <> 0 ->
  (2 <= length (List.filter (fun '(_, m) => negb (bool_decide (m = ∅))) mbw))%nat ->
  (forall w m, In (w, m) mbw -> m <> ∅ -> window_score m = c) ->
  calc_robustness mbw = 100.
Proof.
  intros Hc Hlen Hall. unfold calc_robustness. cbv zeta.
  set (scores := map _ _).
  assert (Hl : length scores = length (List.filter (fun '(_, m) => negb (bool_decide (m = ∅))) mbw))
    by apply length_map.
  assert (Hf : Forall (fun x => x = c) scores).
  { subst scores. apply List.Forall_forall. intros x Hx.
    apply in_map_iff in Hx as [[w m] [<- Hin]].
    apply filter_In in Hin as [Hin Hne].
    apply Hall with w; [done|]. intros E. rewrite E in Hne.
    rewrite bool_decide_eq_true_2 in Hne; [discriminate|done]. }
  destruct (Nat.ltb (length scores) 2) eqn:Elt; [apply Nat.ltb_lt in Elt; lia|].
  assert (Hn : 0 < INR (length scores)) by (apply lt_0_INR; lia).
  assert (Hmean : mean scores = c).
  { unfold mean. rewrite (sum_const c _ Hf). field. lra. }
  rewrite Hmean. destruct (Req_EM_T c 0); [done|].
  assert (Hsd : stdev scores = 0).
  { unfold stdev. rewrite Hmean, (sum_sq_dev_const c _ Hf).
    unfold Rdiv. rewrite Rmult_0_l. apply sqrt_0. }
  rewrite Hsd. replace (100 - 0 / Rabs c * 100) with 100 by (field; by apply Rabs_no_R0).
  destruct Rlt_dec as [_|H]; [apply py_round_100|lra].
Qed.

End RobustnessExtra.

Module BudgetControllerFacts.
Import BudgetController.
Local Open Scope Q_scope.

Definition is_start (c : Call) : bool := match c with OnCycleStart _ => true | _ => false end.
Definition is_update (c : Call) : bool := match c with UpdateBalance _ => true | _ => false end.
Definition is_should_stop (c : Call) : bool :=
  match c with ShouldStop _ _ => true | _ => false end.

(** The calls made since the last [on_cycle_start] (all of them when
    there was none). *)
Definition after_last_start (calls : list Call) : list Call :=
  fold_left (fun acc x => if is_start x then [] else (acc ++ [x])%list) calls [].

Lemma after_last_start_snoc calls x :
  after_last_start (calls ++ [x]) = if is_start x then [] else (after_last_start calls ++ [x])%list.
Proof. unfold after_last_start. by rewrite fold_left_app. Qed.

Lemma run_snoc fmt self calls x : run fmt self (calls ++ [x]) = step fmt (run fmt self calls) x.
Proof. unfold run. by rewrite fold_left_app. Qed.

Lemma should_stop_state fmt self bal now :
  exists a, fst (should_stop fmt self bal now)
            = with_state self (cycle_start_balance self) bal (bal - cycle_start_balance self)
                (trade_count self) a
       /\ (a = true -> snd (should_stop fmt self bal now) = (false, "ACTIVE")
                      /\ a = is_active self).
Proof.
  unfold should_stop. cbv zeta.
  destruct (Qle_bool (weekly_target self) bal); [by eexists false|].
  destruct (Qle_bool bal _); [by eexists false|].
  destruct (_ && _); [by eexists false|].
  exists (is_active self). split; [done|]. done.
Qed.

(** Over any sequence of calls on a new controller: [current_cycle_pnl]
    is always [current_balance - cycle_start_balance], [trade_count] is
    the number of [update_balance] calls since the last
    [on_cycle_start], and the controller is active when [should_stop]
    has not been called since then. *)
Theorem controller_run_invariant fmt budget target day ratio calls :
  let c := run fmt (new_controller budget target day ratio) calls in
  let tail := after_last_start calls in
  current_cycle_pnl c == current_balance c - cycle_start_balance c
  /\ trade_count c = Z.of_nat (length (List.filter is_update tail))
  /\ (forallb (fun x => negb (is_should_stop x)) tail = true -> is_active c = true).
Proof.
  cbv zeta. induction calls as [|x calls IH] using rev_ind.
  - simpl. split; [reflexivity|]. done.
  - rewrite run_snoc, after_last_start_snoc.
    destruct IH as [Hp [Hc Ha]].
    set (c := run fmt (new_controller budget target day ratio) calls) in *.
    destruct x as [b|b|b tm| | |]; simpl.
    + split; [ring|]. done.
    + split; [reflexivity|]. rewrite List.filter_app, length_app. simpl.
      split; [lia|]. rewrite forallb_app. simpl. rewrite andb_true_r. exact Ha.
    + destruct (should_stop_state fmt c b tm) as [a [-> _]]. simpl.
      split; [ring|]. rewrite List.filter_app, length_app. simpl.
      rewrite Nat.add_0_r. split; [exact Hc|].
      rewrite forallb_app. simpl. rewrite andb_false_r. discriminate.
    + split; [done|]. rewrite List.filter_app, length_app. simpl.
      rewrite Nat.add_0_r. split; [exact Hc|].
      rewrite forallb_app. simpl. rewrite andb_true_r. exact Ha.
    + split; [done|]. rewrite List.filter_app, length_app. simpl.
      rewrite Nat.add_0_r. split; [exact Hc|].
      rewrite forallb_app. simpl. rewrite andb_true_r. exact Ha.
    + split; [done|]. rewrite List.filter_app, length_app. simpl.
      rewrite Nat.add_0_r. split; [exact Hc|].
      rewrite forallb_app. simpl. rewrite andb_true_r. exact Ha.
Qed.

Lemma inactive_stays fmt self calls :
  is_active self = false -> Forall (fun x => is_start x = false) calls ->
  is_active (run fmt self calls) = false.
Proof.
  intros Ha Hs. induction calls as [|x calls IH] using rev_ind; [done|].
  rewrite Forall_app, Forall_singleton in Hs. destruct Hs as [Hs Hx].
  rewrite run_snoc. specialize (IH Hs).
  destruct x as [b|b|b tm| | |]; simpl in *; try done.
  destruct (should_stop_state fmt (run fmt self calls) b tm) as [a [-> Ht]].
  simpl. destruct a; [|done]. destruct (Ht eq_refl) as [_ Ha2]. congruence.
Qed.

(** [should_stop(balance)] answers [True] exactly when the balance
    reached the weekly target, fell to [cycle_start_balance *
    min_balance_ratio] or below, or it is Sunday 23:00 UTC or later;
    answering [False] it says ["ACTIVE"] and leaves [is_active] as it
    was. Once it has answered [True], [can_open_trade()] stays [False]
    through any later calls until the next [on_cycle_start]. *)
Theorem should_stop_latch fmt self bal now calls :
  let r := should_stop fmt self bal now in
  (fst (snd r) = true
   <-> weekly_target self <= bal
       \/ bal <= cycle_start_balance self * min_balance_ratio self
       \/ (fst now = 6 /\ 23 <= snd now)%Z)
  /\ (fst (snd r) = false -> snd (snd r) = "ACTIVE" /\ is_active (fst r) = is_active self)
  /\ (fst (snd r) = true -> Forall (fun x => is_start x = false) calls ->
        can_open_trade (run fmt (fst r) calls) = false).
Proof.
  cbv zeta. unfold can_open_trade.
  unfold should_stop. cbv zeta.
  destruct (Qle_bool (weekly_target self) bal) eqn:E1.
  { apply Qle_bool_iff in E1. simpl.
    split; [split; [intros _; by left|done]|].
    split; [discriminate|]. intros _ Hs. by apply inactive_stays. }
  destruct (Qle_bool bal (cycle_start_balance self * min_balance_ratio self)) eqn:E2.
  { apply Qle_bool_iff in E2. simpl.
    split; [split; [intros _; by right; left|done]|].
    split; [discriminate|]. intros _ Hs. by apply inactive_stays. }
  assert (N1 : ~ weekly_target self <= bal).
  { intros H. apply Qle_bool_iff in H. congruence. }
  assert (N2 : ~ bal <= cycle_start_balance self * min_balance_ratio self).
  { intros H. apply Qle_bool_iff in H. congruence. }
  destruct ((fst now =? 6)%Z && (23 <=? snd now)%Z) eqn:E3.
  { apply andb_true_iff in E3 as [E3 E4]. apply Z.eqb_eq in E3. apply Z.leb_le in E4.
    simpl. split; [split; [intros _; by right; right|done]|].
    split; [discriminate|]. intros _ Hs. by apply inactive_stays. }
  simpl. split.
  - split; [discriminate|]. intros [H|[H|[H3 H4]]]; [done|done|].
    apply Z.eqb_eq in H3. apply Z.leb_le in H4. by rewrite H3, H4 in E3.
  - split; [done|]. discriminate.
Qed.

End BudgetControllerFacts.

Module WeeklyMetricsFacts.
Import PyNum PyText WeeklyMetrics DeviationExtra.
Import Lqa.
Local Open Scope Q_scope.

Lemma key_eqb_iff a b : key_eqb a b = true <-> a = b.
Proof.
  destruct a as [a1 a2], b as [b1 b2]. unfold key_eqb. simpl.
  rewrite andb_true_iff, !Z.eqb_eq. split; [intros [-> ->]; done|intros [= -> ->]; done].
Qed.

Lemma existsb_key_In (d : ddict) k :
  existsb (fun kv => key_eqb k (fst kv)) d = true <-> In k (map fst d).
Proof.
  rewrite existsb_exists. split.
  - intros [[k' v] [Hin Hk]]. apply key_eqb_iff in Hk. simpl in Hk. rewrite Hk.
    apply in_map_iff. by exists (k', v).
  - intros Hin. apply in_map_iff in Hin as [[k' v] [Hk Hin]]. simpl in Hk.
    exists (k', v). split; [done|]. apply key_eqb_iff. simpl. by symmetry.
Qed.

Lemma dd_add_keys d k q : map fst (dd_add d k q) = map fst d.
Proof.
  induction d as [|[k' v] rest IH]; [done|]. simpl.
  destruct (key_eqb k k'); simpl; [done|]. by rewrite IH.
Qed.

Lemma dd_touch_keys d k :
  map fst (dd_touch d k) = if existsb (fun kv => key_eqb k (fst kv)) d
                           then map fst d else app (map fst d) [k].
Proof. unfold dd_touch. destruct (existsb _ d); [done|]. by rewrite map_app. Qed.

Lemma dd_touch_NoDup d k : NoDup (map fst d) -> NoDup (map fst (dd_touch d k)).
Proof.
  intros Hd. rewrite dd_touch_keys. destruct (existsb _ d) eqn:E; [done|].
  apply NoDup_app. split; [done|]. split; [|apply NoDup_singleton].
  intros x Hx Hy. apply list_elem_of_singleton in Hy. subst.
  rewrite list_elem_of_In in Hx. apply existsb_key_In in Hx. congruence.
Qed.

Lemma dd_touch_In d k x : In x (map fst (dd_touch d k)) <-> In x (map fst d) \/ x = k.
Proof.
  rewrite dd_touch_keys. destruct (existsb _ d) eqn:E.
  - apply existsb_key_In in E. split; [by left|]. intros [H| ->]; done.
  - rewrite in_app_iff. simpl. split; intros [H|H]; auto.
    destruct H as [<-|[]]. by right.
Qed.

Section Parse.
Variable iso_week_of_isoformat : string -> option (Z * Z).
Variable iso_week_of_strptime : string -> option (Z * Z).

Lemma add_trade_keys d t :
  NoDup (map fst d) ->
  NoDup (map fst (add_trade iso_week_of_isoformat iso_week_of_strptime d t))
  /\ forall k, In k (map fst (add_trade iso_week_of_isoformat iso_week_of_strptime d t))
               <-> In k (map fst d)
                   \/ week_key iso_week_of_isoformat iso_week_of_strptime t = Some k.
Proof.
  intros Hd. unfold add_trade. cbv zeta.
  destruct (week_key _ _ t) as [wk|].
  - assert (Hk : forall d' : ddict, map fst d' = map fst (dd_touch d wk) ->
              NoDup (map fst d')
              /\ forall k, In k (map fst d') <-> In k (map fst d) \/ Some wk = Some k).
    { intros d' ->. split; [by apply dd_touch_NoDup|].
      intros k. rewrite dd_touch_In. split; intros [H|H]; auto; right; congruence. }
    apply Hk. destruct (profit_abs t); [apply dd_add_keys|done].
  - split; [done|]. intros k. split; [by left|]. intros [H|H]; [done|discriminate].
Qed.

Lemma fold_add_trade_keys trades d :
  NoDup (map fst d) ->
  let d' := fold_left (add_trade iso_week_of_isoformat iso_week_of_strptime) trades d in
  NoDup (map fst d')
  /\ forall k, In k (map fst d')
               <-> In k (map fst d)
                   \/ exists t, In t trades
                                /\ week_key iso_week_of_isoformat iso_week_of_strptime t = Some k.
Proof.
  revert d. induction trades as [|t rest IH]; intros d Hd; simpl.
  - split; [done|]. intros k. split; [by left|]. intros [H|[t [[] _]]]; done.
  - destruct (add_trade_keys d t Hd) as [Hn Hi].
    destruct (IH _ Hn) as [Hn' Hi']. split; [done|].
    intros k. rewrite Hi', Hi. split.
    + intros [[H|H]|[t' [Ht' Hk]]]; [by left|right; exists t; auto|right; exists t'; auto].
    + intros [H|[t' [[<-|Ht'] Hk]]]; [by left; left|by left; right|right; exists t'; auto].
Qed.

Lemma round_half_even_le (x : Q) (z : Z) : x <= inject_Z z -> (round_half_even x <= z)%Z.
Proof.
  intros Hx. unfold round_half_even. cbv zeta.
  assert (Hf1 := Qfloor_le x).
  assert (Hf : (Qfloor x <= z)%Z).
  { rewrite Zle_Qle. eapply Qle_trans; eassumption. }
  destruct (Qltb (x - inject_Z (Qfloor x)) (1 # 2)) eqn:E1; [done|].
  assert (Hlt : (Qfloor x < z)%Z).
  { destruct (Z.eq_dec (Qfloor x) z) as [Ez|]; [exfalso|lia].
    unfold Qltb in E1. apply negb_false_iff, Qle_bool_iff in E1.
    rewrite Ez in E1. lra. }
  destruct (Qltb (1 # 2) _); [lia|]. destruct (Z.even _); lia.
Qed.

Lemma py_round_le_1 (x : Q) (n : nat) : x <= 1 -> py_round x n <= 1.
Proof.
  intros Hx. unfold py_round, Qle. simpl. rewrite Z.mul_1_r.
  apply round_half_even_le.
  assert (Hp : 0 <= inject_Z (Zpos (pow10 n))) by (unfold Qle; simpl; lia).
  apply (Qmult_le_compat_r _ _ _ Hx) in Hp. rewrite Qmult_1_l in Hp. exact Hp.
Qed.

(** [_calc_weekly_metrics(trades)]: [total_weeks] is the number of
    distinct ISO [(year, week)] keys of the trades with a parsable
    [close_date] (a trade whose profit is not a number still creates its
    week, at [0.0]); [0 <= target_hit_weeks <= total_weeks]; the hit
    rate lies in [[0, 1]]; and [max_monthly_loss >= 0]. *)
Theorem calc_weekly_metrics_bounds trades :
  let r := calc_weekly_metrics iso_week_of_isoformat iso_week_of_strptime trades in
  (0 <= target_hit_weeks r <= total_weeks r)%Z
  /\ 0 <= weekly_target_hit_rate r <= 1
  /\ 0 <= max_monthly_loss r
  /\ exists ks, NoDup ks
                /\ (forall k, In k ks <-> exists t, In t trades
                         /\ week_key iso_week_of_isoformat iso_week_of_strptime t = Some k)
                /\ total_weeks r = Z.of_nat (length ks).
Proof.
  cbv zeta. unfold calc_weekly_metrics.
  destruct (fold_add_trade_keys trades [] (NoDup_nil_2)) as [Hn Hi].
  set (d := fold_left (add_trade iso_week_of_isoformat iso_week_of_strptime) trades []) in *.
  assert (Hks : forall k, In k (map fst d) <-> exists t, In t trades
                  /\ week_key iso_week_of_isoformat iso_week_of_strptime t = Some k).
  { intros k. rewrite Hi. simpl. split; [intros [[]|H]; exact H|by right]. }
  destruct d as [|kv rest] eqn:Ed.
  - simpl. split; [lia|]. split; [split; [apply Qle_refl|discriminate]|].
    split; [apply Qle_refl|]. exists []. split; [constructor|]. split; [exact Hks|done].
  - cbv zeta.
    set (hits := length (List.filter _ (kv :: rest))).
    assert (Hh : (hits <= length (kv :: rest))%nat) by apply filter_length_le. cbn [length] in Hh.
    simpl (Z.of_nat (length (kv :: rest))) in *.
    split; [cbn [target_hit_weeks total_weeks]; lia|]. split.
    { cbn [weekly_target_hit_rate]. destruct (0 <? _)%Z eqn:E0; [|apply Z.ltb_ge in E0; lia].
      apply Z.ltb_lt in E0.
      split.
      - apply py_round_Q_nonneg. apply Qle_shift_div_l; [unfold Qlt; simpl; lia|].
        rewrite Qmult_0_l. unfold Qle; simpl; lia.
      - apply py_round_le_1. apply Qle_shift_div_r; [unfold Qlt; simpl; lia|].
        rewrite Qmult_1_l. rewrite <- Zle_Qle. lia. }
    split.
    { cbn [max_monthly_loss]. destruct (map snd _); [apply py_round_Q_nonneg, Qle_refl|].
      apply py_round_Q_nonneg. apply Qabs_nonneg. }
    exists (map fst (kv :: rest)). split; [exact Hn|]. split; [exact Hks|].
    cbn [total_weeks]. by rewrite length_map.
Qed.

End Parse.
End WeeklyMetricsFacts.

Module FactorLabFacts.
Import StrategyConfig FactorLab.

Section Dedup.
Variable md5_hex : string -> string.
Variable py_str : json -> string.
Variable json_dumps_sorted : json -> string.

Local Abbreviation key := (dedup_key md5_hex py_str json_dumps_sorted).

(** The candidates the loop still appends, given the keys seen so far. *)
Fixpoint kept (seen : gset string) (cs : list Candidate) : list Candidate :=
  match cs with
  | [] => []
  | c :: rest =>
      if decide (key c ∈ seen) then kept seen rest
      else c :: kept ({[key c]} ∪ seen) rest
  end.

Lemma fold_dedup_kept cs seen result :
  snd (fold_left (dedup_step md5_hex py_str json_dumps_sorted) cs (seen, result))
  = (result ++ kept seen cs)%list.
Proof.
  revert seen result. induction cs as [|c rest IH]; intros seen result; simpl.
  - by rewrite app_nil_r.
  - destruct (decide (key c ∈ seen)).
    + apply IH.
    + rewrite IH. by rewrite <- app_assoc.
Qed.

Lemma kept_props cs seen :
  sublist (kept seen cs) cs
  /\ NoDup (map key (kept seen cs))
  /\ (forall c, In c (kept seen cs) -> key c ∉ seen)
  /\ (forall c, In c cs -> key c ∈ seen \/ exists c', In c' (kept seen cs) /\ key c' = key c)
  /\ (forall c, In c (kept seen cs) ->
        List.find (fun x => String.eqb (key x) (key c)) cs = Some c).
Proof.
  revert seen. induction cs as [|c rest IH]; intros seen; simpl.
  - split; [constructor|]. split; [constructor|]. split; [done|]. split; done.
  - destruct (decide (key c ∈ seen)) as [Hin|Hnin].
    + destruct (IH seen) as [Hs [Hn [Hk [Hc Hf]]]].
      split; [by apply sublist_cons|]. split; [done|]. split; [done|].
      split.
      * intros c' [<-|Hc']; [by left|by apply Hc].
      * intros c' Hc'. specialize (Hk _ Hc'). specialize (Hf _ Hc').
        destruct (String.eqb (key c) (key c')) eqn:E; [|done].
        apply String.eqb_eq in E. rewrite E in Hin. done.
    + destruct (IH ({[key c]} ∪ seen)) as [Hs [Hn [Hk [Hc Hf]]]].
      split; [by apply sublist_skip|]. split.
      { simpl. apply NoDup_cons. split; [|done].
        intros Hm. apply list_elem_of_In, in_map_iff in Hm as [c' [Ec Hc']].
        apply (Hk _ Hc'). rewrite Ec. set_solver. }
      split.
      { intros c' [<-|Hc']; [done|]. specialize (Hk _ Hc'). set_solver. }
      split.
      { intros c' [<-|Hc'].
        - right. exists c. split; [by left|done].
        - destruct (Hc _ Hc') as [Hs'|[c'' [Hin Hk']]].
          + apply elem_of_union in Hs' as [Hs'|Hs'].
            * apply elem_of_singleton in Hs'. right. exists c. split; [by left|done].
            * by left.
          + right. exists c''. split; [by right|done]. }
      { intros c' [<-|Hc'].
        - simpl. by rewrite String.eqb_refl.
        - simpl. specialize (Hk _ Hc'). specialize (Hf _ Hc').
          destruct (String.eqb (key c) (key c')) eqn:E; [|done].
          apply String.eqb_eq in E. exfalso. apply Hk. rewrite <- E. set_solver. }
Qed.

(** [deduplicate(candidates)] keeps, in their order, exactly the first
    candidate of each [_dedup_key]: the result is a subsequence of the
    input with pairwise distinct keys, every input key occurs in it, and
    each kept candidate is the first one of the input with its key. *)
Theorem deduplicate_first_occurrence cands :
  let r := deduplicate md5_hex py_str json_dumps_sorted cands in
  sublist r cands
  /\ NoDup (map key r)
  /\ (forall c, In c cands -> exists c', In c' r /\ key c' = key c)
  /\ (forall c, In c r -> List.find (fun x => String.eqb (key x) (key c)) cands = Some c).
Proof.
  cbv zeta. unfold deduplicate. rewrite fold_dedup_kept. simpl.
  destruct (kept_props cands ∅) as [Hs [Hn [_ [Hc Hf]]]].
  split; [done|]. split; [done|]. split; [|done].
  intros c Hin. destruct (Hc _ Hin) as [H|H]; [set_solver|done].
Qed.

End Dedup.
End FactorLabFacts.

Module ModifierWitnesses.
Import PyText StrategyModifier StrategyModifierFacts StrategyModifierExtra RollbackExtra.

(** A syntax error leaves the strategy file as it was. *)
Lemma apply_patch_failure_keeps_strategy_witness :
  let pp := fun _ : string => Some "invalid syntax" in
  let sf := fun _ : string => Some (false, "-0.5") in
  let cw := fun _ : string => true in
  let uw := fun _ : Z => false in
  let self := default_modifier in
  let s : fs := {[ "strategies/LotteryMindsetStrategy.py" := "old" ]} in
  let res := {| success := false; backup_path := "";
                errors := ["Syntax error: invalid syntax"]; warnings := [] |} in
  (exists res0, @inr exn PatchResult res = inr res0 /\ success res0 = true
                /\ s !! strategy_path self = Some "def (")
  \/ s !! strategy_path self = Some "old".
Proof.
  intros pp sf cw uw self s res.
  apply (apply_patch_failure_keeps_strategy pp sf cw uw self "def (" 1 "" "20260101_000000"
           s "old" (inr res) s); vm_compute; reflexivity.
Defined.

(** The target path is not writable: the temporary file is left behind. *)
Lemma atomic_write_effects_witness :
  let cw := fun p : string => negb (String.eqb p "a.py") in
  let s : fs := {[ "a.py" := "old" ]} in
  let s' : fs := <[ "a.py.tmp" := "x" ]> s in
  let o : exn + unit := inl (PyExn "OSError" "a.py") in
  (forall q, q <> "a.py" -> q <> "a.py" ++ ".tmp" -> s' !! q = s !! q)
  /\ (o = inr tt -> s' !! "a.py" = Some "x" /\ s' !! ("a.py" ++ ".tmp") = None)
  /\ (forall e, o = inl e ->
        s' !! "a.py" = s !! "a.py"
        /\ (cw ("a.py" ++ ".tmp") = true -> s' !! ("a.py" ++ ".tmp") = Some "x")).
Proof.
  intros cw s s' o.
  apply (atomic_write_effects cw "a.py" "x" s o s'). vm_compute. reflexivity.
Defined.

Definition pp0 : string -> option string := fun _ => None.
Definition sf0 : string -> option (bool * string) := fun _ => Some (false, "-0.5").
Definition cw0 : string -> bool := fun _ => true.
Definition uw0 : Z -> bool := fun _ => false.
Definition sl0 : list string -> string := fun l => List.hd "" l.
Definition code0 : string := "WeeklyBudgetController can_open_trade confirm_trade_entry".
Definition s0 : fs := {[ "strategies/LotteryMindsetStrategy.py" := "old" ]}.
Definition bp0 : string := "results/strategy_versions/round_001_20260101_000000_.py".

Lemma sl0_member l : l <> [] -> In (sl0 l) l.
Proof. destruct l as [|x l]; [done|]. intros _. by left. Qed.

(** Rolling back round 1 after one successful patch of round 1. *)
Lemma apply_patch_then_rollback_witness :
  let tmp := "strategies/LotteryMindsetStrategy.py.tmp" in
  let res := {| success := true; backup_path := bp0; errors := []; warnings := [] |} in
  let s' := <["strategies/LotteryMindsetStrategy.py" := code0]>
              (delete tmp (<[tmp := code0]> (<[bp0 := "old"]> s0))) in
  rollback cw0 sl0 default_modifier 1 s'
  = (inr true, <[strategy_path default_modifier := "old"]> s').
Proof.
  intros tmp res s'.
  apply (apply_patch_then_rollback pp0 sf0 cw0 uw0 sl0 default_modifier code0 1 ""
           "20260101_000000" s0 "old" res s').
  - exact sl0_member.
  - reflexivity.
  - intros p [c Hc]. unfold s0 in Hc. apply lookup_singleton_Some in Hc as [<- _].
    vm_compute. reflexivity.
  - reflexivity.
  - vm_compute. reflexivity.
  - reflexivity.
Defined.

(** Rolling back round 1 with one backup of round 1 on disk. *)
Lemma rollback_outcome_witness :
  let s : fs := <[bp0 := "old"]> {[ "strategies/LotteryMindsetStrategy.py" := "new" ]} in
  let s' := <["strategies/LotteryMindsetStrategy.py" := "old"]> s in
  (@inr exn bool true = inr false
   <-> forall p, is_Some (s !! p) -> glob_match (backup_dir default_modifier) 1 p = false)
  /\ (@inr exn bool true = inr false -> s' = s)
  /\ (@inr exn bool true = inr true ->
        exists b c, glob_match (backup_dir default_modifier) 1 b = true /\ s !! b = Some c
                    /\ s' = <[strategy_path default_modifier := c]> s)
  /\ (forall e, @inr exn bool true = inl e ->
        forall p, p <> strategy_path default_modifier -> s' !! p = s !! p).
Proof.
  intros s s'.
  apply (rollback_outcome cw0 sl0 default_modifier 1 s (inr true) s').
  - exact sl0_member.
  - vm_compute. reflexivity.
Defined.

End ModifierWitnesses.

Module RecoveryWitnesses.
Import PyText StrategyModifier StrategyModifierFacts ErrorRecovery ErrorRecoveryExtra ModifierWitnesses.

Definition mgr0 : ErrorRecoveryManager :=
  {| strategy_modifier := default_modifier; max_retries := 3 |}.

(** Round 2 exhausted, one backup of round 1 on disk: it is restored. *)
Lemma rollback_on_exhausted_outcome_witness :
  let s : fs := <[bp0 := "old"]> {[ "strategies/LotteryMindsetStrategy.py" := "new" ]} in
  let s' := <["strategies/LotteryMindsetStrategy.py" := "old"]> s in
  rollback_on_exhausted cw0 sl0 mgr0 2 s
  = (inr {| rolled_back := true; rollback_round := 1; rb_status := "quarantined" |}, s')
  /\ ((1 < 2)%Z ->
       (@inr exn RollbackReport
          {| rolled_back := true; rollback_round := 1; rb_status := "quarantined" |}
        = inr {| rolled_back := false; rollback_round := 2 - 1;
                 rb_status := "rollback_failed" |}
        /\ s' = s
        /\ forall p, is_Some (s !! p) ->
             glob_match (backup_dir (strategy_modifier mgr0)) (2 - 1) p = false)
       \/ (@inr exn RollbackReport
             {| rolled_back := true; rollback_round := 1; rb_status := "quarantined" |}
           = inr {| rolled_back := true; rollback_round := 2 - 1;
                    rb_status := "quarantined" |}
           /\ exists b c, glob_match (backup_dir (strategy_modifier mgr0)) (2 - 1) b = true
                          /\ s !! b = Some c
                          /\ s' = <[strategy_path (strategy_modifier mgr0) := c]> s)
       \/ (exists e, @inr exn RollbackReport
                       {| rolled_back := true; rollback_round := 1;
                          rb_status := "quarantined" |} = inl e
                     /\ forall p, p <> strategy_path (strategy_modifier mgr0) ->
                                 s' !! p = s !! p)).
Proof.
  intros s s'.
  assert (H : rollback_on_exhausted cw0 sl0 mgr0 2 s
              = (inr {| rolled_back := true; rollback_round := 1;
                        rb_status := "quarantined" |}, s'))
    by (vm_compute; reflexivity).
  split; [exact H|].
  exact (proj2 (rollback_on_exhausted_outcome cw0 sl0 mgr0 2 s _ s' sl0_member H)).
Defined.

Definition syn0 : string -> string := fun _ => "".
Definition gen0 : Z -> string -> string -> exn + (string * string) :=
  fun _ _ _ => inr (code0, "restored the hooks").
Definition bt0 : option string -> fs -> Orchestrator.BacktestResult :=
  fun _ _ => {| Orchestrator.bt_success := true; Orchestrator.bt_error := "";
                Orchestrator.bt_metrics := ∅ |}.
Definition ts0 : Z -> string := fun _ => "20260101_000000".

(** With [max_retries = 0] nothing is attempted. *)
Lemma attempt_fix_no_retries_witness :
  attempt_fix pp0 sf0 cw0 uw0 syn0 gen0 bt0 ts0
    {| strategy_modifier := default_modifier; max_retries := 0 |}
    "KeyError: 'x'" "old" 1 None s0
  = (inr {| fx_success := false; fx_attempts := 0;
            fx_error_type := classify_error "KeyError: 'x'"; fx_fix_summary := "exhausted";
            fx_metrics := ∅ |}, s0).
Proof.
  exact (attempt_fix_no_retries pp0 sf0 cw0 uw0 syn0 gen0 bt0 ts0
           {| strategy_modifier := default_modifier; max_retries := 0 |}
           "KeyError: 'x'" "old" 1 None s0 ltac:(simpl; lia)).
Defined.

Definition fix_run0 := attempt_fix pp0 sf0 cw0 uw0 syn0 gen0 bt0 ts0 mgr0 "KeyError: 'x'" "old" 1 None s0.
Definition fix_res0 : FixResult :=
  match fst fix_run0 with
  | inr r => r
  | inl _ => exhausted_result mgr0 ""
  end.

(** The first repair attempt is accepted. *)
Lemma attempt_fix_outcome_witness :
  fst fix_run0 = inr fix_res0
  /\ fx_error_type fix_res0 = classify_error "KeyError: 'x'"
  /\ (fx_success fix_res0 = true -> (1 <= fx_attempts fix_res0 <= max_retries mgr0)%Z).
Proof.
  assert (H : fix_run0 = (inr fix_res0, snd fix_run0)) by (vm_compute; reflexivity).
  destruct (attempt_fix_outcome pp0 sf0 cw0 uw0 syn0 gen0 bt0 ts0 mgr0 "KeyError: 'x'" "old" 1
              None s0 fix_res0 (snd fix_run0) H) as [Ht [_ Hs]].
  split; [vm_compute; reflexivity|]. split; [exact Ht|].
  intros Hok. exact (proj1 (Hs Hok)).
Defined.


End RecoveryWitnesses.

Module ConfigWitnesses.
Import PyText StrategyModifier StrategyConfig StrategyConfigExtra.

Definition load0 : string -> exn + json := fun _ => inr (JObj [("a", JNum 1)]).
Definition dump0 : json -> string := fun _ => "{}".
Definition te0 : json -> string -> string := fun _ _ => "not a dict".
Definition cfg_s0 : fs := {[ "config.json" := "config text" ]}.
Definition cw0 : string -> bool := fun _ => true.
Definition ch0 : list (string * json) := [("b", JNum 2)].
Definition cfg_run0 := apply_config_patch cw0 load0 dump0 te0 "config.json" ch0 1 cfg_s0.

(** A config file holding a JSON object, patched with one new key. *)
Lemma apply_config_patch_outcome_witness :
  exists res, fst cfg_run0 = inr res
  /\ (c_success res = true ->
        c_backup res = "config.json" ++ ".bak.r" ++ z_to_str 1 /\ c_errors res = []).
Proof.
  assert (H : cfg_run0 = (fst cfg_run0, snd cfg_run0)) by (vm_compute; reflexivity).
  destruct (apply_config_patch_outcome cw0 load0 dump0 te0 "config.json" ch0 1 cfg_s0
              (fst cfg_run0) (snd cfg_run0) H) as [res [Ho [Hs _]]].
  exists res. split; [exact Ho|]. intros Hok. destruct (Hs Hok) as [Hb [He _]]. by split.
Defined.

(** The same run succeeds: the config file existed and held an object. *)
Lemma apply_config_patch_success_requires_witness :
  exists text cfg, cfg_s0 !! "config.json" = Some text /\ load0 text = inr cfg
                   /\ ((exists b, cfg = JObj b) \/ ch0 = []).
Proof.
  apply (apply_config_patch_success_requires cw0 load0 dump0 te0 "config.json" ch0 1 cfg_s0
           {| c_success := true; c_backup := "config.json.bak.r1"; c_errors := [] |}
           (snd cfg_run0)); [vm_compute; reflexivity|reflexivity].
Defined.

Definition base0 : list (string * json) := [("a", JNum 1); ("n", JObj [("x", JNum 1)])].
Definition over0 : list (string * json) := [("n", JObj [("y", JNum 2)]); ("b", JNum 2)].

(** A nested dict is merged, a new key goes last. *)
Lemma deep_merge_spec_witness :
  map fst (merge_into base0 (JObj over0))
  = app (map fst base0) (List.filter (fun k => negb (has_key base0 k)) (map fst over0)).
Proof.
  assert (H : NoDup (map fst over0)) by (apply (bool_decide_unpack _); vm_compute; reflexivity).
  exact (proj2 (proj2 (deep_merge_spec base0 over0 H))).
Defined.

End ConfigWitnesses.

Module EvaluatorWitnesses.
Import PyNum Evaluator EvaluatorExtra.
Local Open Scope Q_scope.

(** The default evaluator on empty metrics. *)
Lemma evaluate_empty_metrics_witness :
  passed (evaluate (fun _ _ => "") default_evaluator ∅) = false
  /\ score (evaluate (fun _ _ => "") default_evaluator ∅)
     = py_round (trade_efficiency_w (weights default_evaluator) * 100 / 24) 2.
Proof.
  destruct (evaluate_empty_metrics (fun _ _ => "") default_evaluator)
    as [H1 [_ [H3 _]]]; try (unfold Qlt, Qle; simpl; lia).
  split; [exact H1|exact H3].
Defined.
End EvaluatorWitnesses.

Module OrchestratorWitnesses.
Import PyNum Evaluator Orchestrator OrchestratorExtra.
Local Open Scope Q_scope.

Definition run0 : option string -> BacktestResult :=
  fun _ => {| bt_success := true; bt_error := ""; bt_metrics := ∅ |}.

(** Both windows succeed with the same metrics. *)
Lemma run_walk_forward_pass_iff_witness :
  fst (run_walk_forward (fun _ _ => "") default_evaluator (Some "20240101-20240201") None run0)
    = true
  <-> (Some "20240101-20240201" = None \/ Some "20240101-20240201" = Some "")
      \/ (exists t, Some "20240101-20240201" = Some t /\ t <> ""
          /\ bt_success (run0 (Some t)) = true /\ bt_success (run0 None) = true
          /\ 0 < Evaluator.score (evaluate (fun _ _ => "") default_evaluator
                                    (bt_metrics (run0 None)))
          /\ oos_score_ratio_min default_evaluator
             * Evaluator.score (evaluate (fun _ _ => "") default_evaluator
                                  (bt_metrics (run0 None)))
             <= Evaluator.score (evaluate (fun _ _ => "") default_evaluator
                                   (bt_metrics (run0 (Some t))))).
Proof.
  apply run_walk_forward_pass_iff. unfold Qlt. simpl. lia.
Defined.

Definition rec0 (st : string) (sc : Q) : RoundRecord :=
  {| round := 1; status := st; score := sc; next_action := "" |}.

(** A failed round between two successful ones. *)
Lemma check_termination_ignores_failed_witness :
  check_termination (fun _ _ => "") 3 [rec0 "success" 5; rec0 "error" 0; rec0 "success" 4]
  = check_termination (fun _ _ => "") 3
      (List.filter is_success [rec0 "success" 5; rec0 "error" 0; rec0 "success" 4]).
Proof. apply check_termination_ignores_failed. lia. Defined.

(** A limit of 0 with five rounds allowed. *)
Lemma run_iteration_loop_nonpositive_limit_witness :
  exists r reason,
    run_iteration_loop (fun _ _ => "") (fun n _ => rec0 "success" 1)
      (fun _ => (true, "")) false 0 5 = [r]
    /\ next_action r = "STOP: " ++ reason.
Proof.
  apply run_iteration_loop_nonpositive_limit; lia.
Defined.
End OrchestratorWitnesses.

Module OptimizerWitnesses.
Import TargetOptimizer TargetOptimizerExtra.
Local Open Scope R_scope.

(** A metric outside the default profile. *)
Lemma compute_gap_ignores_other_metrics_witness :
  compute_gap default_optimizer (<["sharpe" := 1]> ∅) 1 = compute_gap default_optimizer ∅ 1.
Proof.
  apply compute_gap_ignores_other_metrics. simpl.
  intros [H|[H|[H|[H|[]]]]]; discriminate.
Defined.

(** The monthly profit rises from 0 to 50, everything else unchanged. *)
Lemma compute_gap_improvement_witness :
  (forall k w, In (k, w) (weights default_optimizer) -> 0 <= w)
  /\ (forall key t, In (key, t) (target_profile default_optimizer) ->
        delta_of (<["monthly_net_profit_avg" := 50]> ∅) key t <= delta_of ∅ key t)
  /\ (forall r r' g g',
        compute_gap default_optimizer ∅ r = Some g ->
        compute_gap default_optimizer (<["monthly_net_profit_avg" := 50]> ∅) r' = Some g' ->
        weighted_norm g' <= weighted_norm g
        /\ (mode g = "fine_tune" -> mode g' = "fine_tune")).
Proof.
  assert (Hw : forall k w, In (k, w) (weights default_optimizer) -> 0 <= w).
  { simpl. intros k w [H|[H|[H|[H|[]]]]]; injection H as <- <-; lra. }
  assert (Hd : forall key t, In (key, t) (target_profile default_optimizer) ->
             delta_of (<["monthly_net_profit_avg" := 50]> ∅) key t <= delta_of ∅ key t).
  { simpl. intros key t [H|[H|[H|[H|[]]]]]; injection H as <- <-; unfold delta_of;
      rewrite ?lookup_insert_eq, ?lookup_insert_ne, ?lookup_empty by discriminate;
      simpl; lra. }
  split; [exact Hw|]. split; [exact Hd|].
  exact (compute_gap_improvement default_optimizer ∅ _ Hw Hd).
Defined.
End OptimizerWitnesses.

Module RobustnessWitnesses.
Import Comparator.Robustness RobustnessExtra.
Local Open Scope R_scope.

Definition windows0 : list (string * gmap string R) :=
  [("2024Q1", <["score" := 2]> ∅); ("2024Q2", <["score" := 2]> ∅); ("2024Q3", ∅)].

(** Two windows with the same score, one empty window. *)
Lemma calc_robustness_constant_witness : calc_robustness windows0 = 100.
Proof.
  apply (calc_robustness_constant windows0 2).
  - lra.
  - vm_compute. lia.
  - simpl. intros w m [H|[H|[H|[]]]]; injection H as <- <-; intros Hne;
      [unfold window_score; by rewrite lookup_insert_eq
      |unfold window_score; by rewrite lookup_insert_eq
      |done].
Defined.
End RobustnessWitnesses.
